(** * Payment metering engine (core/meterer/meterer.go)

    A shallow embedding of the meterer of the dispersal service: pricing,
    period arithmetic, the reservation path with its overflow carry, the
    on-demand path with its ledger invariant and compensating delete, and the
    coordinator [MeterRequest].

    Conventions.
    - Go's [uint64] and [int64] values are integers of [Z]; every place where
      Go wraps modulo [2^64] is written out with [wrap64].
    - [*big.Int] values are unbounded integers of [Z].
    - A Go [error] is a value of [error]; [fmt.Errorf("...: %w", e)] is
      [Wrapf].
    - The off-chain store is the interface [OffchainStore]; the engine runs in
      a state-and-error monad over a [World] that holds the store and the log
      of the calls the engine made with a context. *)

From Stdlib Require Import ZArith Lia Bool List String.
From Stdlib Require Import Floats.SpecFloat.
From stdpp Require Import base gmap strings.

Local Open Scope string_scope.
Local Open Scope Z_scope.

(** ** Machine integers *)

Module U64.

Definition modulus : Z := 2 ^ 64.

(** [math.MaxUint64]. *)
Definition MaxUint64 : Z := modulus - 1.

(** Reduction of an integer to its [uint64] representative: the result of
    every [uint64] operation and of the conversion [uint64(x)]. *)
Definition wrap64 (z : Z) : Z := z mod modulus.

(** The conversion [int64(x)] of a [uint64]: two's complement. *)
Definition to_int64 (z : Z) : Z :=
  let r := wrap64 z in
  if r <? 2 ^ 63 then r else r - modulus.

Definition in_u64 (z : Z) : Prop := 0 <= z < modulus.
Definition in_i64 (z : Z) : Prop := - 2 ^ 63 <= z < 2 ^ 63.

End U64.
Export U64.

(** ** time.Duration.Seconds

    Go's [time] package computes
    [[
      func (d Duration) Seconds() float64 {
          sec := d / Second
          nsec := d % Second
          return float64(sec) + float64(nsec)/1e9
      }
    ]]
    in IEEE 754 binary64 with round-to-nearest-even.  The model uses the
    executable specification of binary64 of the standard library. *)

Module Float64.

Definition prec : Z := 53.
Definition emax : Z := 1024.

(** [float64(x)] for an integer [x]. *)
Definition of_Z (x : Z) : spec_float := binary_normalize prec emax x 0 false.

Definition add : spec_float -> spec_float -> spec_float := SFadd prec emax.
Definition div : spec_float -> spec_float -> spec_float := SFdiv prec emax.

(** [int64(f)] for a finite [f]: truncation toward zero. *)
Definition trunc (f : spec_float) : Z :=
  match f with
  | S754_finite s m e =>
      let mag := if 0 <=? e then Z.pos m * 2 ^ e else Z.pos m / 2 ^ (- e) in
      if s then - mag else mag
  | _ => 0
  end.

End Float64.

(** [time.Second] in nanoseconds. *)
Definition Second : Z := 1000000000.

(** [(d Duration).Seconds()]; Go's [/] and [%] on signed integers truncate
    toward zero. *)
Definition Seconds (d : Z) : spec_float :=
  let sec := Z.quot d Second in
  let nsec := Z.rem d Second in
  Float64.add (Float64.of_Z sec) (Float64.div (Float64.of_Z nsec) (Float64.of_Z Second)).

(** ** PeriodArithmetic *)

(** [GetReservationPeriod(timestamp int64, binInterval uint64) uint64]. *)
Definition GetReservationPeriod (timestamp binInterval : Z) : Z :=
  if binInterval =? 0 then 0
  else wrap64 timestamp / binInterval.

(** [GetReservationPeriodByNanosecond(nanosecondTimestamp int64, binInterval uint64) uint64].
    [time.Duration(ns) * time.Nanosecond] is [ns] itself, [time.Nanosecond]
    being 1. *)
Definition GetReservationPeriodByNanosecond (nanosecondTimestamp binInterval : Z) : Z :=
  if nanosecondTimestamp <? 0 then 0
  else GetReservationPeriod (Float64.trunc (Seconds (nanosecondTimestamp * 1))) binInterval.

(** ** Errors and results *)

(** A Go [error]: [fmt.Errorf(format, args...)] without [%w] is [Errorf];
    [fmt.Errorf("format: %w", cause)] is [Wrapf]. *)
Inductive error : Type :=
| Errorf (format : string) (args : list Z)
| Wrapf (format : string) (cause : error).

Inductive result (A : Type) : Type :=
| Ok (a : A)
| Err (e : error).
Arguments Ok {A} a.
Arguments Err {A} e.

Definition is_ok {A} (r : result A) : bool :=
  match r with Ok _ => true | Err _ => false end.

(** ** Data model (package core)

    The declarations of [core.PaymentMetadata], [core.ReservedPayment] and
    [core.OnDemandPayment] are outside this package; the records keep the
    fields the meterer reads. *)

Module PaymentMetadata.
Record t : Type := mk {
  AccountID : string;          (* hex account identifier *)
  Timestamp : Z;               (* int64, nanoseconds *)
  CumulativePayment : Z        (* big.Int *)
}.
End PaymentMetadata.

Module ReservedPayment.
Record t : Type := mk {
  SymbolsPerSecond : Z;        (* uint64 *)
  StartTimestamp : Z;          (* uint64, seconds *)
  EndTimestamp : Z;            (* uint64, seconds *)
  QuorumNumbers : list Z       (* []uint8 *)
}.
End ReservedPayment.

Module OnDemandPayment.
Record t : Type := mk {
  CumulativePayment : Z        (* big.Int, the on-chain deposit *)
}.
End OnDemandPayment.

(** ** The off-chain store interface *)

(** Modelled from the spec: the declaration of the Go interface
    [OffchainStore] is outside the sources at hand.  The methods, their
    arguments and results are the ones [meterer.go] calls; each takes the
    store and returns the store it leaves, with an error or a value
    (section 6, LedgerStore). *)
Class OffchainStore (S : Type) : Type := {
  UpdateReservationBin : string -> Z -> Z -> S -> result Z * S;
  UpdateGlobalBin : Z -> Z -> S -> result Z * S;
  AddOnDemandPayment : PaymentMetadata.t -> Z -> S -> result unit * S;
  RemoveOnDemandPayment : string -> Z -> S -> result unit * S;
  GetRelevantOnDemandRecords : string -> Z -> S -> result (Z * Z * Z) * S
}.

(** Modelled from the spec: [core.RoundUpDivide[T constraints.Integer](a, b T) T]
    is declared in package core, outside the sources at hand; it is used at
    [T = uint64].  It rounds the quotient up ("smallest multiple of
    minNumSymbols not less than n", section 4.5) in the arithmetic of its
    integer type, as [(a + b - 1) / b]; the sum wraps modulo [2^64].  Go
    panics on [b = 0]; the theorems that reach this division assume a
    positive divisor. *)
Definition RoundUpDivide (a b : Z) : Z := wrap64 (a + b - 1) / b.

Section Engine.

(** [gethcommon.Address] and [gethcommon.HexToAddress]. *)
Context {Address : Type} (HexToAddress : string -> Address).

(** The method [IsActiveByNanosecond] of [core.ReservedPayment], declared
    in package core. *)
Context (IsActiveByNanosecond : ReservedPayment.t -> Z -> bool).

(** The on-chain payment state, as one snapshot of the cache: the
    interface [OnchainPayment] read by the meterer.  The periodic refresh of
    [Start] runs in a goroutine of its own and is not part of a request. *)
Record OnchainPayment : Type := {
  GetPricePerSymbol : Z;                  (* uint64 *)
  GetMinNumSymbols : Z;                   (* uint64 *)
  GetReservationWindow : Z;               (* uint64, seconds *)
  GetGlobalRatePeriodInterval : Z;        (* uint64, seconds *)
  GetGlobalSymbolsPerSecond : Z;          (* uint64 *)
  GetOnDemandQuorumNumbers : result (list Z);
  GetReservedPaymentByAccount : Address -> result ReservedPayment.t;
  GetOnDemandPaymentByAccount : Address -> result OnDemandPayment.t
}.

(** [Meterer]: the configuration and the logger play no part in the
    accounting; the off-chain store is the state of the monad below. *)
Record Meterer : Type := {
  ChainPaymentState : OnchainPayment
}.

(** The calls the engine makes with a context, in the order it makes
    them. *)
Inductive Call : Type :=
| CallGetReservedPaymentByAccount (account : Address)
| CallGetOnDemandPaymentByAccount (account : Address)
| CallGetOnDemandQuorumNumbers
| CallUpdateReservationBin (account : string) (period size : Z)
| CallUpdateGlobalBin (period size : Z)
| CallAddOnDemandPayment (header : PaymentMetadata.t) (symbolsCharged : Z)
| CallRemoveOnDemandPayment (account : string) (payment : Z)
| CallGetRelevantOnDemandRecords (account : string) (payment : Z).

Context {S : Type} `{OffchainStore S}.

Record World : Type := {
  store : S;
  calls : list Call
}.

(** State and error monad of a request. *)
Definition M (A : Type) : Type := World -> result A * World.

Definition ret {A} (a : A) : M A := fun w => (Ok a, w).
Definition fail {A} (e : error) : M A := fun w => (Err e, w).
Definition bind {A B} (c : M A) (k : A -> M B) : M B :=
  fun w => match c w with
           | (Ok a, w') => k a w'
           | (Err e, w') => (Err e, w')
           end.

(** [if err != nil { return fmt.Errorf("format: %w", err) }]. *)
Definition wrapping {A} (format : string) (c : M A) : M A :=
  fun w => match c w with
           | (Ok a, w') => (Ok a, w')
           | (Err e, w') => (Err (Wrapf format e), w')
           end.

(** A call to the store, logged. *)
Definition store_call {A} (c : Call) (op : S -> result A * S) : M A :=
  fun w => let '(r, s') := op (store w) in
           (r, {| store := s'; calls := calls w ++ [c] |}).

(** A call to the chain state, logged. *)
Definition chain_call {A} (c : Call) (r : result A) : M A :=
  fun w => (r, {| store := store w; calls := calls w ++ [c] |}).

Notation "'let*' x ':=' c 'in' k" := (bind c (fun x => k))
  (at level 10, x pattern, c at level 100, k at level 200).

Implicit Types (m : Meterer) (header : PaymentMetadata.t)
  (reservation : ReservedPayment.t) (onDemandPayment : OnDemandPayment.t).

(** *** Pricing *)

(** [(m *Meterer) SymbolsCharged(numSymbols uint64) uint64]. *)
Definition SymbolsCharged m (numSymbols : Z) : Z :=
  let minSymbols := wrap64 (GetMinNumSymbols (ChainPaymentState m)) in
  if numSymbols <=? minSymbols then minSymbols
  else
    let roundedUp := wrap64 (RoundUpDivide numSymbols minSymbols * minSymbols) in
    if roundedUp <? numSymbols then MaxUint64 else roundedUp.

(** [(m *Meterer) PaymentCharged(numSymbols uint64) *big.Int]. *)
Definition PaymentCharged m (numSymbols : Z) : Z :=
  let symbolsCharged := SymbolsCharged m numSymbols in
  let pricePerSymbol := to_int64 (GetPricePerSymbol (ChainPaymentState m)) in
  symbolsCharged * pricePerSymbol.

(** [(m *Meterer) GetReservationBinLimit(reservation) uint64]. *)
Definition GetReservationBinLimit m reservation : Z :=
  wrap64 (ReservedPayment.SymbolsPerSecond reservation
          * wrap64 (GetReservationWindow (ChainPaymentState m))).

(** *** Quorums *)

(** [slices.Contains]. *)
Definition Contains (s : list Z) (v : Z) : bool := existsb (Z.eqb v) s.

(** The loop of [ValidateQuorum]: the first quorum that is not allowed
    fails the request. *)
Fixpoint check_quorums (headerQuorums allowedQuorums : list Z) : result unit :=
  match headerQuorums with
  | [] => Ok tt
  | q :: rest =>
      if negb (Contains allowedQuorums q)
      then Err (Errorf "quorum number mismatch: %d" [q])
      else check_quorums rest allowedQuorums
  end.

(** [(m *Meterer) ValidateQuorum(headerQuorums, allowedQuorums []uint8) error]. *)
Definition ValidateQuorum m (headerQuorums allowedQuorums : list Z) : result unit :=
  if (length headerQuorums =? 0)%nat
  then Err (Errorf "no quorum params in blob header" [])
  else check_quorums headerQuorums allowedQuorums.

(** *** Reservation path *)

(** [(m *Meterer) ValidateReservationPeriod(reservation, requestReservationPeriod, receivedAt) bool];
    [receivedAt] stands for [receivedAt.Unix()]. *)
Definition ValidateReservationPeriod m reservation
    (requestReservationPeriod receivedAt : Z) : bool :=
  let reservationWindow := GetReservationWindow (ChainPaymentState m) in
  let currentReservationPeriod := GetReservationPeriod receivedAt reservationWindow in
  let isCurrentOrPreviousPeriod :=
    (requestReservationPeriod =? currentReservationPeriod)
    || (requestReservationPeriod =? wrap64 (currentReservationPeriod - 1)) in
  let startPeriod :=
    GetReservationPeriod (to_int64 (ReservedPayment.StartTimestamp reservation)) reservationWindow in
  let endPeriod :=
    GetReservationPeriod (to_int64 (ReservedPayment.EndTimestamp reservation)) reservationWindow in
  let isWithinReservationWindow :=
    (startPeriod <=? requestReservationPeriod) && (requestReservationPeriod <? endPeriod) in
  if negb isCurrentOrPreviousPeriod || negb isWithinReservationWindow
  then false
  else true.

(** [(m *Meterer) IncrementBinUsage(ctx, header, reservation, symbolsCharged, requestReservationPeriod) error]. *)
Definition IncrementBinUsage m header reservation
    (symbolsCharged requestReservationPeriod : Z) : M unit :=
  let account := PaymentMetadata.AccountID header in
  let* newUsage :=
    wrapping "failed to increment bin usage: %w"
      (store_call (CallUpdateReservationBin account requestReservationPeriod symbolsCharged)
         (UpdateReservationBin account requestReservationPeriod symbolsCharged)) in
  let usageLimit := GetReservationBinLimit m reservation in
  if newUsage <=? usageLimit then ret tt
  else if wrap64 (newUsage - symbolsCharged) >=? usageLimit then
    fail (Errorf "bin has already been filled" [])
  else if (newUsage <=? wrap64 (2 * usageLimit))
          && (wrap64 (requestReservationPeriod + 2)
              <=? GetReservationPeriod (to_int64 (ReservedPayment.EndTimestamp reservation))
                    (GetReservationWindow (ChainPaymentState m)))
  then
    let period2 := wrap64 (wrap64 (requestReservationPeriod + 2)) in
    let excess := wrap64 (newUsage - usageLimit) in
    let* _ := store_call (CallUpdateReservationBin account period2 excess)
                (UpdateReservationBin account period2 excess) in
    ret tt
  else fail (Errorf "overflow usage exceeds bin limit" []).

(** [(m *Meterer) ServeReservationRequest(ctx, header, reservation, symbolsCharged, quorumNumbers, receivedAt) error]. *)
Definition ServeReservationRequest m header reservation
    (symbolsCharged : Z) (quorumNumbers : list Z) (receivedAt : Z) : M unit :=
  if negb (IsActiveByNanosecond reservation (PaymentMetadata.Timestamp header))
  then fail (Errorf "reservation not active" [])
  else
    match ValidateQuorum m quorumNumbers (ReservedPayment.QuorumNumbers reservation) with
    | Err err => fail (Wrapf "invalid quorum for reservation: %w" err)
    | Ok _ =>
        let reservationWindow := GetReservationWindow (ChainPaymentState m) in
        let requestReservationPeriod :=
          GetReservationPeriodByNanosecond (PaymentMetadata.Timestamp header) reservationWindow in
        if negb (ValidateReservationPeriod m reservation requestReservationPeriod receivedAt)
        then fail (Errorf "invalid reservation period for reservation" [])
        else
          let* _ := wrapping "bin overflows: %w"
                      (IncrementBinUsage m header reservation symbolsCharged
                         requestReservationPeriod) in
          ret tt
    end.

(** *** On-demand path *)

(** [(m *Meterer) ValidatePayment(ctx, header, onDemandPayment, symbolsCharged) error]. *)
Definition ValidatePayment m header onDemandPayment (symbolsCharged : Z) : M unit :=
  let account := PaymentMetadata.AccountID header in
  let cumulativePayment := PaymentMetadata.CumulativePayment header in
  if cumulativePayment >? OnDemandPayment.CumulativePayment onDemandPayment
  then fail (Errorf "request claims a cumulative payment greater than the on-chain deposit" [])
  else
    let* (prevPmt, nextPmt, nextPmtNumSymbols) :=
      wrapping "failed to get relevant on-demand records: %w"
        (store_call (CallGetRelevantOnDemandRecords account cumulativePayment)
           (GetRelevantOnDemandRecords account cumulativePayment)) in
    if prevPmt + PaymentCharged m symbolsCharged >? cumulativePayment
    then fail (Errorf "insufficient cumulative payment increment" [])
    else if negb (nextPmt =? 0)
            && (cumulativePayment + PaymentCharged m (wrap64 nextPmtNumSymbols) >? nextPmt)
    then fail (Errorf "breaking cumulative payment invariants" [])
    else ret tt.

(** [(m *Meterer) IncrementGlobalBinUsage(ctx, symbolsCharged, receivedAt) error]. *)
Definition IncrementGlobalBinUsage m (symbolsCharged receivedAt : Z) : M unit :=
  let chain := ChainPaymentState m in
  let globalPeriod := GetReservationPeriod receivedAt (GetGlobalRatePeriodInterval chain) in
  let* newUsage :=
    wrapping "failed to increment global bin usage: %w"
      (store_call (CallUpdateGlobalBin globalPeriod symbolsCharged)
         (UpdateGlobalBin globalPeriod symbolsCharged)) in
  if newUsage >? wrap64 (GetGlobalSymbolsPerSecond chain
                         * wrap64 (GetGlobalRatePeriodInterval chain))
  then fail (Errorf "global bin usage overflows" [])
  else ret tt.

(** [(m *Meterer) ServeOnDemandRequest(ctx, header, onDemandPayment, symbolsCharged, headerQuorums, receivedAt) error]. *)
Definition ServeOnDemandRequest m header onDemandPayment
    (symbolsCharged : Z) (headerQuorums : list Z) (receivedAt : Z) : M unit :=
  let* quorumNumbers :=
    wrapping "failed to get on-demand quorum numbers: %w"
      (chain_call CallGetOnDemandQuorumNumbers
         (GetOnDemandQuorumNumbers (ChainPaymentState m))) in
  match ValidateQuorum m headerQuorums quorumNumbers with
  | Err err => fail (Wrapf "invalid quorum for On-Demand Request: %w" err)
  | Ok _ =>
      let* _ := wrapping "invalid on-demand payment: %w"
                  (ValidatePayment m header onDemandPayment symbolsCharged) in
      let* _ := wrapping "failed to update cumulative payment: %w"
                  (store_call (CallAddOnDemandPayment header symbolsCharged)
                     (AddOnDemandPayment header symbolsCharged)) in
      fun w =>
        match IncrementGlobalBinUsage m (wrap64 symbolsCharged) receivedAt w with
        | (Err err, w1) =>
            let account := PaymentMetadata.AccountID header in
            let payment := PaymentMetadata.CumulativePayment header in
            match store_call (CallRemoveOnDemandPayment account payment)
                    (RemoveOnDemandPayment account payment) w1 with
            | (Err dbErr, w2) => (Err dbErr, w2)
            | (Ok _, w2) => (Err (Wrapf "failed global rate limiting: %w" err), w2)
            end
        | (Ok _, w1) => (Ok tt, w1)
        end
  end.

(** *** Coordinator *)

(** [(m *Meterer) MeterRequest(ctx, header, numSymbols, quorumNumbers, receivedAt) (uint64, error)];
    [header.CumulativePayment.Sign()] is [Z.sgn]. *)
Definition MeterRequest m header (numSymbols : Z) (quorumNumbers : list Z)
    (receivedAt : Z) : M Z :=
  let accountID := HexToAddress (PaymentMetadata.AccountID header) in
  let symbolsCharged := SymbolsCharged m numSymbols in
  if Z.sgn (PaymentMetadata.CumulativePayment header) =? 0 then
    let* reservation :=
      wrapping "failed to get active reservation by account: %w"
        (chain_call (CallGetReservedPaymentByAccount accountID)
           (GetReservedPaymentByAccount (ChainPaymentState m) accountID)) in
    let* _ := wrapping "invalid reservation: %w"
                (ServeReservationRequest m header reservation symbolsCharged
                   quorumNumbers receivedAt) in
    ret symbolsCharged
  else
    let* onDemandPayment :=
      wrapping "failed to get on-demand payment by account: %w"
        (chain_call (CallGetOnDemandPaymentByAccount accountID)
           (GetOnDemandPaymentByAccount (ChainPaymentState m) accountID)) in
    let* _ := wrapping "invalid on-demand request: %w"
                (ServeOnDemandRequest m header onDemandPayment symbolsCharged
                   quorumNumbers receivedAt) in
    ret symbolsCharged.

(** The calls that belong to each path. *)
Definition is_reservation_call (c : Call) : bool :=
  match c with
  | CallGetReservedPaymentByAccount _ | CallUpdateReservationBin _ _ _ => true
  | _ => false
  end.

Definition is_ondemand_call (c : Call) : bool :=
  match c with
  | CallGetReservedPaymentByAccount _ | CallUpdateReservationBin _ _ _ => false
  | _ => true
  end.

(** The calls that carry a number of symbols into the on-demand
    accounting carry [size]. *)
Definition accounts_for (size : Z) (c : Call) : bool :=
  match c with
  | CallUpdateGlobalBin _ x | CallAddOnDemandPayment _ x => x =? size
  | _ => true
  end.

(** [w'] continues the log of [w] with calls that satisfy [P]. *)
Definition extends_with (P : Call -> bool) (w w' : World) : Prop :=
  exists new, calls w' = (calls w ++ new)%list /\ forallb P new = true.

(** The request went down the reservation path: it looked the reservation
    up, then wrote reservation bins only, the first write carrying [size]. *)
Definition took_reservation_path (account : Address) (size : Z) (w w' : World) : Prop :=
  exists new,
    calls w' = (calls w ++ CallGetReservedPaymentByAccount account :: new)%list
    /\ forallb is_reservation_call new = true
    /\ match new with
       | [] => True
       | c :: _ => exists acct period, c = CallUpdateReservationBin acct period size
       end.

(** The request went down the on-demand path: it looked the deposit up,
    then made on-demand calls only, each accounting for [size]. *)
Definition took_ondemand_path (account : Address) (size : Z) (w w' : World) : Prop :=
  exists new,
    calls w' = (calls w ++ CallGetOnDemandPaymentByAccount account :: new)%list
    /\ forallb (fun c => is_ondemand_call c && accounts_for size c) new = true.

End Engine.

Arguments World Address S : clear implicits.
Arguments M Address S A : clear implicits.
Arguments Call Address : clear implicits.
Arguments OnchainPayment Address : clear implicits.
Arguments Meterer Address : clear implicits.

(** ** An in-memory off-chain store *)

(** Modelled from the spec: the implementations of [OffchainStore] are outside
    the sources at hand.  Section 6 gives the contract: the two bin updates
    are atomic add-and-fetch on an unsigned counter, the ledger insert fails
    on a duplicate [(accountId, cumulativePayment)], the delete is idempotent,
    and the neighbour query returns the strict predecessor and successor of a
    payment within the account, zero when absent.  A transport failure is
    scheduled by [faults]: each operation consumes the head of the schedule
    and, when it names an error, returns that error and leaves the data as
    they were. *)
Module MemStore.

(** Modelled from the spec: the bins, the ledger (section 3, bin counters)
    and the schedule of failures of the store. *)
Record t : Type := mk {
  reservationBins : gmap (string * Z) Z;
  globalBins : gmap Z Z;
  ledger : gmap (string * Z) Z;
  faults : list (option error)
}.

Definition take_fault (s : t) : option error * t :=
  match faults s with
  | [] => (None, s)
  | f :: rest =>
      (f, {| reservationBins := reservationBins s; globalBins := globalBins s;
             ledger := ledger s; faults := rest |})
  end.

(** Modelled from the spec: [updateReservationBin], atomic add-and-fetch. *)
Definition updateReservationBin (account : string) (period size : Z) (s : t)
    : result Z * t :=
  match take_fault s with
  | (Some e, s') => (Err e, s')
  | (None, s') =>
      let usage := wrap64 (default 0 (reservationBins s' !! (account, period)) + size) in
      (Ok usage,
       {| reservationBins := <[(account, period) := usage]> (reservationBins s');
          globalBins := globalBins s'; ledger := ledger s'; faults := faults s' |})
  end.

(** Modelled from the spec: [updateGlobalBin], atomic add-and-fetch. *)
Definition updateGlobalBin (period size : Z) (s : t) : result Z * t :=
  match take_fault s with
  | (Some e, s') => (Err e, s')
  | (None, s') =>
      let usage := wrap64 (default 0 (globalBins s' !! period) + size) in
      (Ok usage,
       {| reservationBins := reservationBins s';
          globalBins := <[period := usage]> (globalBins s');
          ledger := ledger s'; faults := faults s' |})
  end.

(** Modelled from the spec: [addOnDemandPayment], which fails on a
    duplicate [(accountId, cumulativePayment)]. *)
Definition addOnDemandPayment (header : PaymentMetadata.t) (symbolsCharged : Z) (s : t)
    : result unit * t :=
  match take_fault s with
  | (Some e, s') => (Err e, s')
  | (None, s') =>
      let key := (PaymentMetadata.AccountID header, PaymentMetadata.CumulativePayment header) in
      match ledger s' !! key with
      | Some _ => (Err (Errorf "on-demand payment already exists" []), s')
      | None =>
          (Ok tt,
           {| reservationBins := reservationBins s'; globalBins := globalBins s';
              ledger := <[key := symbolsCharged]> (ledger s'); faults := faults s' |})
      end
  end.

(** Modelled from the spec: [removeOnDemandPayment], an idempotent delete. *)
Definition removeOnDemandPayment (account : string) (payment : Z) (s : t)
    : result unit * t :=
  match take_fault s with
  | (Some e, s') => (Err e, s')
  | (None, s') =>
      (Ok tt,
       {| reservationBins := reservationBins s'; globalBins := globalBins s';
          ledger := delete (account, payment) (ledger s'); faults := faults s' |})
  end.

(** The largest payment of the account strictly below [payment]. *)
Definition prev_record (account : string) (payment : Z) (l : gmap (string * Z) Z)
    : option Z :=
  map_fold (fun k _ best =>
              if bool_decide (k.1 = account) && (k.2 <? payment) then
                match best with
                | Some b => Some (Z.max b k.2)
                | None => Some k.2
                end
              else best) None l.

(** The smallest payment of the account strictly above [payment], with its
    number of symbols. *)
Definition next_record (account : string) (payment : Z) (l : gmap (string * Z) Z)
    : option (Z * Z) :=
  map_fold (fun k v best =>
              if bool_decide (k.1 = account) && (payment <? k.2) then
                match best with
                | Some (b, bv) => if k.2 <? b then Some (k.2, v) else Some (b, bv)
                | None => Some (k.2, v)
                end
              else best) None l.

(** The neighbours of [payment] in the ledger of the account, zero when
    absent. *)
Definition neighbours (account : string) (payment : Z) (l : gmap (string * Z) Z)
    : Z * Z * Z :=
  let prevPmt := default 0 (prev_record account payment l) in
  let next := default (0, 0) (next_record account payment l) in
  (prevPmt, next.1, next.2).

(** Modelled from the spec: [getRelevantOnDemandRecords]. *)
Definition getRelevantOnDemandRecords (account : string) (payment : Z) (s : t)
    : result (Z * Z * Z) * t :=
  match take_fault s with
  | (Some e, s') => (Err e, s')
  | (None, s') => (Ok (neighbours account payment (ledger s')), s')
  end.

#[global] Instance offchain_store : OffchainStore t := {
  UpdateReservationBin := updateReservationBin;
  UpdateGlobalBin := updateGlobalBin;
  AddOnDemandPayment := addOnDemandPayment;
  RemoveOnDemandPayment := removeOnDemandPayment;
  GetRelevantOnDemandRecords := getRelevantOnDemandRecords
}.

(** A store with the given data and no scheduled failure. *)
Definition healthy (bins : gmap (string * Z) Z) (gbins : gmap Z Z)
    (l : gmap (string * Z) Z) : t :=
  {| reservationBins := bins; globalBins := gbins; ledger := l; faults := [] |}.

End MemStore.

(** ** The parameters of the end-to-end scenarios (section 8) *)
Module Scenario.

Definition reservation : ReservedPayment.t :=
  {| ReservedPayment.SymbolsPerSecond := 5;
     ReservedPayment.StartTimestamp := 0;
     ReservedPayment.EndTimestamp := 600;
     ReservedPayment.QuorumNumbers := [0; 1] |}.

Definition deposit : OnDemandPayment.t :=
  {| OnDemandPayment.CumulativePayment := 10000 |}.

Definition chain : OnchainPayment string :=
  {| GetPricePerSymbol := 10;
     GetMinNumSymbols := 3;
     GetReservationWindow := 60;
     GetGlobalRatePeriodInterval := 1;
     GetGlobalSymbolsPerSecond := 100;
     GetOnDemandQuorumNumbers := Ok [0; 1];
     GetReservedPaymentByAccount := fun _ => Ok reservation;
     GetOnDemandPaymentByAccount := fun _ => Ok deposit |}.

Definition meterer : Meterer string := {| ChainPaymentState := chain |}.

(** An account identifier is used as its own address. *)
Definition address (account : string) : string := account.

(** A reservation is active from its start to its end, in seconds. *)
Definition active (r : ReservedPayment.t) (ns : Z) : bool :=
  (ReservedPayment.StartTimestamp r <=? ns / Second)
  && (ns / Second <? ReservedPayment.EndTimestamp r).

Definition request (payment : Z) : PaymentMetadata.t :=
  {| PaymentMetadata.AccountID := "acct";
     PaymentMetadata.Timestamp := 30 * Second;
     PaymentMetadata.CumulativePayment := payment |}.

Definition world (s : MemStore.t) : World string MemStore.t :=
  {| store := s; calls := [] |}.

(** Scenario 6: the ledger holds one payment of 500 for 6 symbols. *)
Definition ledger500 : MemStore.t :=
  MemStore.healthy ∅ ∅ {[ ("acct", 500) := 6 ]}.

(** Scenarios 2 and 3: bin 0 of the account is loaded with 295 symbols. *)
Definition bin295 : MemStore.t :=
  MemStore.healthy {[ ("acct", 0) := 295 ]} ∅ ∅.

(** The same bins, with a store whose second operation fails. *)
Definition bin295_carry_fails : MemStore.t :=
  {| MemStore.reservationBins := {[ ("acct", 0) := 295 ]};
     MemStore.globalBins := ∅;
     MemStore.ledger := ∅;
     MemStore.faults := [None; Some (Errorf "store unavailable" [])] |}.

Definition empty : MemStore.t := MemStore.healthy ∅ ∅ ∅.

(** A reservation of [2^62] symbols per second over windows of two
    seconds: the bin limit is [2^63] and its double does not fit 64 bits. *)
Definition wide_reservation : ReservedPayment.t :=
  {| ReservedPayment.SymbolsPerSecond := 2 ^ 62;
     ReservedPayment.StartTimestamp := 0;
     ReservedPayment.EndTimestamp := 600;
     ReservedPayment.QuorumNumbers := [0; 1] |}.

Definition wide_chain : OnchainPayment string :=
  {| GetPricePerSymbol := 10;
     GetMinNumSymbols := 1;
     GetReservationWindow := 2;
     GetGlobalRatePeriodInterval := 1;
     GetGlobalSymbolsPerSecond := 100;
     GetOnDemandQuorumNumbers := Ok [0; 1];
     GetReservedPaymentByAccount := fun _ => Ok wide_reservation;
     GetOnDemandPaymentByAccount := fun _ => Ok deposit |}.

Definition wide_meterer : Meterer string := {| ChainPaymentState := wide_chain |}.

(** Bin 0 of the account holds one symbol less than the limit [2^63]. *)
Definition wide_bin : MemStore.t :=
  MemStore.healthy {[ ("acct", 0) := 2 ^ 63 - 1 ]} ∅ ∅.

(** A price per symbol of [2^63]: a positive [uint64] whose conversion to
    [int64] in [PaymentCharged] is negative. *)
Definition signed_chain : OnchainPayment string :=
  {| GetPricePerSymbol := 2 ^ 63;
     GetMinNumSymbols := 3;
     GetReservationWindow := 60;
     GetGlobalRatePeriodInterval := 1;
     GetGlobalSymbolsPerSecond := 100;
     GetOnDemandQuorumNumbers := Ok [0; 1];
     GetReservedPaymentByAccount := fun _ => Ok reservation;
     GetOnDemandPaymentByAccount := fun _ => Ok deposit |}.

Definition signed_meterer : Meterer string := {| ChainPaymentState := signed_chain |}.

End Scenario.

(** ** The invariant of the on-demand ledger *)

(** The order [ValidatePayment] protects (see the comment above it in the
    source): within an account every payment is positive and covers the price
    of its own symbols, and every later payment covers an earlier one plus the
    price of its own symbols. *)
Definition ledger_invariant {Address : Type} (m : Meterer Address) (account : string)
    (l : gmap (string * Z) Z) : Prop :=
  (forall p s, l !! (account, p) = Some s ->
     0 < p /\ PaymentCharged m (wrap64 s) <= p)
  /\ (forall p1 s1 p2 s2,
        l !! (account, p1) = Some s1 -> l !! (account, p2) = Some s2 -> p1 < p2 ->
        p1 + PaymentCharged m (wrap64 s2) <= p2).

(** * Proofs *)

(** ** Machine integers *)

Lemma modulus_eq : modulus = 18446744073709551616.
Proof. reflexivity. Qed.

Lemma wrap64_range (z : Z) : 0 <= wrap64 z < modulus.
Proof. unfold wrap64. apply Z.mod_pos_bound. rewrite modulus_eq. lia. Qed.

Lemma wrap64_small (z : Z) : 0 <= z < modulus -> wrap64 z = z.
Proof. intros Hz. unfold wrap64. apply Z.mod_small. exact Hz. Qed.

Lemma wrap64_idem (z : Z) : wrap64 (wrap64 z) = wrap64 z.
Proof. apply wrap64_small, wrap64_range. Qed.

Lemma wrap64_le (z : Z) : 0 <= z -> wrap64 z <= z.
Proof. intros Hz. unfold wrap64. apply Z.mod_le; [exact Hz | rewrite modulus_eq; lia]. Qed.

(** One subtraction of the modulus brings a sum of two [uint64] back in
    range. *)
Lemma wrap64_once (z : Z) : modulus <= z < 2 * modulus -> wrap64 z = z - modulus.
Proof.
  intros Hz. unfold wrap64.
  replace z with ((z - modulus) + 1 * modulus) at 1 by ring.
  rewrite Z.mod_add by (rewrite modulus_eq; lia).
  apply Z.mod_small. lia.
Qed.

Lemma wrap64_neg_once (z : Z) : - modulus <= z < 0 -> wrap64 z = z + modulus.
Proof.
  intros Hz. unfold wrap64.
  replace z with ((z + modulus) + (-1) * modulus) at 1 by ring.
  rewrite Z.mod_add by (rewrite modulus_eq; lia).
  apply Z.mod_small. lia.
Qed.

(** ** PeriodArithmetic *)

Lemma GetReservationPeriod_zero_window (t : Z) : GetReservationPeriod t 0 = 0.
Proof. reflexivity. Qed.

Lemma GetReservationPeriod_nonneg (t w : Z) :
  0 <= t < modulus -> 0 < w -> GetReservationPeriod t w = t / w.
Proof.
  intros Ht Hw. unfold GetReservationPeriod.
  destruct (Z.eqb_spec w 0) as [-> | _]; [lia |].
  now rewrite wrap64_small.
Qed.

Lemma GetReservationPeriod_range (t w : Z) :
  0 <= w -> 0 <= GetReservationPeriod t w < modulus.
Proof.
  intros Hw. unfold GetReservationPeriod.
  destruct (Z.eqb_spec w 0) as [-> | Hne]; [rewrite modulus_eq; lia |].
  pose proof (wrap64_range t) as Hr.
  split.
  - apply Z.div_pos; lia.
  - apply Z.div_lt_upper_bound; nia.
Qed.

(** ** Pricing *)

Section Pricing.
Context {Address : Type}.
Implicit Types m : Meterer Address.

Lemma SymbolsCharged_range m (n : Z) : 0 <= SymbolsCharged m n < modulus.
Proof.
  unfold SymbolsCharged.
  destruct (_ <=? _); [apply wrap64_range |].
  destruct (_ <? _); [unfold MaxUint64; rewrite modulus_eq; lia | apply wrap64_range].
Qed.

Lemma SymbolsCharged_floor m (n : Z) :
  let q := GetMinNumSymbols (ChainPaymentState m) in
  0 < q < modulus -> q <= SymbolsCharged m n.
Proof.
  intros q Hq. unfold SymbolsCharged. fold q. rewrite (wrap64_small q) by lia.
  destruct (Z.leb_spec n q) as [Hle | Hgt]; [lia |].
  destruct (Z.ltb_spec (wrap64 (RoundUpDivide n q * q)) n) as [_ | Hge].
  - unfold MaxUint64. lia.
  - lia.
Qed.

(** Without overflow of [n + q - 1] the code computes the ceiling of
    [n / q] times [q]. *)
Lemma SymbolsCharged_exact m (n : Z) :
  let q := GetMinNumSymbols (ChainPaymentState m) in
  0 < q < modulus -> q < n -> n + q - 1 < modulus ->
  SymbolsCharged m n = (n + q - 1) / q * q.
Proof.
  intros q Hq Hn Hsum. unfold SymbolsCharged, RoundUpDivide. fold q.
  rewrite (wrap64_small q) by lia.
  destruct (Z.leb_spec n q) as [Hle | _]; [lia |].
  rewrite (wrap64_small (n + q - 1)) by lia.
  pose proof (Z.div_mod (n + q - 1) q ltac:(lia)) as Hdm.
  pose proof (Z.mod_pos_bound (n + q - 1) q ltac:(lia)) as Hmb.
  set (d := (n + q - 1) / q) in *.
  rewrite (wrap64_small (d * q)) by nia.
  destruct (Z.ltb_spec (d * q) n) as [Hlt | _]; [nia | reflexivity].
Qed.

Lemma SymbolsCharged_saturates m (n : Z) :
  let q := GetMinNumSymbols (ChainPaymentState m) in
  0 < q < modulus -> 0 <= n < modulus -> q < n -> modulus <= n + q - 1 ->
  SymbolsCharged m n = MaxUint64.
Proof.
  intros q Hq Hn Hqn Hsum. unfold SymbolsCharged, RoundUpDivide. fold q.
  rewrite (wrap64_small q) by lia.
  destruct (Z.leb_spec n q) as [Hle | _]; [lia |].
  rewrite (wrap64_once (n + q - 1)) by lia.
  rewrite (Z.div_small (n + q - 1 - modulus) q) by lia.
  rewrite Z.mul_0_l, (wrap64_small 0) by (rewrite modulus_eq; lia).
  destruct (Z.ltb_spec 0 n) as [_ | Hge]; [reflexivity | lia].
Qed.

End Pricing.

(** C5: with a positive quantum [q], [SymbolsCharged n] is [q] for [n <= q]
    (so for [n = 0]); for larger [n] it is the smallest multiple of [q] not
    less than [n], unless the 64-bit arithmetic overflows ([n + q - 1] does
    not fit), in which case the result is [2^64 - 1].  Hence
    [SymbolsCharged (k * q) = k * q] for positive [k] and
    [SymbolsCharged (k * q + r) = (k + 1) * q] for [0 < r < q], absent
    overflow. *)
Theorem SymbolsCharged_round_up {Address : Type} (m : Meterer Address) (n : Z) :
  let q := GetMinNumSymbols (ChainPaymentState m) in
  0 < q < modulus -> 0 <= n < modulus ->
  (n <= q -> SymbolsCharged m n = q)
  /\ SymbolsCharged m 0 = q
  /\ (q < n -> n + q - 1 < modulus ->
      (q | SymbolsCharged m n)
      /\ n <= SymbolsCharged m n
      /\ forall c, (q | c) -> n <= c -> SymbolsCharged m n <= c)
  /\ (q < n -> modulus <= n + q - 1 -> SymbolsCharged m n = MaxUint64)
  /\ (forall k, 0 < k -> k * q + q - 1 < modulus -> SymbolsCharged m (k * q) = k * q)
  /\ (forall k r, 0 <= k -> 0 < r < q -> k * q + r + q - 1 < modulus ->
      SymbolsCharged m (k * q + r) = (k + 1) * q).
Proof.
  intros q Hq Hn.
  assert (Hsmall : forall x, x <= q -> SymbolsCharged m x = q).
  { intros x Hx. unfold SymbolsCharged. fold q. rewrite (wrap64_small q) by lia.
    destruct (Z.leb_spec x q); [reflexivity | lia]. }
  repeat split.
  - apply Hsmall.
  - apply Hsmall. lia.
  - rewrite (SymbolsCharged_exact m n) by (fold q; lia). fold q.
    exists ((n + q - 1) / q). reflexivity.
  - rewrite (SymbolsCharged_exact m n) by (fold q; lia). fold q.
    pose proof (Z.div_mod (n + q - 1) q ltac:(lia)).
    pose proof (Z.mod_pos_bound (n + q - 1) q ltac:(lia)). nia.
  - intros c [j ->] Hc.
    rewrite (SymbolsCharged_exact m n) by (fold q; lia). fold q.
    pose proof (Z.div_mod (n + q - 1) q ltac:(lia)).
    pose proof (Z.mod_pos_bound (n + q - 1) q ltac:(lia)).
    assert ((n + q - 1) / q <= j) by nia. nia.
  - intros Hqn Hov. apply SymbolsCharged_saturates; fold q; assumption.
  - intros k Hk Hfit.
    destruct (Z.eq_dec k 1) as [-> | Hk1].
    + rewrite Z.mul_1_l. apply Hsmall. lia.
    + rewrite (SymbolsCharged_exact m (k * q)) by (fold q; nia). fold q.
      replace (k * q + q - 1) with ((q - 1) + k * q) by ring.
      rewrite Z.div_add by lia. rewrite (Z.div_small (q - 1) q) by lia. ring.
  - intros k r Hk Hr Hfit.
    destruct (Z.eq_dec k 0) as [-> | Hk0].
    + rewrite Z.mul_0_l, Z.add_0_l, Z.mul_1_l. apply Hsmall. lia.
    + rewrite (SymbolsCharged_exact m (k * q + r)) by (fold q; nia). fold q.
      replace (k * q + r + q - 1) with ((r - 1) + (k + 1) * q) by ring.
      rewrite Z.div_add by lia. rewrite (Z.div_small (r - 1) q) by lia. ring.
Qed.

(** Scenario 1 of section 8: seven symbols are charged as nine. *)
Lemma SymbolsCharged_round_up_witness :
  0 < 3 < modulus /\ 0 <= 7 < modulus /\ SymbolsCharged Scenario.meterer (2 * 3 + 1) = (2 + 1) * 3.
Proof.
  assert (Hq : 0 < GetMinNumSymbols (ChainPaymentState Scenario.meterer) < modulus)
    by (vm_compute; split; reflexivity).
  assert (Hn : 0 <= 7 < modulus) by (vm_compute; split; [discriminate | reflexivity]).
  split; [exact Hq | split; [exact Hn |]].
  destruct (SymbolsCharged_round_up Scenario.meterer 7 Hq Hn) as (_ & _ & _ & _ & _ & Hr).
  apply (Hr 2 1); vm_compute; try split; try reflexivity; discriminate.
Defined.

(** The round trip [uint64(int64(x))] is the identity on [uint64]. *)
Lemma wrap64_to_int64 (z : Z) : wrap64 (to_int64 z) = wrap64 z.
Proof.
  unfold to_int64. destruct (_ <? _).
  - apply wrap64_idem.
  - unfold wrap64 at 1.
    replace (wrap64 z - modulus) with (wrap64 z + (-1) * modulus) by ring.
    rewrite Z.mod_add by (rewrite modulus_eq; lia).
    apply wrap64_idem.
Qed.

Lemma GetReservationPeriod_of_uint64 (x w : Z) :
  0 <= x < modulus -> 0 < w -> GetReservationPeriod (to_int64 x) w = x / w.
Proof.
  intros Hx Hw. unfold GetReservationPeriod.
  destruct (Z.eqb_spec w 0) as [-> | _]; [lia |].
  now rewrite wrap64_to_int64, wrap64_small.
Qed.

(** C6: [ValidateReservationPeriod] holds exactly when the request period is
    the current period or the one before it and lies in
    [startPeriod <= requestPeriod < endPeriod]; the period before the current
    one passes (inside the reservation), two periods back is refused.  The
    periods are the quotients of [receivedAt], of the start and of the end of
    the reservation by the window. *)
Theorem ValidateReservationPeriod_iff {Address : Type} (m : Meterer Address)
    (reservation : ReservedPayment.t) (requestReservationPeriod receivedAt : Z) :
  let W := GetReservationWindow (ChainPaymentState m) in
  let currentPeriod := GetReservationPeriod receivedAt W in
  let startPeriod :=
    GetReservationPeriod (to_int64 (ReservedPayment.StartTimestamp reservation)) W in
  let endPeriod :=
    GetReservationPeriod (to_int64 (ReservedPayment.EndTimestamp reservation)) W in
  0 <= W ->
  (ValidateReservationPeriod m reservation requestReservationPeriod receivedAt = true
   <-> (requestReservationPeriod = currentPeriod
        \/ requestReservationPeriod = currentPeriod - 1)
       /\ startPeriod <= requestReservationPeriod < endPeriod)
  /\ (startPeriod <= currentPeriod - 1 < endPeriod ->
      ValidateReservationPeriod m reservation (currentPeriod - 1) receivedAt = true)
  /\ ValidateReservationPeriod m reservation (currentPeriod - 2) receivedAt = false
  /\ (0 < W -> 0 <= receivedAt < modulus -> currentPeriod = receivedAt / W)
  /\ (0 < W -> 0 <= ReservedPayment.StartTimestamp reservation < modulus ->
      startPeriod = ReservedPayment.StartTimestamp reservation / W)
  /\ (0 < W -> 0 <= ReservedPayment.EndTimestamp reservation < modulus ->
      endPeriod = ReservedPayment.EndTimestamp reservation / W).
Proof.
  intros W cur startP endP HW.
  assert (Hiff : forall req,
    ValidateReservationPeriod m reservation req receivedAt = true
    <-> (req = cur \/ req = cur - 1) /\ startP <= req < endP).
  { intros req. unfold ValidateReservationPeriod.
    fold W. fold cur. fold startP. fold endP.
    pose proof (GetReservationPeriod_range receivedAt W HW) as Hcur. fold cur in Hcur.
    pose proof (GetReservationPeriod_range
                  (to_int64 (ReservedPayment.StartTimestamp reservation)) W HW) as Hs.
    fold startP in Hs.
    pose proof (GetReservationPeriod_range
                  (to_int64 (ReservedPayment.EndTimestamp reservation)) W HW) as He.
    fold endP in He.
    destruct (Z.eq_dec cur 0) as [Hz | Hnz].
    - rewrite Hz in *. change (0 - 1) with (-1).
      rewrite (wrap64_neg_once (-1)) by (rewrite modulus_eq; lia).
      destruct (Z.eqb_spec req 0), (Z.eqb_spec req (-1 + modulus)),
        (Z.leb_spec startP req), (Z.ltb_spec req endP); simpl; split;
        intros; try discriminate; try reflexivity; lia.
    - rewrite (wrap64_small (cur - 1)) by lia.
      destruct (Z.eqb_spec req cur), (Z.eqb_spec req (cur - 1)),
        (Z.leb_spec startP req), (Z.ltb_spec req endP); simpl; split;
        intros; try discriminate; try reflexivity; lia. }
  split; [apply Hiff |].
  split; [intros Hin; apply Hiff; lia |].
  split.
  - destruct (ValidateReservationPeriod m reservation (cur - 2) receivedAt) eqn:E;
      [| reflexivity].
    apply Hiff in E. lia.
  - split; [| split].
    + intros HWpos Hrecv. apply GetReservationPeriod_nonneg; assumption.
    + intros HWpos Hstart. apply GetReservationPeriod_of_uint64; assumption.
    + intros HWpos Hend. apply GetReservationPeriod_of_uint64; assumption.
Qed.

(** Received at 90 s with a window of 60 s, a request for period 0 (the one
    before the current period 1) passes. *)
Lemma ValidateReservationPeriod_iff_witness :
  0 <= 60
  /\ ValidateReservationPeriod Scenario.meterer Scenario.reservation
       (GetReservationPeriod 90 60 - 1) 90 = true.
Proof.
  assert (HW : 0 <= GetReservationWindow (ChainPaymentState Scenario.meterer))
    by (vm_compute; discriminate).
  split; [exact HW |].
  destruct (ValidateReservationPeriod_iff Scenario.meterer Scenario.reservation 0 90 HW)
    as (_ & Hprev & _).
  apply Hprev. vm_compute. split; [discriminate | reflexivity].
Defined.

(** For a negative [int64] the conversion [uint64(timestamp)] adds [2^64]:
    no branch of [GetReservationPeriod] returns 0 for it. *)
Lemma GetReservationPeriod_negative (t w : Z) :
  - 2 ^ 63 <= t < 0 -> 0 < w -> GetReservationPeriod t w = (t + modulus) / w.
Proof.
  intros Ht Hw. unfold GetReservationPeriod.
  destruct (Z.eqb_spec w 0) as [-> | _]; [lia |].
  rewrite wrap64_neg_once by (rewrite modulus_eq; lia). reflexivity.
Qed.

(** C7: at [timestamp = -1] and a window of one second the code returns
    [2^64 - 1], where the specification has 0 (and [-1 / 1] is not the
    result either); the guard for negative time is in
    [GetReservationPeriodByNanosecond] only. *)
Theorem GetReservationPeriod_negative_second :
  GetReservationPeriod (-1) 1 = MaxUint64
  /\ GetReservationPeriod (-1) 1 <> 0
  /\ GetReservationPeriodByNanosecond (-1) 1 = 0.
Proof. vm_compute. repeat split; discriminate. Qed.

(** The guard of [GetReservationPeriodByNanosecond]. *)
Lemma GetReservationPeriodByNanosecond_negative (ns w : Z) :
  ns < 0 -> GetReservationPeriodByNanosecond ns w = 0.
Proof.
  intros Hns. unfold GetReservationPeriodByNanosecond.
  destruct (Z.ltb_spec ns 0); [reflexivity | lia].
Qed.

(** C8: one nanosecond before second 1699999980 (a multiple of 60) the
    [float64] sum of [Seconds] rounds up to 1699999980.0, so the code answers
    period 28333333 where integer truncation of the nanoseconds gives second
    1699999979 and period 28333332. *)
Theorem GetReservationPeriodByNanosecond_rounds_up :
  Float64.trunc (Seconds 1699999979999999999) = 1699999980
  /\ GetReservationPeriodByNanosecond 1699999979999999999 60 = 28333333
  /\ GetReservationPeriod (1699999979999999999 / Second) 60 = 28333332.
Proof. vm_compute. repeat split; reflexivity. Qed.

(** ** The engine over an arbitrary store *)

Section EngineProofs.

Context {Address : Type} (HexToAddress : string -> Address).
Context (IsActiveByNanosecond : ReservedPayment.t -> Z -> bool).
Context {S : Type} `{OffchainStore S}.

Implicit Types (m : Meterer Address) (header : PaymentMetadata.t)
  (reservation : ReservedPayment.t) (onDemandPayment : OnDemandPayment.t)
  (w : World Address S).

(** *** ValidatePayment *)

(** C1: with the neighbours [(prevPmt, nextPmt, nextPmtNumSymbols)] the
    store returns, [ValidatePayment] accepts exactly when the payment is
    within the deposit, covers the predecessor plus the charge, and leaves
    room for the successor if there is one; the three checks are made in that
    order, the deposit check before the store is queried, and the first one
    that fails is the rejection.  The symbol quantum is positive, so that
    the rounding division of the charge is defined. *)
Theorem ValidatePayment_accepts_iff m header onDemandPayment (symbolsCharged : Z) w
    (prevPmt nextPmt nextPmtNumSymbols : Z) (st' : S) :
  let account := PaymentMetadata.AccountID header in
  let payment := PaymentMetadata.CumulativePayment header in
  let deposit := OnDemandPayment.CumulativePayment onDemandPayment in
  let queried :=
    {| store := st';
       calls := calls w ++ [CallGetRelevantOnDemandRecords account payment] |} in
  let out := ValidatePayment m header onDemandPayment symbolsCharged w in
  GetRelevantOnDemandRecords account payment (store w)
    = (Ok (prevPmt, nextPmt, nextPmtNumSymbols), st') ->
  0 <= nextPmtNumSymbols < modulus ->
  0 < GetMinNumSymbols (ChainPaymentState m) < modulus ->
  (fst out = Ok tt
   <-> payment <= deposit
       /\ prevPmt + PaymentCharged m symbolsCharged <= payment
       /\ (nextPmt = 0 \/ payment + PaymentCharged m nextPmtNumSymbols <= nextPmt))
  /\ (deposit < payment ->
      out = (Err (Errorf "request claims a cumulative payment greater than the on-chain deposit" []), w))
  /\ (payment <= deposit -> payment < prevPmt + PaymentCharged m symbolsCharged ->
      out = (Err (Errorf "insufficient cumulative payment increment" []), queried))
  /\ (payment <= deposit -> prevPmt + PaymentCharged m symbolsCharged <= payment ->
      nextPmt <> 0 -> nextPmt < payment + PaymentCharged m nextPmtNumSymbols ->
      out = (Err (Errorf "breaking cumulative payment invariants" []), queried))
  /\ (payment <= deposit -> prevPmt + PaymentCharged m symbolsCharged <= payment ->
      nextPmt = 0 \/ payment + PaymentCharged m nextPmtNumSymbols <= nextPmt ->
      out = (Ok tt, queried)).
Proof.
  intros account payment deposit queried out Hq Hnum _.
  subst out. unfold ValidatePayment, bind, wrapping, store_call, ret, fail.
  fold account. fold payment. fold deposit.
  rewrite !Z.gtb_ltb.
  destruct (Z.ltb_spec deposit payment) as [Hd | Hd]; cbv beta.
  { cbn [fst]. repeat split; intros; try discriminate; try lia; reflexivity. }
  rewrite Hq. cbv beta iota. rewrite (wrap64_small nextPmtNumSymbols Hnum).
  rewrite !Z.gtb_ltb. fold queried.
  destruct (Z.ltb_spec payment (prevPmt + PaymentCharged m symbolsCharged)) as [Hp | Hp];
    cbn [fst].
  { repeat split; intros; try discriminate; try lia; reflexivity. }
  destruct (Z.eqb_spec nextPmt 0) as [Hn | Hn]; cbn [negb andb fst].
  { repeat split; intros; try discriminate; try lia; try reflexivity; auto. }
  destruct (Z.ltb_spec nextPmt (payment + PaymentCharged m nextPmtNumSymbols)) as [Hs | Hs];
    cbn [fst].
  - repeat split; intros; try discriminate; try lia; try reflexivity.
  - repeat split; intros; try discriminate; try lia; try reflexivity; auto.
Qed.

(** *** IncrementBinUsage *)

(** Once the store has answered the first update with [newUsage], the rest
    of [IncrementBinUsage] is the decision below. *)
Lemma IncrementBinUsage_after_update m header reservation (symbolsCharged period : Z) w
    (newUsage : Z) (st1 : S) :
  let account := PaymentMetadata.AccountID header in
  let usageLimit := GetReservationBinLimit m reservation in
  let endPeriod :=
    GetReservationPeriod (to_int64 (ReservedPayment.EndTimestamp reservation))
      (GetReservationWindow (ChainPaymentState m)) in
  let c1 := CallUpdateReservationBin account period symbolsCharged in
  let c2 := CallUpdateReservationBin account (wrap64 (period + 2))
              (wrap64 (newUsage - usageLimit)) in
  let w1 := {| store := st1; calls := calls w ++ [c1] |} in
  UpdateReservationBin account period symbolsCharged (store w) = (Ok newUsage, st1) ->
  IncrementBinUsage m header reservation symbolsCharged period w
  = if newUsage <=? usageLimit then (Ok tt, w1)
    else if wrap64 (newUsage - symbolsCharged) >=? usageLimit
    then (Err (Errorf "bin has already been filled" []), w1)
    else if (newUsage <=? wrap64 (2 * usageLimit)) && (wrap64 (period + 2) <=? endPeriod)
    then
      let carry := UpdateReservationBin account (wrap64 (period + 2))
                     (wrap64 (newUsage - usageLimit)) st1 in
      (match fst carry with Ok _ => Ok tt | Err e => Err e end,
       {| store := snd carry; calls := calls w ++ [c1; c2] |})
    else (Err (Errorf "overflow usage exceeds bin limit" []), w1).
Proof.
  intros account usageLimit endPeriod c1 c2 w1 Hup.
  unfold IncrementBinUsage, bind, wrapping, store_call, ret, fail.
  fold account. rewrite Hup. fold usageLimit. fold endPeriod. fold c1. fold w1.
  rewrite wrap64_idem. fold c2.
  destruct (newUsage <=? usageLimit); [reflexivity |].
  destruct (wrap64 (newUsage - symbolsCharged) >=? usageLimit); [reflexivity |].
  destruct ((newUsage <=? wrap64 (2 * usageLimit)) && (wrap64 (period + 2) <=? endPeriod));
    [| reflexivity].
  simpl. destruct (UpdateReservationBin _ _ _ st1) as [[u | e] st2]; simpl;
    rewrite <- app_assoc; reflexivity.
Qed.

(** Closes a goal from an equation between two logs that extend the same
    log differently. *)
Ltac log_clash :=
  match goal with
  | Heq : (_, _) = (_, _) |- _ => inversion Heq; clear Heq; log_clash
  | Heq : (?l ++ _)%list = (?l ++ _)%list |- _ =>
      apply app_inv_head in Heq; discriminate Heq
  | Heq : calls _ = (_ ++ _)%list |- _ => cbn [calls snd] in Heq; log_clash
  end.

(** X19: the decision of [IncrementBinUsage] as the code computes it.  After
    the first update returned [newUsage], with the limit, its double,
    [newUsage - symbolsCharged] and [period + 2] all computed in [uint64]
    arithmetic, the request is accepted with no further write iff
    [newUsage <= limit]; refused as already filled iff the limit is exceeded
    and was reached before the request; a second write of the excess to
    period + 2 is made iff the excess fits the wrapped double of the limit and
    period + 2 does not pass the end period, and then the request is accepted
    when that write succeeds; and it is refused as overflow otherwise. *)
Theorem IncrementBinUsage_decision m header reservation (symbolsCharged period : Z) w
    (newUsage : Z) (st1 : S) :
  let account := PaymentMetadata.AccountID header in
  let usageLimit := GetReservationBinLimit m reservation in
  let endPeriod :=
    GetReservationPeriod (to_int64 (ReservedPayment.EndTimestamp reservation))
      (GetReservationWindow (ChainPaymentState m)) in
  let c1 := CallUpdateReservationBin account period symbolsCharged in
  let c2 := CallUpdateReservationBin account (wrap64 (period + 2))
              (wrap64 (newUsage - usageLimit)) in
  let w1 := {| store := st1; calls := calls w ++ [c1] |} in
  let carry := UpdateReservationBin account (wrap64 (period + 2))
                 (wrap64 (newUsage - usageLimit)) st1 in
  let out := IncrementBinUsage m header reservation symbolsCharged period w in
  UpdateReservationBin account period symbolsCharged (store w) = (Ok newUsage, st1) ->
  (out = (Ok tt, w1) <-> newUsage <= usageLimit)
  /\ (out = (Err (Errorf "bin has already been filled" []), w1)
      <-> usageLimit < newUsage /\ usageLimit <= wrap64 (newUsage - symbolsCharged))
  /\ (calls (snd out) = (calls w ++ [c1; c2])%list
      <-> usageLimit < newUsage <= wrap64 (2 * usageLimit)
          /\ wrap64 (newUsage - symbolsCharged) < usageLimit
          /\ wrap64 (period + 2) <= endPeriod)
  /\ (calls (snd out) = (calls w ++ [c1; c2])%list ->
      out = (match fst carry with Ok _ => Ok tt | Err e => Err e end,
             {| store := snd carry; calls := calls w ++ [c1; c2] |}))
  /\ (out = (Err (Errorf "overflow usage exceeds bin limit" []), w1)
      <-> usageLimit < newUsage
          /\ wrap64 (newUsage - symbolsCharged) < usageLimit
          /\ ~ (newUsage <= wrap64 (2 * usageLimit) /\ wrap64 (period + 2) <= endPeriod)).
Proof.
  intros account usageLimit endPeriod c1 c2 w1 carry out Hup.
  subst out w1.
  rewrite (IncrementBinUsage_after_update m header reservation symbolsCharged period w
             newUsage st1 Hup).
  fold account. fold usageLimit. fold endPeriod. fold c1. fold c2.
  cbv zeta. fold carry. rewrite Z.geb_leb.
  destruct (Z.leb_spec newUsage usageLimit) as [H1 | H1].
  { repeat split; intros; try lia; try reflexivity; try discriminate; log_clash. }
  destruct (Z.leb_spec usageLimit (wrap64 (newUsage - symbolsCharged))) as [H2 | H2].
  { repeat split; intros; try lia; try reflexivity; try discriminate; log_clash. }
  destruct (Z.leb_spec newUsage (wrap64 (2 * usageLimit))) as [H3 | H3];
    destruct (Z.leb_spec (wrap64 (period + 2)) endPeriod) as [H4 | H4];
    cbn [andb].
  - repeat split; intros; try lia; try reflexivity; try discriminate; log_clash.
  - repeat split; intros; try lia; try reflexivity; try discriminate; log_clash.
  - repeat split; intros; try lia; try reflexivity; try discriminate; log_clash.
  - repeat split; intros; try lia; try reflexivity; try discriminate; log_clash.
Qed.

(** *** The log of a request *)

Lemma extends_with_refl (P : Call Address -> bool) w : extends_with P w w.
Proof. exists []. split; [now rewrite app_nil_r | reflexivity]. Qed.

Lemma extends_with_trans (P : Call Address -> bool) w1 w2 w3 :
  extends_with P w1 w2 -> extends_with P w2 w3 -> extends_with P w1 w3.
Proof.
  intros (n1 & E1 & F1) (n2 & E2 & F2). exists (n1 ++ n2)%list. split.
  - rewrite E2, E1, app_assoc. reflexivity.
  - rewrite forallb_app, F1, F2. reflexivity.
Qed.

Lemma extends_with_store_call {A} (P : Call Address -> bool) (c : Call Address)
    (op : S -> result A * S) w :
  P c = true -> extends_with P w (snd (store_call c op w)).
Proof.
  intros Hc. unfold store_call. destruct (op (store w)) as [r s']. exists [c].
  split; [reflexivity | cbn; now rewrite Hc].
Qed.

Lemma extends_with_chain_call {A} (P : Call Address -> bool) (c : Call Address)
    (r : result A) w :
  P c = true -> extends_with P w (snd (chain_call (S := S) c r w)).
Proof.
  intros Hc. exists [c]. split; [reflexivity | cbn; now rewrite Hc].
Qed.

Lemma extends_with_wrapping {A} (P : Call Address -> bool) (format : string)
    (c : M Address S A) w :
  extends_with P w (snd (c w)) -> extends_with P w (snd (wrapping format c w)).
Proof. unfold wrapping. destruct (c w) as [[a | e] w']; exact (fun Hx => Hx). Qed.

Lemma extends_with_bind {A B} (P : Call Address -> bool) (c : M Address S A)
    (k : A -> M Address S B) w :
  extends_with P w (snd (c w)) ->
  (forall a w', extends_with P w' (snd (k a w'))) ->
  extends_with P w (snd (bind c k w)).
Proof.
  intros Hc Hk. unfold bind. destruct (c w) as [[a | e] w']; cbn [snd] in *.
  - eapply extends_with_trans; [exact Hc | apply Hk].
  - exact Hc.
Qed.

(** [IncrementBinUsage] writes the primary bin first, with the charged
    symbols, and after that at most the carry bin. *)
Lemma IncrementBinUsage_log m header reservation (symbolsCharged period : Z) w :
  exists rest,
    calls (snd (IncrementBinUsage m header reservation symbolsCharged period w))
    = (calls w
       ++ CallUpdateReservationBin (PaymentMetadata.AccountID header) period symbolsCharged
       :: rest)%list
    /\ forallb (is_reservation_call (Address := Address)) rest = true.
Proof.
  destruct (UpdateReservationBin (PaymentMetadata.AccountID header) period symbolsCharged
              (store w)) as [[newUsage | e] st1] eqn:Hup.
  - rewrite (IncrementBinUsage_after_update m header reservation symbolsCharged period w
               newUsage st1 Hup).
    repeat match goal with |- context [if ?b then _ else _] => destruct b end;
      cbn [snd calls]; eauto.
  - unfold IncrementBinUsage, bind, wrapping, store_call. rewrite Hup. cbn [snd calls].
    eauto.
Qed.

Lemma snd_wrapping {A} (format : string) (c : M Address S A) w :
  snd (wrapping format c w) = snd (c w).
Proof. unfold wrapping. destruct (c w) as [[a | e] w']; reflexivity. Qed.

Lemma snd_bind_ret {A B} (c : M Address S A) (b : B) w :
  snd (bind c (fun _ => ret b) w) = snd (c w).
Proof. unfold bind, ret. destruct (c w) as [[a | e] w']; reflexivity. Qed.

Lemma fst_bind_ret {A B} (c : M Address S A) (b : B) w (v : B) :
  fst (bind c (fun _ => ret b) w) = Ok v -> v = b.
Proof.
  unfold bind, ret. destruct (c w) as [[a | e] w']; cbn; intros Hv;
    [now inversion Hv | discriminate].
Qed.

(** The reservation path writes reservation bins only, the first write with
    the charged symbols. *)
Lemma ServeReservationRequest_log m header reservation (symbolsCharged : Z)
    (quorumNumbers : list Z) (receivedAt : Z) w :
  exists new,
    calls (snd (ServeReservationRequest IsActiveByNanosecond m header reservation
                  symbolsCharged quorumNumbers receivedAt w))
    = (calls w ++ new)%list
    /\ forallb (is_reservation_call (Address := Address)) new = true
    /\ match new with
       | [] => True
       | c :: _ => exists acct period, c = CallUpdateReservationBin acct period symbolsCharged
       end.
Proof.
  assert (Hnone : exists new : list (Call Address),
            calls w = (calls w ++ new)%list
            /\ forallb (is_reservation_call (Address := Address)) new = true
            /\ match new with
               | [] => True
               | c :: _ =>
                   exists acct period, c = CallUpdateReservationBin acct period symbolsCharged
               end).
  { exists []. rewrite app_nil_r. repeat split. }
  unfold ServeReservationRequest.
  destruct (negb (IsActiveByNanosecond reservation (PaymentMetadata.Timestamp header)));
    [exact Hnone |].
  destruct (ValidateQuorum m quorumNumbers (ReservedPayment.QuorumNumbers reservation));
    [| exact Hnone].
  destruct (negb (ValidateReservationPeriod m reservation _ receivedAt)); [exact Hnone |].
  rewrite snd_bind_ret, snd_wrapping.
  destruct (IncrementBinUsage_log m header reservation symbolsCharged
              (GetReservationPeriodByNanosecond (PaymentMetadata.Timestamp header)
                 (GetReservationWindow (ChainPaymentState m))) w) as (rest & Hlog & Hrest).
  eexists. split; [exact Hlog |]. split; [exact Hrest | eauto].
Qed.

Lemma ValidatePayment_log (P : Call Address -> bool) m header onDemandPayment
    (symbolsCharged : Z) w :
  (forall a p, P (CallGetRelevantOnDemandRecords a p) = true) ->
  extends_with P w (snd (ValidatePayment m header onDemandPayment symbolsCharged w)).
Proof.
  intros HP. unfold ValidatePayment.
  destruct (_ >? _); [apply extends_with_refl |].
  apply extends_with_bind.
  - apply extends_with_wrapping, extends_with_store_call, HP.
  - intros [[prevPmt nextPmt] nextNum] w'.
    destruct (_ >? _); [apply extends_with_refl |].
    destruct (_ && _); apply extends_with_refl.
Qed.

Lemma IncrementGlobalBinUsage_log (P : Call Address -> bool) m (symbolsCharged receivedAt : Z) w :
  (forall p, P (CallUpdateGlobalBin p symbolsCharged) = true) ->
  extends_with P w (snd (IncrementGlobalBinUsage m symbolsCharged receivedAt w)).
Proof.
  intros HP. unfold IncrementGlobalBinUsage.
  apply extends_with_bind.
  - apply extends_with_wrapping, extends_with_store_call, HP.
  - intros newUsage w'. destruct (_ >? _); apply extends_with_refl.
Qed.

(** The on-demand path makes on-demand calls only, and the ledger insert and
    the global bin update carry the charged symbols. *)
Lemma ServeOnDemandRequest_log m header onDemandPayment (symbolsCharged : Z)
    (headerQuorums : list Z) (receivedAt : Z) w :
  0 <= symbolsCharged < modulus ->
  extends_with (fun c => is_ondemand_call c && accounts_for symbolsCharged c) w
    (snd (ServeOnDemandRequest m header onDemandPayment symbolsCharged headerQuorums
            receivedAt w)).
Proof.
  intros Hsize. unfold ServeOnDemandRequest.
  apply extends_with_bind.
  { apply extends_with_wrapping, extends_with_chain_call. reflexivity. }
  intros quorumNumbers w0.
  destruct (ValidateQuorum m headerQuorums quorumNumbers); [| apply extends_with_refl].
  apply extends_with_bind.
  { apply extends_with_wrapping, ValidatePayment_log. reflexivity. }
  intros _ w1. apply extends_with_bind.
  { apply extends_with_wrapping, extends_with_store_call. cbn. now rewrite Z.eqb_refl. }
  intros _ w2. rewrite (wrap64_small symbolsCharged Hsize).
  pose proof (IncrementGlobalBinUsage_log
                (fun c => is_ondemand_call c && accounts_for symbolsCharged c)
                m symbolsCharged receivedAt w2) as Hglobal.
  destruct (IncrementGlobalBinUsage m symbolsCharged receivedAt w2) as [[u | err] w3].
  - apply Hglobal. intros p. cbn. now rewrite Z.eqb_refl.
  - cbn [snd] in Hglobal.
    eapply extends_with_trans.
    + apply Hglobal. intros p. cbn. now rewrite Z.eqb_refl.
    + pose proof (extends_with_store_call
                    (fun c => is_ondemand_call c && accounts_for symbolsCharged c)
                    (CallRemoveOnDemandPayment (PaymentMetadata.AccountID header)
                       (PaymentMetadata.CumulativePayment header))
                    (RemoveOnDemandPayment (PaymentMetadata.AccountID header)
                       (PaymentMetadata.CumulativePayment header)) w3 eq_refl) as Hdel.
      destruct (store_call _ _ w3) as [[u | dbErr] w4]; exact Hdel.
Qed.

(** *** The coordinator *)

Lemma MeterRequest_reservation_branch m header (numSymbols : Z) (quorumNumbers : list Z)
    (receivedAt : Z) w :
  let out := MeterRequest HexToAddress IsActiveByNanosecond m header numSymbols
               quorumNumbers receivedAt w in
  PaymentMetadata.CumulativePayment header = 0 ->
  took_reservation_path (HexToAddress (PaymentMetadata.AccountID header))
    (SymbolsCharged m numSymbols) w (snd out)
  /\ forall charged, fst out = Ok charged -> charged = SymbolsCharged m numSymbols.
Proof.
  intros out Hzero. subst out. unfold MeterRequest. rewrite Hzero. cbn [Z.sgn Z.eqb].
  unfold bind at 1. unfold wrapping at 1. unfold chain_call.
  destruct (GetReservedPaymentByAccount _ _) as [reservation | e].
  - split.
    + rewrite snd_bind_ret, snd_wrapping.
      destruct (ServeReservationRequest_log m header reservation
                  (SymbolsCharged m numSymbols) quorumNumbers receivedAt
                  {| store := store w;
                     calls := calls w
                              ++ [CallGetReservedPaymentByAccount
                                    (HexToAddress (PaymentMetadata.AccountID header))] |})
        as (new & Hlog & Hres & Hfirst).
      exists new. cbn [calls] in Hlog. rewrite <- app_assoc in Hlog. auto.
    + intros charged. apply fst_bind_ret.
  - split.
    + exists []. cbn. auto.
    + cbn. discriminate.
Qed.

Lemma MeterRequest_ondemand_branch m header (numSymbols : Z) (quorumNumbers : list Z)
    (receivedAt : Z) w :
  let out := MeterRequest HexToAddress IsActiveByNanosecond m header numSymbols
               quorumNumbers receivedAt w in
  PaymentMetadata.CumulativePayment header <> 0 ->
  took_ondemand_path (HexToAddress (PaymentMetadata.AccountID header))
    (SymbolsCharged m numSymbols) w (snd out)
  /\ forall charged, fst out = Ok charged -> charged = SymbolsCharged m numSymbols.
Proof.
  intros out Hnz. subst out. unfold MeterRequest.
  destruct (Z.eqb_spec (Z.sgn (PaymentMetadata.CumulativePayment header)) 0) as [Hs | _].
  { exfalso. apply Hnz. apply Z.sgn_null_iff. exact Hs. }
  unfold bind at 1. unfold wrapping at 1. unfold chain_call.
  destruct (GetOnDemandPaymentByAccount _ _) as [onDemandPayment | e].
  - split.
    + rewrite snd_bind_ret, snd_wrapping.
      destruct (ServeOnDemandRequest_log m header onDemandPayment
                  (SymbolsCharged m numSymbols) quorumNumbers receivedAt
                  {| store := store w;
                     calls := calls w
                              ++ [CallGetOnDemandPaymentByAccount
                                    (HexToAddress (PaymentMetadata.AccountID header))] |}
                  (SymbolsCharged_range m numSymbols))
        as (new & Hlog & Hall).
      exists new. cbn [calls] in Hlog. rewrite <- app_assoc in Hlog. auto.
    + intros charged. apply fst_bind_ret.
  - split.
    + exists []. cbn. auto.
    + cbn. discriminate.
Qed.

(** The two paths start with different lookups. *)
Lemma paths_exclusive (a : Address) (size : Z) w w' :
  took_reservation_path a size w w' -> took_ondemand_path a size w w' -> False.
Proof.
  intros (n1 & E1 & _) (n2 & E2 & _). rewrite E1 in E2.
  apply app_inv_head in E2. discriminate E2.
Qed.

(** Once the store has answered the neighbour query, the rest of
    [ValidatePayment] is the decision below. *)
Lemma ValidatePayment_after_query m header onDemandPayment (symbolsCharged : Z) w
    (prevPmt nextPmt nextPmtNumSymbols : Z) (st' : S) :
  let account := PaymentMetadata.AccountID header in
  let payment := PaymentMetadata.CumulativePayment header in
  let queried :=
    {| store := st';
       calls := calls w ++ [CallGetRelevantOnDemandRecords account payment] |} in
  GetRelevantOnDemandRecords account payment (store w)
    = (Ok (prevPmt, nextPmt, nextPmtNumSymbols), st') ->
  ValidatePayment m header onDemandPayment symbolsCharged w
  = if payment >? OnDemandPayment.CumulativePayment onDemandPayment
    then (Err (Errorf "request claims a cumulative payment greater than the on-chain deposit" []), w)
    else if prevPmt + PaymentCharged m symbolsCharged >? payment
    then (Err (Errorf "insufficient cumulative payment increment" []), queried)
    else if negb (nextPmt =? 0)
            && (payment + PaymentCharged m (wrap64 nextPmtNumSymbols) >? nextPmt)
    then (Err (Errorf "breaking cumulative payment invariants" []), queried)
    else (Ok tt, queried).
Proof.
  intros account payment queried Hq.
  unfold ValidatePayment, bind, wrapping, store_call, ret, fail.
  fold account. fold payment.
  destruct (payment >? _); [reflexivity |].
  rewrite Hq. cbv beta iota. fold queried.
  destruct (_ >? payment); [reflexivity |].
  destruct (_ && _); reflexivity.
Qed.

Lemma PaymentCharged_pos m (numSymbols : Z) :
  0 < GetMinNumSymbols (ChainPaymentState m) < modulus ->
  0 < GetPricePerSymbol (ChainPaymentState m) < 2 ^ 63 ->
  0 < PaymentCharged m numSymbols.
Proof.
  intros Hmin Hprice. unfold PaymentCharged.
  pose proof (SymbolsCharged_floor m numSymbols Hmin) as Hfloor.
  unfold to_int64. rewrite wrap64_small by (rewrite modulus_eq; lia).
  destruct (Z.ltb_spec (GetPricePerSymbol (ChainPaymentState m)) (2 ^ 63)); [nia | lia].
Qed.

(** X20: a request with a negative cumulative payment does not take the
    reservation path; it is looked up and checked as an on-demand request,
    and with a positive price below [2^63], which [int64] holds, and a store
    that reports a non-negative predecessor it fails the predecessor
    check. *)
Theorem MeterRequest_negative_payment m header (numSymbols : Z) (quorumNumbers : list Z)
    (receivedAt : Z) w :
  let chain := ChainPaymentState m in
  let payment := PaymentMetadata.CumulativePayment header in
  let account := HexToAddress (PaymentMetadata.AccountID header) in
  let size := SymbolsCharged m numSymbols in
  let out := MeterRequest HexToAddress IsActiveByNanosecond m header numSymbols
               quorumNumbers receivedAt w in
  payment < 0 ->
  0 < GetMinNumSymbols chain < modulus ->
  0 < GetPricePerSymbol chain < 2 ^ 63 ->
  took_ondemand_path account size w (snd out)
  /\ ~ took_reservation_path account size w (snd out)
  /\ (forall onDemandPayment allowed prevPmt nextPmt nextPmtNumSymbols st',
        GetOnDemandPaymentByAccount chain account = Ok onDemandPayment ->
        GetOnDemandQuorumNumbers chain = Ok allowed ->
        ValidateQuorum m quorumNumbers allowed = Ok tt ->
        payment <= OnDemandPayment.CumulativePayment onDemandPayment ->
        GetRelevantOnDemandRecords (PaymentMetadata.AccountID header) payment (store w)
          = (Ok (prevPmt, nextPmt, nextPmtNumSymbols), st') ->
        0 <= prevPmt ->
        out = (Err (Wrapf "invalid on-demand request: %w"
                      (Wrapf "invalid on-demand payment: %w"
                         (Errorf "insufficient cumulative payment increment" []))),
               {| store := st';
                  calls := calls w
                           ++ [CallGetOnDemandPaymentByAccount account;
                               CallGetOnDemandQuorumNumbers;
                               CallGetRelevantOnDemandRecords
                                 (PaymentMetadata.AccountID header) payment] |})).
Proof.
  intros chain payment account size out Hneg Hmin Hprice.
  assert (Hnz : payment <> 0) by lia.
  destruct (MeterRequest_ondemand_branch m header numSymbols quorumNumbers receivedAt w Hnz)
    as [Hod _].
  fold out account size in Hod.
  split; [exact Hod |].
  split; [intros Hres; exact (paths_exclusive _ _ _ _ Hres Hod) |].
  intros onDemandPayment allowed prevPmt nextPmt nextNum st' Hacc Hq Hvq Hdep Hrec Hprev.
  subst out. unfold MeterRequest. fold payment account chain size.
  destruct (Z.eqb_spec (Z.sgn payment) 0) as [Hs | _].
  { exfalso. apply Hnz. apply Z.sgn_null_iff. exact Hs. }
  unfold bind at 1. unfold wrapping at 1. unfold chain_call at 1. rewrite Hacc.
  unfold bind at 1. unfold wrapping at 1.
  unfold ServeOnDemandRequest. fold chain.
  unfold bind at 1. unfold wrapping at 1. unfold chain_call at 1. rewrite Hq.
  cbn [store calls]. rewrite Hvq.
  unfold bind at 1. unfold wrapping at 1.
  rewrite (ValidatePayment_after_query m header onDemandPayment size
             {| store := store w;
                calls := (calls w ++ [CallGetOnDemandPaymentByAccount account])
                         ++ [CallGetOnDemandQuorumNumbers] |}
             prevPmt nextPmt nextNum st' Hrec).
  fold payment.
  rewrite !Z.gtb_ltb.
  destruct (Z.ltb_spec (OnDemandPayment.CumulativePayment onDemandPayment) payment);
    [lia |].
  pose proof (PaymentCharged_pos m size Hmin Hprice) as Hpos.
  destruct (Z.ltb_spec payment (prevPmt + PaymentCharged m size)); [| lia].
  cbn [calls store]. rewrite <- !app_assoc. reflexivity.
Qed.

End EngineProofs.

(** ** The engine over the in-memory store *)

Section MemStoreProofs.

Context {Address : Type}.

Implicit Types (m : Meterer Address) (header : PaymentMetadata.t)
  (reservation : ReservedPayment.t) (onDemandPayment : OnDemandPayment.t)
  (w : World Address MemStore.t) (s : MemStore.t).

Lemma take_fault_data s :
  MemStore.reservationBins (snd (MemStore.take_fault s)) = MemStore.reservationBins s
  /\ MemStore.globalBins (snd (MemStore.take_fault s)) = MemStore.globalBins s
  /\ MemStore.ledger (snd (MemStore.take_fault s)) = MemStore.ledger s.
Proof. unfold MemStore.take_fault. destruct (MemStore.faults s); cbn; auto. Qed.

(** A successful bin update stores the wrapped sum and returns it. *)
Lemma updateReservationBin_ok (account : string) (period size usage : Z) s s1 :
  MemStore.updateReservationBin account period size s = (Ok usage, s1) ->
  usage = wrap64 (default 0 (MemStore.reservationBins s !! (account, period)) + size)
  /\ MemStore.reservationBins s1 = <[(account, period) := usage]> (MemStore.reservationBins s).
Proof.
  unfold MemStore.updateReservationBin.
  pose proof (take_fault_data s) as (Hb & _ & _).
  destruct (MemStore.take_fault s) as [[e |] s']; cbn [snd] in Hb; intros Heq;
    inversion Heq; subst; cbn. rewrite Hb. auto.
Qed.

(** A failed bin update leaves the bins as they were. *)
Lemma updateReservationBin_err (account : string) (period size : Z) (e : error) s s1 :
  MemStore.updateReservationBin account period size s = (Err e, s1) ->
  MemStore.reservationBins s1 = MemStore.reservationBins s.
Proof.
  unfold MemStore.updateReservationBin.
  pose proof (take_fault_data s) as (Hb & _ & _).
  destruct (MemStore.take_fault s) as [[e' |] s']; cbn [snd] in Hb; intros Heq;
    inversion Heq; subst. exact Hb.
Qed.

(** C9: when the primary increment succeeded and the carry write to
    period + 2 fails, [IncrementBinUsage] returns the error of the store as it
    is, after exactly those two writes, and the primary bin holds its former
    value plus the whole of [symbolsCharged]. *)
Theorem IncrementBinUsage_no_rollback m header reservation (symbolsCharged period : Z) w
    (newUsage : Z) (st1 st2 : MemStore.t) (e : error) :
  let account := PaymentMetadata.AccountID header in
  let usageLimit := GetReservationBinLimit m reservation in
  let endPeriod :=
    GetReservationPeriod (to_int64 (ReservedPayment.EndTimestamp reservation))
      (GetReservationWindow (ChainPaymentState m)) in
  let c1 := CallUpdateReservationBin account period symbolsCharged in
  let c2 := CallUpdateReservationBin account (wrap64 (period + 2))
              (wrap64 (newUsage - usageLimit)) in
  let before := default 0 (MemStore.reservationBins (store w) !! (account, period)) in
  UpdateReservationBin account period symbolsCharged (store w) = (Ok newUsage, st1) ->
  usageLimit < newUsage ->
  wrap64 (newUsage - symbolsCharged) < usageLimit ->
  newUsage <= wrap64 (2 * usageLimit) ->
  wrap64 (period + 2) <= endPeriod ->
  UpdateReservationBin account (wrap64 (period + 2)) (wrap64 (newUsage - usageLimit)) st1
    = (Err e, st2) ->
  IncrementBinUsage m header reservation symbolsCharged period w
    = (Err e, {| store := st2; calls := calls w ++ [c1; c2] |})
  /\ MemStore.reservationBins st2 !! (account, period)
     = Some (wrap64 (before + symbolsCharged))
  /\ MemStore.reservationBins st2
     = <[(account, period) := wrap64 (before + symbolsCharged)]>
         (MemStore.reservationBins (store w)).
Proof.
  intros account usageLimit endPeriod c1 c2 before Hup H1 H2 H3 H4 Hcarry.
  split.
  - rewrite (IncrementBinUsage_after_update m header reservation symbolsCharged period w
               newUsage st1 Hup).
    fold account usageLimit endPeriod c1 c2. rewrite Z.geb_leb.
    destruct (Z.leb_spec newUsage usageLimit); [lia |].
    destruct (Z.leb_spec usageLimit (wrap64 (newUsage - symbolsCharged))); [lia |].
    destruct (Z.leb_spec newUsage (wrap64 (2 * usageLimit))); [| lia].
    destruct (Z.leb_spec (wrap64 (period + 2)) endPeriod); [| lia].
    cbn [andb]. cbv zeta. rewrite Hcarry. reflexivity.
  - apply updateReservationBin_ok in Hup as [Hu Hb1].
    apply updateReservationBin_err in Hcarry.
    fold before in Hu. rewrite Hcarry, Hb1, <- Hu.
    split; [apply lookup_insert_eq | reflexivity].
Qed.

Lemma addOnDemandPayment_ok header (symbolsCharged : Z) s s1 :
  MemStore.addOnDemandPayment header symbolsCharged s = (Ok tt, s1) ->
  let key := (PaymentMetadata.AccountID header, PaymentMetadata.CumulativePayment header) in
  MemStore.ledger s !! key = None
  /\ MemStore.ledger s1 = <[key := symbolsCharged]> (MemStore.ledger s).
Proof.
  unfold MemStore.addOnDemandPayment.
  pose proof (take_fault_data s) as (_ & _ & Hl).
  destruct (MemStore.take_fault s) as [[e |] s']; cbn [snd] in Hl; [discriminate |].
  destruct (MemStore.ledger s' !! _) eqn:Hfree; [discriminate |].
  intros Heq. inversion Heq; subst. cbn. rewrite <- Hl. auto.
Qed.

Lemma updateGlobalBin_ledger (period size : Z) s :
  MemStore.ledger (snd (MemStore.updateGlobalBin period size s)) = MemStore.ledger s.
Proof.
  unfold MemStore.updateGlobalBin.
  pose proof (take_fault_data s) as (_ & _ & Hl).
  destruct (MemStore.take_fault s) as [[e |] s']; cbn [snd] in *; exact Hl.
Qed.

Lemma updateGlobalBin_range (period size usage : Z) s s1 :
  MemStore.updateGlobalBin period size s = (Ok usage, s1) -> 0 <= usage < modulus.
Proof.
  unfold MemStore.updateGlobalBin.
  destruct (MemStore.take_fault s) as [[e |] s']; intros Heq; inversion Heq.
  apply wrap64_range.
Qed.

Lemma removeOnDemandPayment_ok (account : string) (payment : Z) s s1 :
  MemStore.removeOnDemandPayment account payment s = (Ok tt, s1) ->
  MemStore.ledger s1 = delete (account, payment) (MemStore.ledger s).
Proof.
  unfold MemStore.removeOnDemandPayment.
  pose proof (take_fault_data s) as (_ & _ & Hl).
  destruct (MemStore.take_fault s) as [[e |] s']; cbn [snd] in Hl; intros Heq;
    inversion Heq; subst. cbn. now rewrite Hl.
Qed.

(** The payment checks of [ValidatePayment] against a ledger. *)
Lemma ValidatePayment_mem m header onDemandPayment (symbolsCharged : Z) w :
  let account := PaymentMetadata.AccountID header in
  let payment := PaymentMetadata.CumulativePayment header in
  let near := MemStore.neighbours account payment (MemStore.ledger (store w)) in
  (fst (ValidatePayment m header onDemandPayment symbolsCharged w) = Ok tt
   <-> (payment >? OnDemandPayment.CumulativePayment onDemandPayment) = false
       /\ fst (MemStore.take_fault (store w)) = None
       /\ (near.1.1 + PaymentCharged m symbolsCharged >? payment) = false
       /\ negb (near.1.2 =? 0)
          && (payment + PaymentCharged m (wrap64 near.2) >? near.1.2) = false)
  /\ MemStore.ledger (store (snd (ValidatePayment m header onDemandPayment symbolsCharged w)))
     = MemStore.ledger (store w).
Proof.
  intros account payment near.
  pose proof (take_fault_data (store w)) as (_ & _ & Hl).
  destruct (MemStore.take_fault (store w)) as [[e |] s'] eqn:Hf; cbn [snd fst] in *.
  - unfold ValidatePayment, bind, wrapping, store_call, fail. fold account payment.
    destruct (payment >? _); cbn.
    + split; [split; [discriminate | intros (Hx & _); discriminate] | reflexivity].
    + unfold MemStore.getRelevantOnDemandRecords. rewrite Hf. cbn.
      split; [split; [discriminate | intros (_ & Hx & _); discriminate] | exact Hl].
  - assert (Hq : GetRelevantOnDemandRecords account payment (store w)
                 = (Ok (near.1.1, near.1.2, near.2), s')).
    { cbn. unfold MemStore.getRelevantOnDemandRecords. rewrite Hf, Hl.
      reflexivity. }
    rewrite (ValidatePayment_after_query m header onDemandPayment symbolsCharged w
               _ _ _ s' Hq).
    fold account payment.
    destruct (payment >? _); cbn.
    { split; [split; [discriminate | intros (Hx & _); discriminate] | reflexivity]. }
    destruct (_ >? payment); cbn.
    { split; [split; [discriminate | intros (_ & _ & Hx & _); discriminate] | exact Hl]. }
    destruct (_ && _); cbn.
    + split; [split; [discriminate | intros (_ & _ & _ & Hx); discriminate] | exact Hl].
    + split; [split; auto | exact Hl].
Qed.

Lemma bind_ok {A B} (c : M Address MemStore.t A) (k : A -> M Address MemStore.t B)
    w (a : A) w' :
  c w = (Ok a, w') -> bind c k w = k a w'.
Proof. intros Hc. unfold bind. now rewrite Hc. Qed.

Lemma wrapping_ok {A} (format : string) (c : M Address MemStore.t A) w (a : A) w' :
  c w = (Ok a, w') -> wrapping format c w = (Ok a, w').
Proof. intros Hc. unfold wrapping. now rewrite Hc. Qed.

(** [IncrementGlobalBinUsage] in terms of the answer of the store. *)
Lemma IncrementGlobalBinUsage_after_update m (symbolsCharged receivedAt : Z) w :
  let chain := ChainPaymentState m in
  let period := GetReservationPeriod receivedAt (GetGlobalRatePeriodInterval chain) in
  let increment :=
    store_call (CallUpdateGlobalBin period symbolsCharged)
      (UpdateGlobalBin period symbolsCharged) w in
  IncrementGlobalBinUsage m symbolsCharged receivedAt w
  = (match fst increment with
     | Ok newUsage =>
         if newUsage >? wrap64 (GetGlobalSymbolsPerSecond chain
                                * wrap64 (GetGlobalRatePeriodInterval chain))
         then Err (Errorf "global bin usage overflows" [])
         else Ok tt
     | Err e => Err (Wrapf "failed to increment global bin usage: %w" e)
     end, snd increment).
Proof.
  intros chain period increment. unfold IncrementGlobalBinUsage, bind, wrapping, ret, fail.
  fold chain period increment.
  destruct increment as [[newUsage | e] w']; cbn [fst snd]; [| reflexivity].
  destruct (_ >? _); reflexivity.
Qed.

(** C3: after a successful ledger insert, a global-bin increment that fails
    or returns a usage above [globalSymbolsPerSecond * globalRatePeriodInterval]
    makes the engine delete the entry [(accountId, cumulativePayment)] and
    refuse the request; the error of a failed delete is returned as it is.
    When the delete succeeds the ledger is the one before the request, and
    the same request passes [ValidatePayment] again.  The chain parameters
    are [uint64] values and the symbol quantum is positive. *)
Theorem ServeOnDemandRequest_compensation m header onDemandPayment (symbolsCharged : Z)
    (headerQuorums : list Z) (receivedAt : Z) w (allowed : list Z)
    (w1 w2 : World Address MemStore.t) :
  let chain := ChainPaymentState m in
  let account := PaymentMetadata.AccountID header in
  let payment := PaymentMetadata.CumulativePayment header in
  let cap := GetGlobalSymbolsPerSecond chain * GetGlobalRatePeriodInterval chain in
  let period := GetReservationPeriod receivedAt (GetGlobalRatePeriodInterval chain) in
  let w0 := {| store := store w; calls := calls w ++ [CallGetOnDemandQuorumNumbers] |} in
  let increment :=
    store_call (CallUpdateGlobalBin period (wrap64 symbolsCharged))
      (UpdateGlobalBin period (wrap64 symbolsCharged)) w2 in
  let globalErr :=
    match fst increment with
    | Ok _ => Errorf "global bin usage overflows" []
    | Err e => Wrapf "failed to increment global bin usage: %w" e
    end in
  let removal :=
    store_call (CallRemoveOnDemandPayment account payment)
      (RemoveOnDemandPayment account payment) (snd increment) in
  let out := ServeOnDemandRequest m header onDemandPayment symbolsCharged headerQuorums
               receivedAt w in
  0 <= GetGlobalSymbolsPerSecond chain ->
  0 <= GetGlobalRatePeriodInterval chain < modulus ->
  0 < GetMinNumSymbols chain < modulus ->
  GetOnDemandQuorumNumbers chain = Ok allowed ->
  ValidateQuorum m headerQuorums allowed = Ok tt ->
  ValidatePayment m header onDemandPayment symbolsCharged w0 = (Ok tt, w1) ->
  store_call (CallAddOnDemandPayment header symbolsCharged)
    (AddOnDemandPayment header symbolsCharged) w1 = (Ok tt, w2) ->
  (forall usage, fst increment = Ok usage -> cap < usage) ->
  out = (match fst removal with
         | Err dbErr => Err dbErr
         | Ok _ => Err (Wrapf "failed global rate limiting: %w" globalErr)
         end, snd removal)
  /\ calls (snd out)
     = (calls w2 ++ [CallUpdateGlobalBin period (wrap64 symbolsCharged);
                     CallRemoveOnDemandPayment account payment])%list
  /\ (is_ok (fst removal) = true ->
      MemStore.ledger (store (snd out)) = MemStore.ledger (store w)
      /\ forall w',
           MemStore.ledger (store w') = MemStore.ledger (store (snd out)) ->
           MemStore.faults (store w') = [] ->
           fst (ValidatePayment m header onDemandPayment symbolsCharged w') = Ok tt).
Proof.
  intros chain account payment cap period w0 increment globalErr removal out
    HG HI _ Hq Hvq Hvp Hadd Hover.
  assert (Hout : out = (match fst removal with
                        | Err dbErr => Err dbErr
                        | Ok _ => Err (Wrapf "failed global rate limiting: %w" globalErr)
                        end, snd removal)).
  { subst out. unfold ServeOnDemandRequest. fold chain account payment.
    rewrite (bind_ok _ _ w allowed w0)
      by (unfold wrapping, chain_call; rewrite Hq; reflexivity).
    rewrite Hvq.
    rewrite (bind_ok _ _ w0 tt w1) by (apply wrapping_ok; exact Hvp).
    rewrite (bind_ok _ _ w1 tt w2) by (apply wrapping_ok; exact Hadd).
    rewrite IncrementGlobalBinUsage_after_update.
    fold chain period increment. fold removal.
    subst globalErr.
    destruct (fst increment) as [usage | e] eqn:Hinc.
    - specialize (Hover usage eq_refl).
      assert (Hrange : 0 <= usage < modulus).
      { subst increment. unfold store_call in Hinc.
        destruct (UpdateGlobalBin period (wrap64 symbolsCharged) (store w2))
          as [r s3] eqn:Hup.
        cbn in Hinc. subst r. exact (updateGlobalBin_range _ _ _ _ _ Hup). }
      rewrite (wrap64_small (GetGlobalRatePeriodInterval chain)) by exact HI.
      pose proof (wrap64_le cap ltac:(subst cap; nia)) as Hle. fold cap.
      rewrite Z.gtb_ltb.
      destruct (Z.ltb_spec (wrap64 cap) usage) as [_ | Hno]; [| lia].
      destruct removal as [[u | dbErr] w4]; reflexivity.
    - destruct removal as [[u | dbErr] w4]; reflexivity. }
  split; [exact Hout |].
  split.
  { rewrite Hout. cbn [snd]. subst removal increment. unfold store_call.
    destruct (UpdateGlobalBin _ _ (store w2)) as [r3 s3]. cbn [snd store calls].
    destruct (RemoveOnDemandPayment _ _ s3) as [r4 s4]. cbn [calls].
    rewrite <- app_assoc. reflexivity. }
  intros Hdel. rewrite Hout. cbn [snd].
  (* the ledger along the run *)
  pose proof (ValidatePayment_mem m header onDemandPayment symbolsCharged w0)
    as [Hchecks Hl1].
  rewrite Hvp in Hchecks, Hl1. cbn [fst snd] in Hchecks, Hl1.
  change (store w0) with (store w) in Hchecks, Hl1.
  unfold store_call in Hadd.
  destruct (AddOnDemandPayment header symbolsCharged (store w1)) as [r2 s2] eqn:Hadd2.
  inversion Hadd; subst r2 w2. clear Hadd.
  apply addOnDemandPayment_ok in Hadd2 as [Hfree Hl2]. cbn zeta in Hfree, Hl2.
  assert (Hl4 : MemStore.ledger (store (snd removal)) = MemStore.ledger (store w)).
  { subst removal increment. unfold store_call in *. cbn [store] in *.
    pose proof (updateGlobalBin_ledger period (wrap64 symbolsCharged) s2) as Hl3.
    change MemStore.updateGlobalBin with (UpdateGlobalBin (S := MemStore.t)) in Hl3.
    destruct (UpdateGlobalBin period (wrap64 symbolsCharged) s2) as [r3 s3].
    cbn [snd store] in *.
    destruct (RemoveOnDemandPayment account payment s3) as [r4 s4] eqn:Hrm.
    cbn [fst snd store] in *. destruct r4 as [[] | dbErr]; [| discriminate].
    apply removeOnDemandPayment_ok in Hrm.
    rewrite Hrm, Hl3, Hl2, <- Hl1. apply delete_insert_id.
    fold account payment in Hfree. exact Hfree. }
  split; [exact Hl4 |].
  intros w' Hsame Hhealthy.
  apply (ValidatePayment_mem m header onDemandPayment symbolsCharged w').
  rewrite Hsame, Hl4.
  destruct (proj1 Hchecks eq_refl) as (Hc1 & _ & Hc3 & Hc4).
  repeat split; try assumption.
  unfold MemStore.take_fault. rewrite Hhealthy. reflexivity.
Qed.

End MemStoreProofs.

(** ** The scenarios of section 8 *)

(** Discharges a closed comparison of integers. *)
Ltac closed_arith :=
  vm_compute; repeat split; solve [reflexivity | discriminate].

(** Scenario 6: inserting 450 below a payment of 500 for 6 symbols breaks the
    successor check. *)
Lemma ValidatePayment_accepts_iff_witness :
  GetRelevantOnDemandRecords "acct" 450 Scenario.ledger500
    = (Ok (0, 500, 6), Scenario.ledger500)
  /\ 0 <= 6 < modulus
  /\ 0 < 3 < modulus
  /\ ValidatePayment Scenario.meterer (Scenario.request 450) Scenario.deposit 3
       (Scenario.world Scenario.ledger500)
     = (Err (Errorf "breaking cumulative payment invariants" []),
        {| store := Scenario.ledger500;
           calls := [CallGetRelevantOnDemandRecords "acct" 450] |}).
Proof.
  assert (Hq : GetRelevantOnDemandRecords
                 (PaymentMetadata.AccountID (Scenario.request 450))
                 (PaymentMetadata.CumulativePayment (Scenario.request 450))
                 (store (Scenario.world Scenario.ledger500))
               = (Ok (0, 500, 6), Scenario.ledger500))
    by (vm_compute; reflexivity).
  assert (Hnum : 0 <= 6 < modulus) by closed_arith.
  assert (Hmin : 0 < GetMinNumSymbols (ChainPaymentState Scenario.meterer) < modulus)
    by closed_arith.
  split; [exact Hq | split; [exact Hnum | split; [exact Hmin |]]].
  destruct (ValidatePayment_accepts_iff Scenario.meterer (Scenario.request 450)
              Scenario.deposit 3 (Scenario.world Scenario.ledger500) 0 500 6
              Scenario.ledger500 Hq Hnum Hmin) as (_ & _ & _ & Hnext & _).
  apply Hnext; closed_arith.
Defined.

(** C2: [IncrementBinUsage] does not check the multiplication
    [2 * usageLimit] for overflow.  The bin holds [2^63 - 1] of a limit of
    [2^63] and two symbols are charged, so [L < U <= 2L],
    [U - symbolsCharged < L] and [period + 2 <= endPeriod] hold and the
    request is to be accepted with the excess of one symbol written to
    period 2; but [2 * L] wraps to 0 in [uint64] and the request is refused
    as overflow, with no second write. *)
Lemma IncrementBinUsage_double_limit_wraps :
  let L := 2 ^ 62 * 2 in
  let U := 2 ^ 63 + 1 in
  let out := IncrementBinUsage Scenario.wide_meterer (Scenario.request 0)
               Scenario.wide_reservation 2 0 (Scenario.world Scenario.wide_bin) in
  fst (UpdateReservationBin "acct" 0 2 Scenario.wide_bin) = Ok U
  /\ (L < U <= 2 * L /\ U - 2 < L /\ 0 + 2 <= 600 / 2)
  /\ fst out = Err (Errorf "overflow usage exceeds bin limit" [])
  /\ calls (snd out) = [CallUpdateReservationBin "acct" 0 2].
Proof. vm_compute. repeat split; solve [reflexivity | discriminate]. Qed.

(** Scenario 2: 21 symbols on a bin loaded with 295 of 300 are accepted with
    a second write of 16 to period 2. *)
Lemma IncrementBinUsage_decision_witness :
  UpdateReservationBin "acct" 0 21 Scenario.bin295
    = (Ok 316, snd (UpdateReservationBin "acct" 0 21 Scenario.bin295))
  /\ calls (snd (IncrementBinUsage Scenario.meterer (Scenario.request 0)
                   Scenario.reservation 21 0 (Scenario.world Scenario.bin295)))
     = [CallUpdateReservationBin "acct" 0 21; CallUpdateReservationBin "acct" 2 16].
Proof.
  assert (Hup : UpdateReservationBin (PaymentMetadata.AccountID (Scenario.request 0)) 0 21
                  (store (Scenario.world Scenario.bin295))
                = (Ok 316, snd (UpdateReservationBin "acct" 0 21 Scenario.bin295)))
    by (vm_compute; reflexivity).
  split; [exact Hup |].
  destruct (IncrementBinUsage_decision Scenario.meterer (Scenario.request 0)
              Scenario.reservation 21 0 (Scenario.world Scenario.bin295) 316 _ Hup)
    as (_ & _ & Hcarry & _).
  apply Hcarry. closed_arith.
Defined.

(** Scenario 2 with a store that fails the carry write: the error comes
    back and bin 0 keeps 295 + 21. *)
Lemma IncrementBinUsage_no_rollback_witness :
  let st1 := snd (UpdateReservationBin "acct" 0 21 Scenario.bin295_carry_fails) in
  let st2 := snd (UpdateReservationBin "acct" 2 16 st1) in
  UpdateReservationBin "acct" 0 21 Scenario.bin295_carry_fails = (Ok 316, st1)
  /\ UpdateReservationBin "acct" 2 16 st1 = (Err (Errorf "store unavailable" []), st2)
  /\ fst (IncrementBinUsage Scenario.meterer (Scenario.request 0) Scenario.reservation
            21 0 (Scenario.world Scenario.bin295_carry_fails))
     = Err (Errorf "store unavailable" [])
  /\ MemStore.reservationBins st2 !! ("acct", 0) = Some (295 + 21).
Proof.
  intros st1 st2.
  assert (Hup : UpdateReservationBin (PaymentMetadata.AccountID (Scenario.request 0)) 0 21
                  (store (Scenario.world Scenario.bin295_carry_fails)) = (Ok 316, st1))
    by (vm_compute; reflexivity).
  assert (Hcarry : UpdateReservationBin (PaymentMetadata.AccountID (Scenario.request 0))
                     (wrap64 (0 + 2))
                     (wrap64 (316 - GetReservationBinLimit Scenario.meterer
                                      Scenario.reservation)) st1
                   = (Err (Errorf "store unavailable" []), st2))
    by (vm_compute; reflexivity).
  split; [exact Hup | split; [exact Hcarry |]].
  destruct (IncrementBinUsage_no_rollback Scenario.meterer (Scenario.request 0)
              Scenario.reservation 21 0 (Scenario.world Scenario.bin295_carry_fails)
              316 st1 st2 (Errorf "store unavailable" []) Hup
              ltac:(closed_arith) ltac:(closed_arith) ltac:(closed_arith)
              ltac:(closed_arith) Hcarry) as (Hout & Hbin & _).
  split; [rewrite Hout; reflexivity | exact Hbin].
Defined.

(** A request with cumulative payment -5 is checked as an on-demand request
    and fails the predecessor check. *)
Lemma MeterRequest_negative_payment_witness :
  -5 < 0
  /\ 0 < 3 < modulus
  /\ 0 < 10 < 2 ^ 63
  /\ fst (MeterRequest Scenario.address Scenario.active Scenario.meterer
            (Scenario.request (-5)) 5 [0] 30 (Scenario.world Scenario.empty))
     = Err (Wrapf "invalid on-demand request: %w"
              (Wrapf "invalid on-demand payment: %w"
                 (Errorf "insufficient cumulative payment increment" []))).
Proof.
  assert (Hneg : PaymentMetadata.CumulativePayment (Scenario.request (-5)) < 0)
    by closed_arith.
  assert (Hmin : 0 < GetMinNumSymbols (ChainPaymentState Scenario.meterer) < modulus)
    by closed_arith.
  assert (Hprice : 0 < GetPricePerSymbol (ChainPaymentState Scenario.meterer) < 2 ^ 63)
    by closed_arith.
  split; [exact Hneg | split; [exact Hmin | split; [exact Hprice |]]].
  destruct (MeterRequest_negative_payment Scenario.address Scenario.active
              Scenario.meterer (Scenario.request (-5)) 5 [0] 30
              (Scenario.world Scenario.empty) Hneg Hmin Hprice) as (_ & _ & Hfail).
  rewrite (Hfail Scenario.deposit [0; 1] 0 0 0 Scenario.empty);
    try reflexivity; closed_arith.
Defined.

(** C10: a negative cumulative payment is routed to the on-demand path, but
    the predecessor check does not stop it for every positive price.
    [PaymentCharged] converts the [uint64] price to [int64]; at a price of
    [2^63] the conversion is [-2^63], the payment charged for the 6 symbols
    of the request is negative, and the request with cumulative payment -5
    passes the predecessor check on an empty ledger: it is accepted, inserted
    in the ledger at -5 and counted in the global bin. *)
Theorem MeterRequest_negative_payment_accepted :
  let m := Scenario.signed_meterer in
  let header := Scenario.request (-5) in
  let w := Scenario.world Scenario.empty in
  let out := MeterRequest Scenario.address Scenario.active m header 5 [0] 30 w in
  PaymentMetadata.CumulativePayment header < 0
  /\ 0 < GetPricePerSymbol (ChainPaymentState m) < modulus
  /\ SymbolsCharged m 5 = 6
  /\ PaymentCharged m 6 = - (6 * 2 ^ 63)
  /\ took_ondemand_path (Scenario.address "acct") 6 w (snd out)
  /\ fst out = Ok 6
  /\ calls (snd out)
     = [CallGetOnDemandPaymentByAccount "acct";
        CallGetOnDemandQuorumNumbers;
        CallGetRelevantOnDemandRecords "acct" (-5);
        CallAddOnDemandPayment header 6;
        CallUpdateGlobalBin 30 6]
  /\ MemStore.ledger (store (snd out)) !! ("acct", -5) = Some 6
  /\ MemStore.globalBins (store (snd out)) !! 30 = Some 6.
Proof.
  intros m header w out.
  split; [closed_arith |]. split; [closed_arith |].
  split; [vm_compute; reflexivity |]. split; [vm_compute; reflexivity |].
  split.
  { apply (MeterRequest_ondemand_branch Scenario.address Scenario.active m header 5 [0]
             30 w). discriminate. }
  split; [vm_compute; reflexivity |]. split; [vm_compute; reflexivity |].
  split; vm_compute; reflexivity.
Qed.

(** An on-demand request of 201 charged symbols against a global cap of 100:
    the entry inserted at 5000 is deleted again and the ledger is empty as
    before. *)
Lemma ServeOnDemandRequest_compensation_witness :
  let header := Scenario.request 5000 in
  let w := Scenario.world Scenario.empty in
  let w0 := {| store := store w; calls := calls w ++ [CallGetOnDemandQuorumNumbers] |} in
  let w1 := snd (ValidatePayment Scenario.meterer header Scenario.deposit 201 w0) in
  let w2 := snd (store_call (CallAddOnDemandPayment header 201)
                   (AddOnDemandPayment header 201) w1) in
  let out := ServeOnDemandRequest Scenario.meterer header Scenario.deposit 201 [0] 30 w in
  (0 <= 100 /\ 0 <= 1 < modulus /\ 0 < 3 < modulus)
  /\ ValidatePayment Scenario.meterer header Scenario.deposit 201 w0 = (Ok tt, w1)
  /\ store_call (CallAddOnDemandPayment header 201) (AddOnDemandPayment header 201) w1
     = (Ok tt, w2)
  /\ MemStore.ledger (store w2) !! ("acct", 5000) = Some 201
  /\ fst out = Err (Wrapf "failed global rate limiting: %w"
                      (Errorf "global bin usage overflows" []))
  /\ MemStore.ledger (store (snd out)) = MemStore.ledger (store w).
Proof.
  intros header w w0 w1 w2 out.
  assert (Hvp : ValidatePayment Scenario.meterer header Scenario.deposit 201 w0
                = (Ok tt, w1)) by (vm_compute; reflexivity).
  assert (Hadd : store_call (CallAddOnDemandPayment header 201)
                   (AddOnDemandPayment header 201) w1 = (Ok tt, w2))
    by (vm_compute; reflexivity).
  split; [closed_arith |].
  split; [exact Hvp | split; [exact Hadd |]].
  split; [vm_compute; reflexivity |].
  destruct (ServeOnDemandRequest_compensation Scenario.meterer header Scenario.deposit
              201 [0] 30 w [0; 1] w1 w2
              ltac:(closed_arith) ltac:(closed_arith) ltac:(closed_arith)
              eq_refl eq_refl Hvp Hadd)
    as (Hout & _ & Hledger).
  - intros usage Husage. vm_compute in Husage. inversion Husage. closed_arith.
  - split.
    + fold out in Hout. rewrite Hout. vm_compute. reflexivity.
    + apply Hledger. vm_compute. reflexivity.
Defined.

(** * Further properties of the meterer *)

(** ** Quorums *)

Section QuorumProofs.

Context {Address : Type}.
Implicit Types m : Meterer Address.

Lemma Contains_In (s : list Z) (v : Z) : Contains s v = true <-> In v s.
Proof.
  unfold Contains. rewrite existsb_exists. split.
  - intros (x & Hin & Heq). apply Z.eqb_eq in Heq. now subst.
  - intros Hin. exists v. split; [exact Hin | apply Z.eqb_refl].
Qed.

Lemma check_quorums_ok (headerQuorums allowedQuorums : list Z) :
  check_quorums headerQuorums allowedQuorums = Ok tt
  <-> Forall (fun q => In q allowedQuorums) headerQuorums.
Proof.
  induction headerQuorums as [| q rest IH]; cbn.
  - split; [constructor | reflexivity].
  - destruct (Contains allowedQuorums q) eqn:Hq; cbn.
    + rewrite IH. apply Contains_In in Hq. split.
      * intros Hrest. constructor; assumption.
      * intros Hall. inversion Hall; assumption.
    + split; [discriminate |].
      intros Hall. inversion Hall as [| ? ? Hin _]; subst.
      apply Contains_In in Hin. congruence.
Qed.

(** X1: [ValidateQuorum] accepts exactly the non-empty lists of quorums all
    of which are allowed; repetitions and the order do not matter. *)
Theorem ValidateQuorum_ok_iff m (headerQuorums allowedQuorums : list Z) :
  ValidateQuorum m headerQuorums allowedQuorums = Ok tt
  <-> headerQuorums <> [] /\ Forall (fun q => In q allowedQuorums) headerQuorums.
Proof.
  unfold ValidateQuorum. destruct headerQuorums as [| q rest].
  - cbn. split; [discriminate | intros [Hne _]; now destruct Hne].
  - change (length (q :: rest) =? 0)%nat with false. cbv iota.
    rewrite check_quorums_ok. split; [intros Hall; split; [discriminate | exact Hall] |].
    intros [_ Hall]. exact Hall.
Qed.

Lemma check_quorums_err (headerQuorums allowedQuorums : list Z) (e : error) :
  check_quorums headerQuorums allowedQuorums = Err e ->
  exists pre q post,
    headerQuorums = (pre ++ q :: post)%list
    /\ Forall (fun x => In x allowedQuorums) pre
    /\ ~ In q allowedQuorums
    /\ e = Errorf "quorum number mismatch: %d" [q].
Proof.
  induction headerQuorums as [| q rest IH]; cbn; [discriminate |].
  destruct (Contains allowedQuorums q) eqn:Hq; cbn.
  - intros Hrest. destruct (IH Hrest) as (pre & q' & post & -> & Hpre & Hq' & ->).
    exists (q :: pre), q', post. repeat split; auto.
    constructor; [now apply Contains_In | exact Hpre].
  - intros Heq. inversion Heq; subst. exists [], q, rest. repeat split; auto.
    intros Hin. apply Contains_In in Hin. congruence.
Qed.

(** X2: when [ValidateQuorum] refuses, either the header names no quorum, or
    the error names the first quorum of the header, in header order, that is
    not allowed. *)
Theorem ValidateQuorum_first_mismatch m (headerQuorums allowedQuorums : list Z)
    (e : error) :
  ValidateQuorum m headerQuorums allowedQuorums = Err e ->
  (headerQuorums = [] /\ e = Errorf "no quorum params in blob header" [])
  \/ exists pre q post,
       headerQuorums = (pre ++ q :: post)%list
       /\ Forall (fun x => In x allowedQuorums) pre
       /\ ~ In q allowedQuorums
       /\ e = Errorf "quorum number mismatch: %d" [q].
Proof.
  unfold ValidateQuorum. destruct headerQuorums as [| q rest].
  - cbn. intros Heq. inversion Heq. left. auto.
  - change (length (q :: rest) =? 0)%nat with false. cbv iota.
    intros Herr. right. now apply check_quorums_err.
Qed.

End QuorumProofs.

(** Quorums 0 and 2 against the allowed quorums 0 and 1: quorum 2 is
    reported. *)
Lemma ValidateQuorum_first_mismatch_witness :
  ValidateQuorum Scenario.meterer [0; 2; 7] [0; 1]
    = Err (Errorf "quorum number mismatch: %d" [2])
  /\ exists pre post, [0; 2; 7] = (pre ++ 2 :: post)%list
                      /\ Forall (fun x => In x [0; 1]) pre.
Proof.
  assert (Herr : ValidateQuorum Scenario.meterer [0; 2; 7] [0; 1]
                 = Err (Errorf "quorum number mismatch: %d" [2])) by reflexivity.
  split; [exact Herr |].
  destruct (ValidateQuorum_first_mismatch Scenario.meterer [0; 2; 7] [0; 1] _ Herr)
    as [[Hnil _] | (pre & q & post & Hsplit & Hpre & _ & Hq)].
  - discriminate Hnil.
  - inversion Hq; subst. exists pre, post. split; assumption.
Defined.

(** ** Pricing *)

Section PricingProofs.

Context {Address : Type}.
Implicit Types m : Meterer Address.

(** The three outcomes of [SymbolsCharged]. *)
Lemma SymbolsCharged_cases m (n : Z) :
  let q := GetMinNumSymbols (ChainPaymentState m) in
  0 < q < modulus -> 0 <= n < modulus ->
  (n <= q /\ SymbolsCharged m n = q)
  \/ (q < n /\ n + q - 1 < modulus /\ SymbolsCharged m n = (n + q - 1) / q * q)
  \/ (q < n /\ modulus <= n + q - 1 /\ SymbolsCharged m n = MaxUint64).
Proof.
  intros q Hq Hn.
  destruct (Z.le_gt_cases n q) as [Hle | Hgt].
  - left. split; [exact Hle |].
    unfold SymbolsCharged. fold q. rewrite (wrap64_small q) by lia.
    destruct (Z.leb_spec n q); [reflexivity | lia].
  - right. destruct (Z.lt_ge_cases (n + q - 1) modulus) as [Hfit | Hov].
    + left. repeat split; try assumption. apply SymbolsCharged_exact; fold q; lia.
    + right. repeat split; try assumption. apply SymbolsCharged_saturates; fold q; lia.
Qed.

(** X3: the charge is never below the request and never below the quantum,
    and it is a [uint64]. *)
Theorem SymbolsCharged_never_undercharges m (n : Z) :
  let q := GetMinNumSymbols (ChainPaymentState m) in
  0 < q < modulus -> 0 <= n < modulus ->
  n <= SymbolsCharged m n /\ q <= SymbolsCharged m n /\ SymbolsCharged m n <= MaxUint64.
Proof.
  intros q Hq Hn.
  pose proof (SymbolsCharged_range m n) as Hr.
  pose proof (SymbolsCharged_floor m n Hq) as Hf. fold q in Hf.
  split; [| split; [exact Hf | unfold MaxUint64; lia]].
  destruct (SymbolsCharged_cases m n Hq Hn) as [(H1 & ->) | [(H1 & H2 & ->) | (H1 & H2 & ->)]];
    fold q.
  - exact H1.
  - pose proof (Z.div_mod (n + q - 1) q ltac:(lia)).
    pose proof (Z.mod_pos_bound (n + q - 1) q ltac:(lia)). nia.
  - unfold MaxUint64. lia.
Qed.

(** X4: charging is monotone: more symbols are never charged less, neither
    in symbols nor, for a price below [2^63], in payment. *)
Theorem SymbolsCharged_monotone m (n1 n2 : Z) :
  let q := GetMinNumSymbols (ChainPaymentState m) in
  let price := GetPricePerSymbol (ChainPaymentState m) in
  0 < q < modulus -> 0 <= n1 -> n1 <= n2 -> n2 < modulus ->
  SymbolsCharged m n1 <= SymbolsCharged m n2
  /\ (0 <= price < 2 ^ 63 -> PaymentCharged m n1 <= PaymentCharged m n2).
Proof.
  intros q price Hq H1 H12 H2.
  assert (Hmono : SymbolsCharged m n1 <= SymbolsCharged m n2).
  { pose proof (SymbolsCharged_range m n1) as Hr1.
    pose proof (SymbolsCharged_floor m n2 Hq) as Hf2. fold q in Hf2.
    destruct (SymbolsCharged_cases m n1 Hq ltac:(lia))
      as [(Ha & Ea) | [(Ha & Ha' & Ea) | (Ha & Ha' & Ea)]];
      destruct (SymbolsCharged_cases m n2 Hq ltac:(lia))
        as [(Hb & Eb) | [(Hb & Hb' & Eb) | (Hb & Hb' & Eb)]];
      fold q in Ha, Hb, Ea, Eb; try fold q in Ha'; try fold q in Hb';
      try lia; try (rewrite Eb; unfold MaxUint64; lia).
    rewrite Ea, Eb. apply Z.mul_le_mono_nonneg_r; [lia |].
    apply Z.div_le_mono; lia. }
  split; [exact Hmono |].
  intros Hprice. unfold PaymentCharged. fold price.
  unfold to_int64. rewrite wrap64_small by (rewrite modulus_eq; lia).
  destruct (Z.ltb_spec price (2 ^ 63)); [| lia].
  apply Z.mul_le_mono_nonneg_r; lia.
Qed.

(** X5: charging a charge again changes nothing as long as the charge plus
    the quantum fits 64 bits; so [PaymentCharged], which [ValidatePayment]
    applies to the symbols already charged, prices exactly those symbols. *)
Theorem SymbolsCharged_idempotent m (n : Z) :
  let q := GetMinNumSymbols (ChainPaymentState m) in
  0 < q < modulus -> 0 <= n < modulus ->
  SymbolsCharged m n + q - 1 < modulus ->
  SymbolsCharged m (SymbolsCharged m n) = SymbolsCharged m n
  /\ PaymentCharged m (SymbolsCharged m n)
     = SymbolsCharged m n * to_int64 (GetPricePerSymbol (ChainPaymentState m)).
Proof.
  intros q Hq Hn Hfit.
  assert (Hidem : SymbolsCharged m (SymbolsCharged m n) = SymbolsCharged m n).
  { pose proof (SymbolsCharged_range m n) as Hr.
    assert (Hmul : exists j, SymbolsCharged m n = j * q).
    { destruct (SymbolsCharged_cases m n Hq Hn)
        as [(_ & E) | [(_ & _ & E) | (_ & _ & E)]]; fold q in E.
      - exists 1. lia.
      - eexists. exact E.
      - exists MaxUint64. rewrite E in *. unfold MaxUint64 in *. nia. }
    destruct Hmul as [j Hj].
    destruct (SymbolsCharged_cases m (SymbolsCharged m n) Hq Hr)
      as [(Hc & E) | [(Hc & Hc' & E) | (Hc & Hc' & E)]]; fold q in Hc, E.
    - pose proof (SymbolsCharged_floor m n Hq) as Hf. fold q in Hf. lia.
    - rewrite E, Hj.
      replace (j * q + q - 1) with ((q - 1) + j * q) by ring.
      rewrite Z.div_add by lia. rewrite (Z.div_small (q - 1) q) by lia. ring.
    - fold q in Hc'. lia. }
  split; [exact Hidem |].
  unfold PaymentCharged. rewrite Hidem. reflexivity.
Qed.

(** X6: the price enters [PaymentCharged] through [int64]: below [2^63] the
    payment is the charged symbols times the price, and positive when the
    price is; from [2^63] on the price counts as [price - 2^64] and the
    payment is negative. *)
Theorem PaymentCharged_price_sign m (n : Z) :
  let q := GetMinNumSymbols (ChainPaymentState m) in
  let price := GetPricePerSymbol (ChainPaymentState m) in
  0 < q < modulus -> 0 <= price < modulus ->
  (price < 2 ^ 63 ->
   PaymentCharged m n = SymbolsCharged m n * price /\ 0 <= PaymentCharged m n)
  /\ (2 ^ 63 <= price ->
      PaymentCharged m n = SymbolsCharged m n * (price - modulus)
      /\ PaymentCharged m n < 0).
Proof.
  intros q price Hq Hprice.
  pose proof (SymbolsCharged_floor m n Hq) as Hf. fold q in Hf.
  unfold PaymentCharged. fold price. unfold to_int64.
  rewrite (wrap64_small price Hprice).
  split; intros Hp; destruct (Z.ltb_spec price (2 ^ 63)); try lia; split;
    try reflexivity; nia.
Qed.

End PricingProofs.

Lemma SymbolsCharged_never_undercharges_witness :
  0 < 3 < modulus /\ 0 <= 7 < modulus /\ 7 <= SymbolsCharged Scenario.meterer 7.
Proof.
  assert (Hq : 0 < GetMinNumSymbols (ChainPaymentState Scenario.meterer) < modulus)
    by closed_arith.
  assert (Hn : 0 <= 7 < modulus) by closed_arith.
  split; [exact Hq | split; [exact Hn |]].
  exact (proj1 (SymbolsCharged_never_undercharges Scenario.meterer 7 Hq Hn)).
Defined.

Lemma SymbolsCharged_monotone_witness :
  0 < 3 < modulus /\ 0 <= 5 /\ 5 <= 7 /\ 7 < modulus
  /\ SymbolsCharged Scenario.meterer 5 <= SymbolsCharged Scenario.meterer 7.
Proof.
  assert (Hq : 0 < GetMinNumSymbols (ChainPaymentState Scenario.meterer) < modulus)
    by closed_arith.
  assert (H1 : 0 <= 5) by closed_arith.
  assert (H12 : 5 <= 7) by closed_arith.
  assert (H2 : 7 < modulus) by closed_arith.
  repeat (split; [assumption |]).
  exact (proj1 (SymbolsCharged_monotone Scenario.meterer 5 7 Hq H1 H12 H2)).
Defined.

Lemma SymbolsCharged_idempotent_witness :
  0 < 3 < modulus /\ 0 <= 7 < modulus
  /\ SymbolsCharged Scenario.meterer 7 + 3 - 1 < modulus
  /\ SymbolsCharged Scenario.meterer (SymbolsCharged Scenario.meterer 7)
     = SymbolsCharged Scenario.meterer 7.
Proof.
  assert (Hq : 0 < GetMinNumSymbols (ChainPaymentState Scenario.meterer) < modulus)
    by closed_arith.
  assert (Hn : 0 <= 7 < modulus) by closed_arith.
  assert (Hfit : SymbolsCharged Scenario.meterer 7
                 + GetMinNumSymbols (ChainPaymentState Scenario.meterer) - 1 < modulus)
    by closed_arith.
  repeat (split; [assumption |]).
  exact (proj1 (SymbolsCharged_idempotent Scenario.meterer 7 Hq Hn Hfit)).
Defined.

Lemma PaymentCharged_price_sign_witness :
  0 < 3 < modulus /\ 0 <= 10 < modulus
  /\ PaymentCharged Scenario.meterer 7 = SymbolsCharged Scenario.meterer 7 * 10.
Proof.
  assert (Hq : 0 < GetMinNumSymbols (ChainPaymentState Scenario.meterer) < modulus)
    by closed_arith.
  assert (Hp : 0 <= GetPricePerSymbol (ChainPaymentState Scenario.meterer) < modulus)
    by closed_arith.
  repeat (split; [assumption |]).
  destruct (PaymentCharged_price_sign Scenario.meterer 7 Hq Hp) as [Hlow _].
  apply Hlow. closed_arith.
Defined.

(** ** Periods *)

(** X7: for a non-negative time and a positive window, the period is the
    window the time falls in: [period * w <= t < (period + 1) * w]; later
    times have later or equal periods, and two times have the same period
    exactly when they fall in the same window. *)
Theorem GetReservationPeriod_chunks (t w : Z) :
  let period := GetReservationPeriod t w in
  0 <= t < 2 ^ 63 -> 0 < w ->
  (period * w <= t < (period + 1) * w)
  /\ (forall t', t <= t' < 2 ^ 63 -> period <= GetReservationPeriod t' w)
  /\ (forall t', 0 <= t' < 2 ^ 63 ->
        GetReservationPeriod t' w = period <-> period * w <= t' < (period + 1) * w).
Proof.
  intros period Ht Hw. subst period.
  assert (Hu : forall x, 0 <= x < 2 ^ 63 -> 0 <= x < modulus)
    by (intros x Hx; rewrite modulus_eq; lia).
  rewrite (GetReservationPeriod_nonneg t w (Hu t Ht) Hw).
  pose proof (Z.div_mod t w ltac:(lia)) as Hdm.
  pose proof (Z.mod_pos_bound t w Hw) as Hmb.
  split; [nia |]. split.
  - intros t' Ht'. rewrite (GetReservationPeriod_nonneg t' w (Hu t' ltac:(lia)) Hw).
    apply Z.div_le_mono; lia.
  - intros t' Ht'. rewrite (GetReservationPeriod_nonneg t' w (Hu t' Ht') Hw).
    pose proof (Z.div_mod t' w ltac:(lia)) as Hdm'.
    pose proof (Z.mod_pos_bound t' w Hw) as Hmb'.
    split.
    + intros Heq. rewrite <- Heq. nia.
    + intros [Hlo Hhi]. symmetry. apply (Z.div_unique_pos t' w (t / w) (t' - t / w * w)); lia.
Qed.

(** Second 90 with a window of 60 s lies in period 1, from second 60 to
    second 119. *)
Lemma GetReservationPeriod_chunks_witness :
  0 <= 90 < 2 ^ 63 /\ 0 < 60
  /\ GetReservationPeriod 90 60 * 60 <= 90 < (GetReservationPeriod 90 60 + 1) * 60.
Proof.
  assert (Ht : 0 <= 90 < 2 ^ 63) by closed_arith.
  assert (Hw : 0 < 60) by closed_arith.
  split; [exact Ht | split; [exact Hw |]].
  exact (proj1 (GetReservationPeriod_chunks 90 60 Ht Hw)).
Defined.

(** ** Admission over an arbitrary store *)

Section AdmissionProofs.

Context {Address : Type} (HexToAddress : string -> Address).
Context (IsActiveByNanosecond : ReservedPayment.t -> Z -> bool).
Context {S : Type} `{OffchainStore S}.

Implicit Types (m : Meterer Address) (header : PaymentMetadata.t)
  (reservation : ReservedPayment.t) (onDemandPayment : OnDemandPayment.t)
  (w : World Address S).

(** X8: [ServeReservationRequest] checks activity, quorums and period in that
    order before it touches the store: a request that fails one of them is
    refused with that check's error and the store and the log are as before;
    the request is accepted exactly when the three checks pass and
    [IncrementBinUsage] accepts. *)
Theorem ServeReservationRequest_checks m header reservation (symbolsCharged : Z)
    (quorumNumbers : list Z) (receivedAt : Z) w :
  let active := IsActiveByNanosecond reservation (PaymentMetadata.Timestamp header) in
  let quorums := ValidateQuorum m quorumNumbers (ReservedPayment.QuorumNumbers reservation) in
  let period :=
    GetReservationPeriodByNanosecond (PaymentMetadata.Timestamp header)
      (GetReservationWindow (ChainPaymentState m)) in
  let valid := ValidateReservationPeriod m reservation period receivedAt in
  let increment := IncrementBinUsage m header reservation symbolsCharged period w in
  let out := ServeReservationRequest IsActiveByNanosecond m header reservation
               symbolsCharged quorumNumbers receivedAt w in
  (active = false -> out = (Err (Errorf "reservation not active" []), w))
  /\ (active = true -> forall e, quorums = Err e ->
      out = (Err (Wrapf "invalid quorum for reservation: %w" e), w))
  /\ (active = true -> quorums = Ok tt -> valid = false ->
      out = (Err (Errorf "invalid reservation period for reservation" []), w))
  /\ (active = true -> quorums = Ok tt -> valid = true ->
      snd out = snd increment
      /\ forall e, fst increment = Err e -> fst out = Err (Wrapf "bin overflows: %w" e))
  /\ (fst out = Ok tt
      <-> active = true /\ quorums = Ok tt /\ valid = true /\ fst increment = Ok tt).
Proof.
  intros active quorums period valid increment out.
  subst out. unfold ServeReservationRequest, fail.
  fold active quorums period valid.
  destruct active; cbn [negb].
  2: { repeat split; intros; try discriminate; try reflexivity.
       match goal with Hx : _ /\ _ |- _ => destruct Hx; discriminate end. }
  destruct quorums as [[] | qe].
  2: { repeat split; intros; try discriminate; try reflexivity.
       - match goal with Hx : Err _ = Err _ |- _ => inversion Hx; reflexivity end.
       - match goal with Hx : _ /\ _ /\ _ |- _ => destruct Hx as (_ & ? & _); discriminate end. }
  destruct valid; cbn [negb].
  2: { repeat split; intros; try discriminate; try reflexivity.
       match goal with Hx : _ /\ _ /\ _ /\ _ |- _ =>
         destruct Hx as (_ & _ & ? & _); discriminate end. }
  subst increment. unfold bind, wrapping, ret.
  destruct (IncrementBinUsage m header reservation symbolsCharged period w)
    as [[[] | ie] w']; cbn [fst snd].
  - repeat split; intros; try discriminate; try reflexivity.
  - repeat split; intros; try discriminate; try reflexivity.
    + match goal with Hx : Err _ = Err _ |- _ => inversion Hx; reflexivity end.
    + match goal with Hx : _ /\ _ /\ _ /\ _ |- _ =>
        destruct Hx as (_ & _ & _ & ?); discriminate end.
Qed.

End AdmissionProofs.

Section OnDemandProofs.

Context {Address : Type}.
Context {S : Type} `{OffchainStore S}.

Implicit Types (m : Meterer Address) (header : PaymentMetadata.t)
  (onDemandPayment : OnDemandPayment.t) (w : World Address S).

(** [ServeOnDemandRequest] step by step. *)
Lemma ServeOnDemandRequest_steps m header onDemandPayment (symbolsCharged : Z)
    (headerQuorums : list Z) (receivedAt : Z) w :
  let account := PaymentMetadata.AccountID header in
  let payment := PaymentMetadata.CumulativePayment header in
  let w0 := {| store := store w; calls := calls w ++ [CallGetOnDemandQuorumNumbers] |} in
  ServeOnDemandRequest m header onDemandPayment symbolsCharged headerQuorums receivedAt w
  = match GetOnDemandQuorumNumbers (ChainPaymentState m) with
    | Err e => (Err (Wrapf "failed to get on-demand quorum numbers: %w" e), w0)
    | Ok allowed =>
        match ValidateQuorum m headerQuorums allowed with
        | Err e => (Err (Wrapf "invalid quorum for On-Demand Request: %w" e), w0)
        | Ok _ =>
            match ValidatePayment m header onDemandPayment symbolsCharged w0 with
            | (Err e, w1) => (Err (Wrapf "invalid on-demand payment: %w" e), w1)
            | (Ok _, w1) =>
                match store_call (CallAddOnDemandPayment header symbolsCharged)
                        (AddOnDemandPayment header symbolsCharged) w1 with
                | (Err e, w2) =>
                    (Err (Wrapf "failed to update cumulative payment: %w" e), w2)
                | (Ok _, w2) =>
                    match IncrementGlobalBinUsage m (wrap64 symbolsCharged) receivedAt w2 with
                    | (Ok _, w3) => (Ok tt, w3)
                    | (Err err, w3) =>
                        match store_call (CallRemoveOnDemandPayment account payment)
                                (RemoveOnDemandPayment account payment) w3 with
                        | (Err dbErr, w4) => (Err dbErr, w4)
                        | (Ok _, w4) =>
                            (Err (Wrapf "failed global rate limiting: %w" err), w4)
                        end
                    end
                end
            end
        end
    end.
Proof.
  intros account payment w0.
  unfold ServeOnDemandRequest. fold account payment.
  unfold bind at 1. unfold wrapping at 1. unfold chain_call. fold w0.
  destruct (GetOnDemandQuorumNumbers (ChainPaymentState m)) as [allowed | e];
    [| reflexivity].
  destruct (ValidateQuorum m headerQuorums allowed) as [[] | e]; [| reflexivity].
  unfold bind at 1. unfold wrapping at 1.
  destruct (ValidatePayment m header onDemandPayment symbolsCharged w0) as [[[] | e] w1];
    [| reflexivity].
  unfold bind at 1. unfold wrapping at 1.
  destruct (store_call _ _ w1) as [[[] | e] w2]; [| reflexivity].
  destruct (IncrementGlobalBinUsage m (wrap64 symbolsCharged) receivedAt w2)
    as [[[] | err] w3]; reflexivity.
Qed.

(** [ValidatePayment] accepts only after it has queried the store, once. *)
Lemma ValidatePayment_ok_log m header onDemandPayment (symbolsCharged : Z) w w1 :
  ValidatePayment m header onDemandPayment symbolsCharged w = (Ok tt, w1) ->
  calls w1
  = (calls w ++ [CallGetRelevantOnDemandRecords (PaymentMetadata.AccountID header)
                   (PaymentMetadata.CumulativePayment header)])%list.
Proof.
  unfold ValidatePayment, bind, wrapping, store_call, ret, fail.
  destruct (_ >? _); [discriminate |].
  destruct (GetRelevantOnDemandRecords _ _ (store w)) as [[[[p n] k] | e] s'];
    [| discriminate].
  destruct (_ >? _); [discriminate |].
  destruct (_ && _); [discriminate |].
  intros Heq. inversion Heq. reflexivity.
Qed.

(** [IncrementGlobalBinUsage] makes one call, whatever its verdict. *)
Lemma IncrementGlobalBinUsage_one_call m (symbolsCharged receivedAt : Z) w :
  calls (snd (IncrementGlobalBinUsage m symbolsCharged receivedAt w))
  = (calls w ++ [CallUpdateGlobalBin
                   (GetReservationPeriod receivedAt
                      (GetGlobalRatePeriodInterval (ChainPaymentState m)))
                   symbolsCharged])%list.
Proof.
  unfold IncrementGlobalBinUsage, bind, wrapping, store_call, ret, fail.
  destruct (UpdateGlobalBin _ _ (store w)) as [[u | e] s']; [| reflexivity].
  destruct (_ >? _); reflexivity.
Qed.

(** X9: [ServeOnDemandRequest] refuses with the error of the first step that
    fails (quorum lookup, quorum check, payment check, ledger insert), and
    nothing after that step runs: an invalid payment reaches neither the
    ledger nor the global bin.  It accepts exactly when all four steps and
    the global-bin increment succeed, and then it has made exactly the
    calls quorum lookup, neighbour query, insert, global-bin update. *)
Theorem ServeOnDemandRequest_checks m header onDemandPayment (symbolsCharged : Z)
    (headerQuorums : list Z) (receivedAt : Z) w :
  let chain := ChainPaymentState m in
  let account := PaymentMetadata.AccountID header in
  let payment := PaymentMetadata.CumulativePayment header in
  let period := GetReservationPeriod receivedAt (GetGlobalRatePeriodInterval chain) in
  let w0 := {| store := store w; calls := calls w ++ [CallGetOnDemandQuorumNumbers] |} in
  let insert := store_call (CallAddOnDemandPayment header symbolsCharged)
                  (AddOnDemandPayment header symbolsCharged) in
  let out := ServeOnDemandRequest m header onDemandPayment symbolsCharged headerQuorums
               receivedAt w in
  (forall e, GetOnDemandQuorumNumbers chain = Err e ->
     out = (Err (Wrapf "failed to get on-demand quorum numbers: %w" e), w0))
  /\ (forall allowed e,
        GetOnDemandQuorumNumbers chain = Ok allowed ->
        ValidateQuorum m headerQuorums allowed = Err e ->
        out = (Err (Wrapf "invalid quorum for On-Demand Request: %w" e), w0))
  /\ (forall allowed e w1,
        GetOnDemandQuorumNumbers chain = Ok allowed ->
        ValidateQuorum m headerQuorums allowed = Ok tt ->
        ValidatePayment m header onDemandPayment symbolsCharged w0 = (Err e, w1) ->
        out = (Err (Wrapf "invalid on-demand payment: %w" e), w1))
  /\ (forall allowed e w1 w2,
        GetOnDemandQuorumNumbers chain = Ok allowed ->
        ValidateQuorum m headerQuorums allowed = Ok tt ->
        ValidatePayment m header onDemandPayment symbolsCharged w0 = (Ok tt, w1) ->
        insert w1 = (Err e, w2) ->
        out = (Err (Wrapf "failed to update cumulative payment: %w" e), w2))
  /\ (fst out = Ok tt
      <-> exists allowed w1 w2,
            GetOnDemandQuorumNumbers chain = Ok allowed
            /\ ValidateQuorum m headerQuorums allowed = Ok tt
            /\ ValidatePayment m header onDemandPayment symbolsCharged w0 = (Ok tt, w1)
            /\ insert w1 = (Ok tt, w2)
            /\ IncrementGlobalBinUsage m (wrap64 symbolsCharged) receivedAt w2
               = (Ok tt, snd out))
  /\ (fst out = Ok tt ->
      calls (snd out)
      = (calls w ++ [CallGetOnDemandQuorumNumbers;
                     CallGetRelevantOnDemandRecords account payment;
                     CallAddOnDemandPayment header symbolsCharged;
                     CallUpdateGlobalBin period (wrap64 symbolsCharged)])%list).
Proof.
  intros chain account payment period w0 insert out.
  subst out. rewrite ServeOnDemandRequest_steps. fold chain account payment w0 insert.
  split; [intros e ->; reflexivity |].
  split; [intros allowed e -> ->; reflexivity |].
  split; [intros allowed e w1 -> -> ->; reflexivity |].
  split; [intros allowed e w1 w2 -> -> -> ->; reflexivity |].
  destruct (GetOnDemandQuorumNumbers chain) as [allowed | e].
  2: { split; [split; [discriminate | intros (? & ? & ? & Hx & _); discriminate]
              | discriminate]. }
  destruct (ValidateQuorum m headerQuorums allowed) as [[] | e] eqn:Hvq.
  2: { split; [split; [discriminate |] | discriminate].
       intros (a & ? & ? & Ha & Hx & _). inversion Ha; subst. congruence. }
  destruct (ValidatePayment m header onDemandPayment symbolsCharged w0)
    as [[[] | e] w1] eqn:Hvp.
  2: { split; [split; [discriminate |] | discriminate].
       intros (a & ? & ? & _ & _ & Hx & _). discriminate. }
  destruct (insert w1) as [[[] | e] w2] eqn:Hins.
  2: { split; [split; [discriminate |] | discriminate].
       intros (a & w1' & ? & _ & _ & Hx & Hy & _). inversion Hx; subst. congruence. }
  pose proof (IncrementGlobalBinUsage_one_call m (wrap64 symbolsCharged) receivedAt w2)
    as Hlog.
  destruct (IncrementGlobalBinUsage m (wrap64 symbolsCharged) receivedAt w2)
    as [[[] | err] w3] eqn:Hinc.
  - cbn [fst snd] in *. split.
    + split; [intros _; exists allowed, w1, w2; auto |reflexivity].
    + intros _. rewrite Hlog. subst insert. unfold store_call in Hins.
      destruct (AddOnDemandPayment header symbolsCharged (store w1)) as [r s2].
      inversion Hins; subst. cbn [calls].
      rewrite (ValidatePayment_ok_log _ _ _ _ _ _ Hvp). subst w0. cbn [calls].
      fold account payment chain period. rewrite <- !app_assoc. reflexivity.
  - destruct (store_call _ _ w3) as [[[] | dbErr] w4]; cbn [fst snd].
    + split; [split; [discriminate |] | discriminate].
      intros (a & w1' & w2' & _ & _ & Hx & Hy & Hz).
      inversion Hx; subst. rewrite Hins in Hy. inversion Hy; subst.
      rewrite Hinc in Hz. discriminate.
    + split; [split; [discriminate |] | discriminate].
      intros (a & w1' & w2' & _ & _ & Hx & Hy & Hz).
      inversion Hx; subst. rewrite Hins in Hy. inversion Hy; subst.
      rewrite Hinc in Hz. discriminate.
Qed.

End OnDemandProofs.

(** ** Effects on the in-memory store *)

Section MemStoreEffects.

Context {Address : Type}.

Implicit Types (m : Meterer Address) (header : PaymentMetadata.t)
  (reservation : ReservedPayment.t) (onDemandPayment : OnDemandPayment.t)
  (w : World Address MemStore.t) (s : MemStore.t).

Lemma updateReservationBin_frame (account : string) (period size : Z) s :
  MemStore.globalBins (snd (MemStore.updateReservationBin account period size s))
  = MemStore.globalBins s
  /\ MemStore.ledger (snd (MemStore.updateReservationBin account period size s))
     = MemStore.ledger s.
Proof.
  unfold MemStore.updateReservationBin.
  pose proof (take_fault_data s) as (_ & Hg & Hl).
  destruct (MemStore.take_fault s) as [[e |] s']; cbn [snd] in *; cbn; auto.
Qed.

Lemma updateGlobalBin_frame (period size : Z) s :
  MemStore.reservationBins (snd (MemStore.updateGlobalBin period size s))
  = MemStore.reservationBins s.
Proof.
  unfold MemStore.updateGlobalBin.
  pose proof (take_fault_data s) as (Hb & _ & _).
  destruct (MemStore.take_fault s) as [[e |] s']; cbn [snd] in *; cbn; auto.
Qed.

Lemma updateGlobalBin_ok (period size usage : Z) s s1 :
  MemStore.updateGlobalBin period size s = (Ok usage, s1) ->
  usage = wrap64 (default 0 (MemStore.globalBins s !! period) + size)
  /\ MemStore.globalBins s1 = <[period := usage]> (MemStore.globalBins s).
Proof.
  unfold MemStore.updateGlobalBin.
  pose proof (take_fault_data s) as (_ & Hg & _).
  destruct (MemStore.take_fault s) as [[e |] s']; cbn [snd] in Hg; intros Heq;
    inversion Heq; subst; cbn. rewrite Hg. auto.
Qed.

Lemma addOnDemandPayment_frame header (size : Z) s :
  MemStore.reservationBins (snd (MemStore.addOnDemandPayment header size s))
  = MemStore.reservationBins s
  /\ MemStore.globalBins (snd (MemStore.addOnDemandPayment header size s))
     = MemStore.globalBins s.
Proof.
  unfold MemStore.addOnDemandPayment.
  pose proof (take_fault_data s) as (Hb & Hg & _).
  destruct (MemStore.take_fault s) as [[e |] s']; cbn [snd] in *; [auto |].
  destruct (MemStore.ledger s' !! _); cbn; auto.
Qed.

Lemma removeOnDemandPayment_frame (account : string) (payment : Z) s :
  MemStore.reservationBins (snd (MemStore.removeOnDemandPayment account payment s))
  = MemStore.reservationBins s
  /\ MemStore.globalBins (snd (MemStore.removeOnDemandPayment account payment s))
     = MemStore.globalBins s.
Proof.
  unfold MemStore.removeOnDemandPayment.
  pose proof (take_fault_data s) as (Hb & Hg & _).
  destruct (MemStore.take_fault s) as [[e |] s']; cbn [snd] in *; cbn; auto.
Qed.

Lemma getRelevantOnDemandRecords_frame (account : string) (payment : Z) s :
  MemStore.reservationBins (snd (MemStore.getRelevantOnDemandRecords account payment s))
  = MemStore.reservationBins s
  /\ MemStore.globalBins (snd (MemStore.getRelevantOnDemandRecords account payment s))
     = MemStore.globalBins s.
Proof.
  unfold MemStore.getRelevantOnDemandRecords.
  pose proof (take_fault_data s) as (Hb & Hg & _).
  destruct (MemStore.take_fault s) as [[e |] s']; cbn [snd] in *; cbn; auto.
Qed.

Lemma store_of_store_call {A} (c : Call Address) (op : MemStore.t -> result A * MemStore.t) w :
  store (snd (store_call c op w)) = snd (op (store w)).
Proof. unfold store_call. destruct (op (store w)); reflexivity. Qed.

(** [ValidatePayment] reads the store and changes no bin. *)
Lemma ValidatePayment_mem_frame m header onDemandPayment (symbolsCharged : Z) w :
  MemStore.reservationBins (store (snd (ValidatePayment m header onDemandPayment
                                          symbolsCharged w)))
  = MemStore.reservationBins (store w)
  /\ MemStore.globalBins (store (snd (ValidatePayment m header onDemandPayment
                                        symbolsCharged w)))
     = MemStore.globalBins (store w).
Proof.
  unfold ValidatePayment, fail.
  destruct (_ >? _); [auto |].
  pose proof (getRelevantOnDemandRecords_frame (PaymentMetadata.AccountID header)
                (PaymentMetadata.CumulativePayment header) (store w)) as Hframe.
  unfold bind, wrapping, store_call, ret.
  change (GetRelevantOnDemandRecords (S := MemStore.t))
    with MemStore.getRelevantOnDemandRecords.
  destruct (MemStore.getRelevantOnDemandRecords _ _ (store w)) as [[[[p n] k] | e] s'];
    cbn [snd] in Hframe; [| exact Hframe].
  destruct (_ >? _); [exact Hframe |].
  destruct (_ && _); exact Hframe.
Qed.

(** What an accepted on-demand request has done to the store. *)
Lemma ServeOnDemandRequest_mem_accepted m header onDemandPayment (symbolsCharged : Z)
    (headerQuorums : list Z) (receivedAt : Z) w :
  let chain := ChainPaymentState m in
  let key := (PaymentMetadata.AccountID header, PaymentMetadata.CumulativePayment header) in
  let period := GetReservationPeriod receivedAt (GetGlobalRatePeriodInterval chain) in
  let usage :=
    wrap64 (default 0 (MemStore.globalBins (store w) !! period) + wrap64 symbolsCharged) in
  let out := ServeOnDemandRequest m header onDemandPayment symbolsCharged headerQuorums
               receivedAt w in
  fst out = Ok tt ->
  MemStore.ledger (store w) !! key = None
  /\ MemStore.ledger (store (snd out)) = <[key := symbolsCharged]> (MemStore.ledger (store w))
  /\ MemStore.globalBins (store (snd out))
     = <[period := usage]> (MemStore.globalBins (store w))
  /\ usage <= wrap64 (GetGlobalSymbolsPerSecond chain
                      * wrap64 (GetGlobalRatePeriodInterval chain))
  /\ MemStore.reservationBins (store (snd out)) = MemStore.reservationBins (store w).
Proof.
  intros chain key period usage out Hacc.
  pose proof (ServeOnDemandRequest_steps m header onDemandPayment symbolsCharged
                headerQuorums receivedAt w) as Hout.
  fold out in Hout. cbv zeta in Hout.
  set (w0 := {| store := store w; calls := calls w ++ [CallGetOnDemandQuorumNumbers] |})
    in Hout.
  destruct (GetOnDemandQuorumNumbers (ChainPaymentState m)) as [allowed | e];
    [| rewrite Hout in Hacc; discriminate].
  destruct (ValidateQuorum m headerQuorums allowed) as [[] | e];
    [| rewrite Hout in Hacc; discriminate].
  pose proof (ValidatePayment_mem m header onDemandPayment symbolsCharged w0) as [_ Hl1].
  pose proof (ValidatePayment_mem_frame m header onDemandPayment symbolsCharged w0)
    as [Hb1 Hg1].
  destruct (ValidatePayment m header onDemandPayment symbolsCharged w0) as [[[] | e] w1];
    [| rewrite Hout in Hacc; discriminate].
  cbn [snd] in Hl1, Hb1, Hg1. change (store w0) with (store w) in Hl1, Hb1, Hg1.
  pose proof (addOnDemandPayment_frame header symbolsCharged (store w1)) as [Hb2 Hg2].
  unfold store_call at 1 in Hout.
  change (AddOnDemandPayment (S := MemStore.t)) with MemStore.addOnDemandPayment in Hout.
  destruct (MemStore.addOnDemandPayment header symbolsCharged (store w1))
    as [[[] | e] s2] eqn:Hadd; [| rewrite Hout in Hacc; discriminate].
  cbn [snd] in Hb2, Hg2.
  apply addOnDemandPayment_ok in Hadd as [Hfree Hl2]. cbn zeta in Hfree, Hl2.
  rewrite IncrementGlobalBinUsage_after_update in Hout. fold chain period in Hout.
  pose proof (updateGlobalBin_frame period (wrap64 symbolsCharged) s2) as Hb3.
  pose proof (updateGlobalBin_ledger period (wrap64 symbolsCharged) s2) as Hl3.
  unfold store_call at 1 2 in Hout. cbn [store calls] in Hout.
  change (UpdateGlobalBin (S := MemStore.t)) with MemStore.updateGlobalBin in Hout.
  destruct (MemStore.updateGlobalBin period (wrap64 symbolsCharged) s2)
    as [[u | e] s3] eqn:Hup; cbn [fst snd store] in *.
  2: { destruct (store_call _ _ _) as [[[] | dbErr] w4]; rewrite Hout in Hacc;
         discriminate. }
  apply updateGlobalBin_ok in Hup as [Hu Hg3].
  rewrite Z.gtb_ltb in Hout.
  destruct (Z.ltb_spec (wrap64 (GetGlobalSymbolsPerSecond chain
                                * wrap64 (GetGlobalRatePeriodInterval chain))) u)
    as [Hover | Hfit].
  { destruct (store_call _ _ _) as [[[] | dbErr] w4]; rewrite Hout in Hacc;
      discriminate. }
  rewrite Hout. cbn [snd store].
  rewrite Hg2, Hg1 in Hu, Hg3. fold usage in Hu. subst u.
  rewrite Hl1 in Hfree, Hl2.
  repeat split.
  - exact Hfree.
  - now rewrite Hl3, Hl2.
  - exact Hg3.
  - exact Hfit.
  - now rewrite Hb3, Hb2, Hb1.
Qed.

(** X10: an accepted on-demand request has recorded its payment: the ledger
    had no entry at [(accountId, cumulativePayment)] before, holds the
    charged symbols there afterwards and is unchanged elsewhere; the global
    bin of the period has grown by the charged symbols and is within the cap;
    no reservation bin has changed. *)
Theorem ServeOnDemandRequest_records_payment m header onDemandPayment
    (symbolsCharged : Z) (headerQuorums : list Z) (receivedAt : Z) w :
  let chain := ChainPaymentState m in
  let key := (PaymentMetadata.AccountID header, PaymentMetadata.CumulativePayment header) in
  let period := GetReservationPeriod receivedAt (GetGlobalRatePeriodInterval chain) in
  let usage :=
    wrap64 (default 0 (MemStore.globalBins (store w) !! period) + wrap64 symbolsCharged) in
  let out := ServeOnDemandRequest m header onDemandPayment symbolsCharged headerQuorums
               receivedAt w in
  fst out = Ok tt ->
  MemStore.ledger (store w) !! key = None
  /\ MemStore.ledger (store (snd out)) !! key = Some symbolsCharged
  /\ (forall k, k <> key ->
        MemStore.ledger (store (snd out)) !! k = MemStore.ledger (store w) !! k)
  /\ MemStore.globalBins (store (snd out)) !! period = Some usage
  /\ usage <= wrap64 (GetGlobalSymbolsPerSecond chain
                      * wrap64 (GetGlobalRatePeriodInterval chain))
  /\ MemStore.reservationBins (store (snd out)) = MemStore.reservationBins (store w).
Proof.
  intros chain key period usage out Hacc.
  destruct (ServeOnDemandRequest_mem_accepted m header onDemandPayment symbolsCharged
              headerQuorums receivedAt w Hacc) as (Hfree & Hl & Hg & Hcap & Hb).
  fold chain key period usage out in Hfree, Hl, Hg, Hcap, Hb.
  repeat split; try assumption.
  - rewrite Hl. apply lookup_insert_eq.
  - intros k Hk. rewrite Hl. apply lookup_insert_ne. congruence.
  - rewrite Hg. apply lookup_insert_eq.
Qed.

(** X11: a payment that is already in the ledger is never accepted again,
    whatever the quorums, the deposit and the state of the bins. *)
Theorem ServeOnDemandRequest_refuses_duplicate m header onDemandPayment
    (symbolsCharged : Z) (headerQuorums : list Z) (receivedAt : Z) w (recorded : Z) :
  MemStore.ledger (store w)
    !! (PaymentMetadata.AccountID header, PaymentMetadata.CumulativePayment header)
  = Some recorded ->
  is_ok (fst (ServeOnDemandRequest m header onDemandPayment symbolsCharged headerQuorums
                receivedAt w)) = false.
Proof.
  intros Hdup.
  destruct (fst (ServeOnDemandRequest m header onDemandPayment symbolsCharged
                   headerQuorums receivedAt w)) as [[] | e] eqn:Hout; [| reflexivity].
  destruct (ServeOnDemandRequest_mem_accepted m header onDemandPayment symbolsCharged
              headerQuorums receivedAt w Hout) as (Hfree & _).
  cbv zeta in Hfree. congruence.
Qed.

End MemStoreEffects.

(** Scenario 4: payment 60 for 6 charged symbols on an empty ledger. *)
Lemma ServeOnDemandRequest_records_payment_witness :
  let out := ServeOnDemandRequest Scenario.meterer (Scenario.request 60) Scenario.deposit
               6 [0] 30 (Scenario.world Scenario.empty) in
  fst out = Ok tt
  /\ MemStore.ledger (store (snd out)) !! ("acct", 60) = Some 6
  /\ MemStore.globalBins (store (snd out)) !! 30 = Some 6.
Proof.
  intros out.
  assert (Hacc : fst out = Ok tt) by (vm_compute; reflexivity).
  split; [exact Hacc |].
  destruct (ServeOnDemandRequest_records_payment Scenario.meterer (Scenario.request 60)
              Scenario.deposit 6 [0] 30 (Scenario.world Scenario.empty) Hacc)
    as (_ & Hl & _ & Hg & _).
  split; [exact Hl | exact Hg].
Defined.

(** Scenario 6 with the payment of 500 sent again. *)
Lemma ServeOnDemandRequest_refuses_duplicate_witness :
  MemStore.ledger (store (Scenario.world Scenario.ledger500)) !! ("acct", 500) = Some 6
  /\ is_ok (fst (ServeOnDemandRequest Scenario.meterer (Scenario.request 500)
                   Scenario.deposit 6 [0] 30 (Scenario.world Scenario.ledger500)))
     = false.
Proof.
  assert (Hdup : MemStore.ledger (store (Scenario.world Scenario.ledger500))
                   !! (PaymentMetadata.AccountID (Scenario.request 500),
                       PaymentMetadata.CumulativePayment (Scenario.request 500))
                 = Some 6) by (vm_compute; reflexivity).
  split; [exact Hdup |].
  exact (ServeOnDemandRequest_refuses_duplicate Scenario.meterer (Scenario.request 500)
           Scenario.deposit 6 [0] 30 (Scenario.world Scenario.ledger500) 6 Hdup).
Defined.

(** ** A store without failures *)

Section HealthyStore.

Context {Address : Type}.

Implicit Types (m : Meterer Address) (header : PaymentMetadata.t)
  (reservation : ReservedPayment.t) (onDemandPayment : OnDemandPayment.t)
  (w : World Address MemStore.t) (s : MemStore.t).

Lemma take_fault_healthy s : MemStore.faults s = [] -> MemStore.take_fault s = (None, s).
Proof. intros Hf. unfold MemStore.take_fault. now rewrite Hf. Qed.

Lemma updateReservationBin_healthy (account : string) (period size : Z) s :
  MemStore.faults s = [] ->
  exists s1,
    MemStore.updateReservationBin account period size s
    = (Ok (wrap64 (default 0 (MemStore.reservationBins s !! (account, period)) + size)), s1)
    /\ MemStore.faults s1 = []
    /\ MemStore.reservationBins s1
       = <[(account, period)
           := wrap64 (default 0 (MemStore.reservationBins s !! (account, period)) + size)]>
           (MemStore.reservationBins s).
Proof.
  intros Hf. unfold MemStore.updateReservationBin. rewrite (take_fault_healthy s Hf).
  eexists. split; [reflexivity |]. cbn. auto.
Qed.

Lemma wrap64_plus_two_neq (p : Z) : 0 <= p < modulus -> wrap64 (p + 2) <> p.
Proof.
  intros Hp. destruct (Z.lt_ge_cases (p + 2) modulus).
  - rewrite wrap64_small; lia.
  - rewrite wrap64_once; rewrite modulus_eq in *; lia.
Qed.

(** X12: with a store that does not fail, [IncrementBinUsage] leaves the
    primary bin at the new usage whether it accepts or refuses (a refused
    request still counts against its bin); it accepts exactly when the new
    usage is within the limit or the carry applies, and in the carry case it
    adds the excess over the limit to the bin two periods later. *)
Theorem IncrementBinUsage_healthy_effect m header reservation
    (symbolsCharged period : Z) w :
  let account := PaymentMetadata.AccountID header in
  let usageLimit := GetReservationBinLimit m reservation in
  let endPeriod :=
    GetReservationPeriod (to_int64 (ReservedPayment.EndTimestamp reservation))
      (GetReservationWindow (ChainPaymentState m)) in
  let bins := MemStore.reservationBins (store w) in
  let newUsage := wrap64 (default 0 (bins !! (account, period)) + symbolsCharged) in
  let period2 := wrap64 (period + 2) in
  let excess := wrap64 (newUsage - usageLimit) in
  let carries :=
    (usageLimit <? newUsage) && (wrap64 (newUsage - symbolsCharged) <? usageLimit)
    && (newUsage <=? wrap64 (2 * usageLimit)) && (period2 <=? endPeriod) in
  let out := IncrementBinUsage m header reservation symbolsCharged period w in
  MemStore.faults (store w) = [] ->
  0 <= period < modulus ->
  (fst out = Ok tt <-> newUsage <= usageLimit \/ carries = true)
  /\ MemStore.reservationBins (store (snd out))
     = (if carries
        then <[(account, period2) := wrap64 (default 0 (bins !! (account, period2)) + excess)]>
               (<[(account, period) := newUsage]> bins)
        else <[(account, period) := newUsage]> bins)
  /\ MemStore.reservationBins (store (snd out)) !! (account, period) = Some newUsage.
Proof.
  intros account usageLimit endPeriod bins newUsage period2 excess carries out Hf Hp.
  destruct (updateReservationBin_healthy account period symbolsCharged (store w) Hf)
    as (s1 & Hup & Hf1 & Hb1).
  fold bins newUsage in Hup, Hb1.
  destruct (updateReservationBin_healthy account period2 excess s1 Hf1)
    as (s2 & Hcarry & _ & Hb2).
  rewrite Hb1 in Hcarry, Hb2.
  assert (Hne : (account, period) <> (account, period2)).
  { intros Heq. inversion Heq as [Hpp]. symmetry in Hpp.
    exact (wrap64_plus_two_neq period Hp Hpp). }
  rewrite (lookup_insert_ne _ _ _ _ Hne) in Hcarry, Hb2.
  assert (Hout : out = IncrementBinUsage m header reservation symbolsCharged period w)
    by reflexivity.
  assert (Hup' : UpdateReservationBin (PaymentMetadata.AccountID header) period
                   symbolsCharged (store w) = (Ok newUsage, s1)) by exact Hup.
  rewrite (IncrementBinUsage_after_update m header reservation symbolsCharged period w
             newUsage s1 Hup') in Hout.
  fold account usageLimit endPeriod period2 excess in Hout. cbv zeta in Hout.
  change (UpdateReservationBin (S := MemStore.t)) with MemStore.updateReservationBin in Hout.
  rewrite Hcarry in Hout. cbn [fst snd] in Hout.
  rewrite Z.geb_leb in Hout. subst carries.
  destruct (Z.leb_spec newUsage usageLimit) as [H1 | H1].
  { destruct (Z.ltb_spec usageLimit newUsage); [lia |]. cbn [andb].
    rewrite Hout. cbn [fst snd store]. rewrite Hb1.
    repeat split; auto. apply lookup_insert_eq. }
  destruct (Z.ltb_spec usageLimit newUsage); [| lia]. cbn [andb].
  destruct (Z.leb_spec usageLimit (wrap64 (newUsage - symbolsCharged))) as [H2 | H2].
  { destruct (Z.ltb_spec (wrap64 (newUsage - symbolsCharged)) usageLimit); [lia |].
    cbn [andb]. rewrite Hout. cbn [fst snd store]. rewrite Hb1.
    repeat split; try discriminate; try (apply lookup_insert_eq); try reflexivity.
    intros [? | ?]; [lia | discriminate]. }
  destruct (Z.ltb_spec (wrap64 (newUsage - symbolsCharged)) usageLimit); [| lia].
  cbn [andb].
  destruct ((newUsage <=? wrap64 (2 * usageLimit)) && (period2 <=? endPeriod)) eqn:Hc.
  - rewrite Hout. cbn [fst snd store]. rewrite Hb2.
    repeat split; auto.
    rewrite (lookup_insert_ne _ _ _ _ (not_eq_sym Hne)). apply lookup_insert_eq.
  - rewrite Hout. cbn [fst snd store]. rewrite Hb1.
    repeat split; try discriminate; try (apply lookup_insert_eq); try reflexivity.
    intros [? | ?]; [lia | discriminate].
Qed.

End HealthyStore.

(** Scenario 3: 402 symbols on a bin loaded with 295 of 300 are refused, and
    the bin stands at 697. *)
Lemma IncrementBinUsage_healthy_effect_witness :
  let out := IncrementBinUsage Scenario.meterer (Scenario.request 0) Scenario.reservation
               402 0 (Scenario.world Scenario.bin295) in
  MemStore.faults (store (Scenario.world Scenario.bin295)) = []
  /\ 0 <= 0 < modulus
  /\ fst out = Err (Errorf "overflow usage exceeds bin limit" [])
  /\ MemStore.reservationBins (store (snd out)) !! ("acct", 0) = Some 697.
Proof.
  intros out.
  assert (Hf : MemStore.faults (store (Scenario.world Scenario.bin295)) = [])
    by reflexivity.
  assert (Hp : 0 <= 0 < modulus) by closed_arith.
  split; [exact Hf | split; [exact Hp |]].
  split; [vm_compute; reflexivity |].
  destruct (IncrementBinUsage_healthy_effect Scenario.meterer (Scenario.request 0)
              Scenario.reservation 402 0 (Scenario.world Scenario.bin295) Hf Hp)
    as (_ & _ & Hbin).
  exact Hbin.
Defined.

Section HealthyOnDemand.

Context {Address : Type}.

Implicit Types (m : Meterer Address) (header : PaymentMetadata.t)
  (onDemandPayment : OnDemandPayment.t) (w : World Address MemStore.t) (s : MemStore.t).

Lemma addOnDemandPayment_healthy header (size : Z) s :
  MemStore.faults s = [] ->
  MemStore.ledger s
    !! (PaymentMetadata.AccountID header, PaymentMetadata.CumulativePayment header) = None ->
  MemStore.addOnDemandPayment header size s
  = (Ok tt,
     {| MemStore.reservationBins := MemStore.reservationBins s;
        MemStore.globalBins := MemStore.globalBins s;
        MemStore.ledger :=
          <[(PaymentMetadata.AccountID header, PaymentMetadata.CumulativePayment header)
            := size]> (MemStore.ledger s);
        MemStore.faults := MemStore.faults s |}).
Proof.
  intros Hf Hfree. unfold MemStore.addOnDemandPayment.
  rewrite (take_fault_healthy s Hf), Hfree. reflexivity.
Qed.

Lemma updateGlobalBin_healthy (period size : Z) s :
  MemStore.faults s = [] ->
  MemStore.updateGlobalBin period size s
  = (Ok (wrap64 (default 0 (MemStore.globalBins s !! period) + size)),
     {| MemStore.reservationBins := MemStore.reservationBins s;
        MemStore.globalBins :=
          <[period := wrap64 (default 0 (MemStore.globalBins s !! period) + size)]>
            (MemStore.globalBins s);
        MemStore.ledger := MemStore.ledger s;
        MemStore.faults := MemStore.faults s |}).
Proof.
  intros Hf. unfold MemStore.updateGlobalBin. rewrite (take_fault_healthy s Hf).
  reflexivity.
Qed.

Lemma removeOnDemandPayment_healthy (account : string) (payment : Z) s :
  MemStore.faults s = [] ->
  MemStore.removeOnDemandPayment account payment s
  = (Ok tt,
     {| MemStore.reservationBins := MemStore.reservationBins s;
        MemStore.globalBins := MemStore.globalBins s;
        MemStore.ledger := delete (account, payment) (MemStore.ledger s);
        MemStore.faults := MemStore.faults s |}).
Proof.
  intros Hf. unfold MemStore.removeOnDemandPayment. rewrite (take_fault_healthy s Hf).
  reflexivity.
Qed.

(** With a store that does not fail, an accepting [ValidatePayment] leaves
    the store as it is. *)
Lemma ValidatePayment_healthy_ok m header onDemandPayment (symbolsCharged : Z) w :
  MemStore.faults (store w) = [] ->
  fst (ValidatePayment m header onDemandPayment symbolsCharged w) = Ok tt ->
  ValidatePayment m header onDemandPayment symbolsCharged w
  = (Ok tt,
     {| store := store w;
        calls := calls w
                 ++ [CallGetRelevantOnDemandRecords (PaymentMetadata.AccountID header)
                       (PaymentMetadata.CumulativePayment header)] |}).
Proof.
  intros Hf.
  assert (Hq : GetRelevantOnDemandRecords (PaymentMetadata.AccountID header)
                 (PaymentMetadata.CumulativePayment header) (store w)
               = (Ok (MemStore.neighbours (PaymentMetadata.AccountID header)
                        (PaymentMetadata.CumulativePayment header)
                        (MemStore.ledger (store w))), store w)).
  { cbn. unfold MemStore.getRelevantOnDemandRecords.
    now rewrite (take_fault_healthy (store w) Hf). }
  destruct (MemStore.neighbours _ _ _) as [[p n] k].
  rewrite (ValidatePayment_after_query m header onDemandPayment symbolsCharged w
             p n k (store w) Hq).
  destruct (_ >? _); [discriminate |].
  destruct (_ >? _); [discriminate |].
  destruct (_ && _); [discriminate | reflexivity].
Qed.

(** X13: with a store that does not fail, a request that passed the quorum
    and payment checks at a free ledger position always adds its charged
    symbols to the global bin; it is accepted, and recorded in the ledger,
    exactly when the new usage is within the cap.  When it is refused for
    the global rate the ledger is back as it was, but the global bin keeps
    the increment. *)
Theorem ServeOnDemandRequest_global_rate m header onDemandPayment (symbolsCharged : Z)
    (headerQuorums : list Z) (receivedAt : Z) w (allowed : list Z) :
  let chain := ChainPaymentState m in
  let key := (PaymentMetadata.AccountID header, PaymentMetadata.CumulativePayment header) in
  let period := GetReservationPeriod receivedAt (GetGlobalRatePeriodInterval chain) in
  let usage :=
    wrap64 (default 0 (MemStore.globalBins (store w) !! period) + wrap64 symbolsCharged) in
  let cap := wrap64 (GetGlobalSymbolsPerSecond chain
                     * wrap64 (GetGlobalRatePeriodInterval chain)) in
  let w0 := {| store := store w; calls := calls w ++ [CallGetOnDemandQuorumNumbers] |} in
  let out := ServeOnDemandRequest m header onDemandPayment symbolsCharged headerQuorums
               receivedAt w in
  MemStore.faults (store w) = [] ->
  GetOnDemandQuorumNumbers chain = Ok allowed ->
  ValidateQuorum m headerQuorums allowed = Ok tt ->
  fst (ValidatePayment m header onDemandPayment symbolsCharged w0) = Ok tt ->
  MemStore.ledger (store w) !! key = None ->
  MemStore.globalBins (store (snd out))
  = <[period := usage]> (MemStore.globalBins (store w))
  /\ (usage <= cap ->
      fst out = Ok tt
      /\ MemStore.ledger (store (snd out))
         = <[key := symbolsCharged]> (MemStore.ledger (store w)))
  /\ (cap < usage ->
      fst out = Err (Wrapf "failed global rate limiting: %w"
                       (Errorf "global bin usage overflows" []))
      /\ MemStore.ledger (store (snd out)) = MemStore.ledger (store w)).
Proof.
  intros chain key period usage cap w0 out Hf Hq Hvq Hvp Hfree.
  assert (Hout : out = ServeOnDemandRequest m header onDemandPayment symbolsCharged
                         headerQuorums receivedAt w) by reflexivity.
  rewrite ServeOnDemandRequest_steps in Hout. cbv zeta in Hout. fold chain in Hout.
  rewrite Hq, Hvq in Hout. subst w0.
  rewrite (ValidatePayment_healthy_ok m header onDemandPayment symbolsCharged
             {| store := store w; calls := calls w ++ [CallGetOnDemandQuorumNumbers] |}
             Hf Hvp) in Hout.
  unfold store_call at 1 in Hout. cbn [store calls] in Hout.
  change (AddOnDemandPayment (S := MemStore.t)) with MemStore.addOnDemandPayment in Hout.
  rewrite (addOnDemandPayment_healthy header symbolsCharged (store w) Hf Hfree) in Hout.
  rewrite IncrementGlobalBinUsage_after_update in Hout. fold chain period in Hout.
  unfold store_call in Hout. cbn [store calls fst snd] in Hout.
  change (UpdateGlobalBin (S := MemStore.t)) with MemStore.updateGlobalBin in Hout.
  change (RemoveOnDemandPayment (S := MemStore.t)) with MemStore.removeOnDemandPayment
    in Hout.
  rewrite updateGlobalBin_healthy in Hout by exact Hf.
  cbn [store calls fst snd MemStore.globalBins] in Hout. fold usage cap in Hout.
  rewrite Z.gtb_ltb in Hout.
  destruct (Z.ltb_spec cap usage) as [Hover | Hfit].
  - rewrite removeOnDemandPayment_healthy in Hout by exact Hf.
    rewrite Hout. cbn [fst snd store MemStore.globalBins MemStore.ledger].
    split; [reflexivity |]. split; [lia |].
    intros _. split; [reflexivity |]. apply delete_insert_id. exact Hfree.
  - rewrite Hout. cbn [fst snd store MemStore.globalBins MemStore.ledger].
    split; [reflexivity |]. split; [| lia]. intros _. split; reflexivity.
Qed.

End HealthyOnDemand.

(** 201 charged symbols against a global cap of 100: refused, the ledger
    stays empty and the global bin of second 30 stands at 201. *)
Lemma ServeOnDemandRequest_global_rate_witness :
  let w := Scenario.world Scenario.empty in
  let w0 := {| store := store w; calls := calls w ++ [CallGetOnDemandQuorumNumbers] |} in
  let out := ServeOnDemandRequest Scenario.meterer (Scenario.request 5000) Scenario.deposit
               201 [0] 30 w in
  MemStore.faults (store w) = []
  /\ fst (ValidatePayment Scenario.meterer (Scenario.request 5000) Scenario.deposit 201 w0)
     = Ok tt
  /\ MemStore.ledger (store w) !! ("acct", 5000) = None
  /\ MemStore.globalBins (store (snd out)) !! 30 = Some 201
  /\ is_ok (fst out) = false.
Proof.
  intros w w0 out.
  assert (Hf : MemStore.faults (store w) = []) by reflexivity.
  assert (Hvp : fst (ValidatePayment Scenario.meterer (Scenario.request 5000)
                       Scenario.deposit 201 w0) = Ok tt) by (vm_compute; reflexivity).
  assert (Hfree : MemStore.ledger (store w)
                    !! (PaymentMetadata.AccountID (Scenario.request 5000),
                        PaymentMetadata.CumulativePayment (Scenario.request 5000)) = None)
    by (vm_compute; reflexivity).
  split; [exact Hf | split; [exact Hvp | split; [exact Hfree |]]].
  destruct (ServeOnDemandRequest_global_rate Scenario.meterer (Scenario.request 5000)
              Scenario.deposit 201 [0] 30 w [0; 1] Hf eq_refl eq_refl Hvp Hfree)
    as (Hbin & _ & Hrefused).
  split.
  - fold out in Hbin. rewrite Hbin. vm_compute. reflexivity.
  - fold out in Hrefused. destruct Hrefused as [Herr _]; [closed_arith |].
    rewrite Herr. reflexivity.
Defined.

(** ** The coordinator and the two halves of the store *)

Section CoordinatorProofs.

Context {Address : Type} (HexToAddress : string -> Address).
Context (IsActiveByNanosecond : ReservedPayment.t -> Z -> bool).

Implicit Types (m : Meterer Address) (header : PaymentMetadata.t)
  (reservation : ReservedPayment.t) (onDemandPayment : OnDemandPayment.t)
  (w : World Address MemStore.t).

Lemma IncrementBinUsage_mem_frame m header reservation (symbolsCharged period : Z) w :
  MemStore.globalBins
    (store (snd (IncrementBinUsage m header reservation symbolsCharged period w)))
  = MemStore.globalBins (store w)
  /\ MemStore.ledger
       (store (snd (IncrementBinUsage m header reservation symbolsCharged period w)))
     = MemStore.ledger (store w).
Proof.
  pose proof (updateReservationBin_frame (PaymentMetadata.AccountID header) period
                symbolsCharged (store w)) as [Hg1 Hl1].
  destruct (UpdateReservationBin (PaymentMetadata.AccountID header) period symbolsCharged
              (store w)) as [[newUsage | e] st1] eqn:Hup.
  - rewrite (IncrementBinUsage_after_update m header reservation symbolsCharged period w
               newUsage st1 Hup).
    change (UpdateReservationBin (S := MemStore.t)) with MemStore.updateReservationBin
      in Hup.
    rewrite Hup in Hg1, Hl1. cbn [snd] in Hg1, Hl1.
    destruct (_ <=? _); [cbn; auto |].
    destruct (_ >=? _); [cbn; auto |].
    destruct (_ && _); [| cbn; auto].
    cbv zeta. cbn [snd store].
    pose proof (updateReservationBin_frame (PaymentMetadata.AccountID header)
                  (wrap64 (period + 2))
                  (wrap64 (newUsage - GetReservationBinLimit m reservation)) st1)
      as [Hg2 Hl2].
    change (UpdateReservationBin (S := MemStore.t)) with MemStore.updateReservationBin.
    rewrite Hg2, Hl2. auto.
  - unfold IncrementBinUsage, bind, wrapping, store_call. rewrite Hup. cbn [snd store].
    change (UpdateReservationBin (S := MemStore.t)) with MemStore.updateReservationBin
      in Hup.
    rewrite Hup in Hg1, Hl1. auto.
Qed.

Lemma ServeReservationRequest_mem_frame m header reservation (symbolsCharged : Z)
    (quorumNumbers : list Z) (receivedAt : Z) w :
  let out := ServeReservationRequest IsActiveByNanosecond m header reservation
               symbolsCharged quorumNumbers receivedAt w in
  MemStore.globalBins (store (snd out)) = MemStore.globalBins (store w)
  /\ MemStore.ledger (store (snd out)) = MemStore.ledger (store w).
Proof.
  intros out. subst out. unfold ServeReservationRequest, fail.
  destruct (negb _); [cbn; auto |].
  destruct (ValidateQuorum _ _ _); [| cbn; auto].
  destruct (negb _); [cbn; auto |].
  rewrite snd_bind_ret, snd_wrapping. apply IncrementBinUsage_mem_frame.
Qed.

Lemma ServeOnDemandRequest_mem_frame m header onDemandPayment (symbolsCharged : Z)
    (headerQuorums : list Z) (receivedAt : Z) w :
  MemStore.reservationBins
    (store (snd (ServeOnDemandRequest m header onDemandPayment symbolsCharged
                   headerQuorums receivedAt w)))
  = MemStore.reservationBins (store w).
Proof.
  rewrite ServeOnDemandRequest_steps. cbv zeta.
  destruct (GetOnDemandQuorumNumbers _) as [allowed | e]; [| reflexivity].
  destruct (ValidateQuorum _ _ _) as [[] | e]; [| reflexivity].
  pose proof (ValidatePayment_mem_frame m header onDemandPayment symbolsCharged
                {| store := store w;
                   calls := calls w ++ [CallGetOnDemandQuorumNumbers] |}) as [Hb1 _].
  destruct (ValidatePayment _ _ _ _ _) as [[[] | e] w1]; cbn [snd store] in Hb1;
    [| exact Hb1].
  pose proof (addOnDemandPayment_frame header symbolsCharged (store w1)) as [Hb2 _].
  pose proof (store_of_store_call (CallAddOnDemandPayment header symbolsCharged)
                (AddOnDemandPayment header symbolsCharged) w1) as Hs2.
  destruct (store_call _ _ w1) as [[[] | e] w2]; cbn [snd] in Hs2;
    change (AddOnDemandPayment (S := MemStore.t)) with MemStore.addOnDemandPayment in Hs2;
    rewrite <- Hs2 in Hb2; [| cbn [snd]; congruence].
  rewrite IncrementGlobalBinUsage_after_update.
  pose proof (updateGlobalBin_frame
                (GetReservationPeriod receivedAt
                   (GetGlobalRatePeriodInterval (ChainPaymentState m)))
                (wrap64 symbolsCharged) (store w2)) as Hb3.
  pose proof (store_of_store_call
                (CallUpdateGlobalBin
                   (GetReservationPeriod receivedAt
                      (GetGlobalRatePeriodInterval (ChainPaymentState m)))
                   (wrap64 symbolsCharged))
                (UpdateGlobalBin
                   (GetReservationPeriod receivedAt
                      (GetGlobalRatePeriodInterval (ChainPaymentState m)))
                   (wrap64 symbolsCharged)) w2) as Hs3.
  change (UpdateGlobalBin (S := MemStore.t)) with MemStore.updateGlobalBin in Hs3.
  rewrite <- Hs3 in Hb3.
  destruct (store_call _ _ w2) as [r3 w3]. cbn [fst snd] in *.
  assert (Hb : MemStore.reservationBins (store w3) = MemStore.reservationBins (store w))
    by congruence.
  destruct (match r3 with Ok _ => _ | Err _ => _ end) as [[] | err]; [exact Hb |].
  pose proof (removeOnDemandPayment_frame (PaymentMetadata.AccountID header)
                (PaymentMetadata.CumulativePayment header) (store w3)) as [Hb4 _].
  pose proof (store_of_store_call
                (CallRemoveOnDemandPayment (PaymentMetadata.AccountID header)
                   (PaymentMetadata.CumulativePayment header))
                (RemoveOnDemandPayment (PaymentMetadata.AccountID header)
                   (PaymentMetadata.CumulativePayment header)) w3) as Hs4.
  change (RemoveOnDemandPayment (S := MemStore.t)) with MemStore.removeOnDemandPayment
    in Hs4.
  rewrite <- Hs4 in Hb4.
  destruct (store_call _ _ w3) as [[[] | dbErr] w4]; cbn [snd] in *; congruence.
Qed.

(** X14: the two paths own disjoint parts of the store: a request with a zero
    cumulative payment changes neither the ledger nor a global bin, whatever
    its outcome, and a request with a non-zero cumulative payment changes no
    reservation bin. *)
Theorem MeterRequest_store_frame m header (numSymbols : Z) (quorumNumbers : list Z)
    (receivedAt : Z) w :
  let payment := PaymentMetadata.CumulativePayment header in
  let out := MeterRequest HexToAddress IsActiveByNanosecond m header numSymbols
               quorumNumbers receivedAt w in
  (payment = 0 ->
   MemStore.ledger (store (snd out)) = MemStore.ledger (store w)
   /\ MemStore.globalBins (store (snd out)) = MemStore.globalBins (store w))
  /\ (payment <> 0 ->
      MemStore.reservationBins (store (snd out)) = MemStore.reservationBins (store w)).
Proof.
  intros payment out. subst out. unfold MeterRequest. fold payment.
  unfold bind, wrapping, chain_call, ret.
  destruct (Z.eqb_spec (Z.sgn payment) 0) as [Hs | Hs].
  - apply -> Z.sgn_null_iff in Hs.
    split; [intros _ | intros Hnz; exfalso; exact (Hnz Hs)].
    destruct (GetReservedPaymentByAccount _ _) as [reservation | e]; [| cbn; auto].
    destruct (ServeReservationRequest_mem_frame m header reservation
                (SymbolsCharged m numSymbols) quorumNumbers receivedAt
                {| store := store w;
                   calls := calls w
                            ++ [CallGetReservedPaymentByAccount
                                  (HexToAddress (PaymentMetadata.AccountID header))] |})
      as [Hg Hl].
    cbn [store] in Hg, Hl.
    destruct (ServeReservationRequest _ _ _ _ _ _ _ _) as [[[] | e] w'];
      cbn [snd] in *; split; assumption.
  - split; [intros Hz; exfalso; apply Hs; rewrite Hz; reflexivity | intros _].
    destruct (GetOnDemandPaymentByAccount _ _) as [onDemandPayment | e]; [| reflexivity].
    pose proof (ServeOnDemandRequest_mem_frame m header onDemandPayment
                  (SymbolsCharged m numSymbols) quorumNumbers receivedAt
                  {| store := store w;
                     calls := calls w
                              ++ [CallGetOnDemandPaymentByAccount
                                    (HexToAddress (PaymentMetadata.AccountID header))] |})
      as Hb.
    cbn [store] in Hb.
    destruct (ServeOnDemandRequest _ _ _ _ _ _ _) as [[[] | e] w'];
      cbn [snd] in *; assumption.
Qed.

End CoordinatorProofs.

Section CoordinatorErrors.

Context {Address : Type} (HexToAddress : string -> Address).
Context (IsActiveByNanosecond : ReservedPayment.t -> Z -> bool).
Context {S : Type} `{OffchainStore S}.

Implicit Types (m : Meterer Address) (header : PaymentMetadata.t)
  (reservation : ReservedPayment.t) (onDemandPayment : OnDemandPayment.t)
  (w : World Address S).

(** X15: with a positive symbol quantum, so that the rounding division of
    [SymbolsCharged] is defined, [MeterRequest] succeeds only when the record
    of the account was found and the path of the request accepted it.  When
    the record is missing, the error of the lookup comes back wrapped and no
    call to the store has been made; an error of the path comes back wrapped
    as an invalid reservation or an invalid on-demand request. *)
Theorem MeterRequest_outcomes m header (numSymbols : Z) (quorumNumbers : list Z)
    (receivedAt : Z) w :
  let chain := ChainPaymentState m in
  let payment := PaymentMetadata.CumulativePayment header in
  let account := HexToAddress (PaymentMetadata.AccountID header) in
  let size := SymbolsCharged m numSymbols in
  let looked c := {| store := store w; calls := calls w ++ [c] |} in
  let wr := looked (CallGetReservedPaymentByAccount account) in
  let wd := looked (CallGetOnDemandPaymentByAccount account) in
  let out := MeterRequest HexToAddress IsActiveByNanosecond m header numSymbols
               quorumNumbers receivedAt w in
  0 < GetMinNumSymbols chain < modulus ->
  (payment = 0 -> forall e, GetReservedPaymentByAccount chain account = Err e ->
     out = (Err (Wrapf "failed to get active reservation by account: %w" e), wr))
  /\ (payment <> 0 -> forall e, GetOnDemandPaymentByAccount chain account = Err e ->
      out = (Err (Wrapf "failed to get on-demand payment by account: %w" e), wd))
  /\ (payment = 0 -> forall reservation e,
        GetReservedPaymentByAccount chain account = Ok reservation ->
        fst (ServeReservationRequest IsActiveByNanosecond m header reservation size
               quorumNumbers receivedAt wr) = Err e ->
        fst out = Err (Wrapf "invalid reservation: %w" e))
  /\ (payment <> 0 -> forall onDemandPayment e,
        GetOnDemandPaymentByAccount chain account = Ok onDemandPayment ->
        fst (ServeOnDemandRequest m header onDemandPayment size quorumNumbers
               receivedAt wd) = Err e ->
        fst out = Err (Wrapf "invalid on-demand request: %w" e))
  /\ (forall charged, fst out = Ok charged ->
        (payment = 0
         /\ exists reservation,
              GetReservedPaymentByAccount chain account = Ok reservation
              /\ fst (ServeReservationRequest IsActiveByNanosecond m header reservation
                        size quorumNumbers receivedAt wr) = Ok tt)
        \/ (payment <> 0
            /\ exists onDemandPayment,
                 GetOnDemandPaymentByAccount chain account = Ok onDemandPayment
                 /\ fst (ServeOnDemandRequest m header onDemandPayment size quorumNumbers
                           receivedAt wd) = Ok tt)).
Proof.
  intros chain payment account size looked wr wd out _.
  subst out. unfold MeterRequest. fold payment account chain size.
  unfold bind, wrapping, chain_call, ret. subst wr wd looked. cbv beta.
  destruct (Z.eqb_spec (Z.sgn payment) 0) as [Hs | Hs].
  - apply -> Z.sgn_null_iff in Hs.
    split; [intros _ e ->; reflexivity |].
    split; [intros Hnz; exfalso; exact (Hnz Hs) |].
    split.
    { intros _ reservation e -> Herr.
      destruct (ServeReservationRequest _ _ _ _ _ _ _ _) as [[[] | e'] w'];
        cbn [fst] in *; [discriminate | congruence]. }
    split; [intros Hnz; exfalso; exact (Hnz Hs) |].
    intros charged Hok. left. split; [exact Hs |].
    destruct (GetReservedPaymentByAccount chain account) as [reservation | e];
      [| discriminate].
    exists reservation. split; [reflexivity |].
    destruct (ServeReservationRequest _ _ _ _ _ _ _ _) as [[[] | e'] w'];
      cbn [fst] in *; [reflexivity | discriminate].
  - assert (Hnz : payment <> 0) by (intros Hz; apply Hs; rewrite Hz; reflexivity).
    split; [intros Hz; exfalso; exact (Hnz Hz) |].
    split; [intros _ e ->; reflexivity |].
    split; [intros Hz; exfalso; exact (Hnz Hz) |].
    split.
    { intros _ onDemandPayment e -> Herr.
      destruct (ServeOnDemandRequest _ _ _ _ _ _ _) as [[[] | e'] w'];
        cbn [fst] in *; [discriminate | congruence]. }
    intros charged Hok. right. split; [exact Hnz |].
    destruct (GetOnDemandPaymentByAccount chain account) as [onDemandPayment | e];
      [| discriminate].
    exists onDemandPayment. split; [reflexivity |].
    destruct (ServeOnDemandRequest _ _ _ _ _ _ _) as [[[] | e'] w'];
      cbn [fst] in *; [reflexivity | discriminate].
Qed.

(** X16: when the arithmetic does not wrap (the new usage is at least the
    symbols just added and twice the limit fits 64 bits), an accepted
    reservation request leaves its bin at most at twice the limit, and either
    the request fits the limit or the bin was below the limit before it. *)
Theorem IncrementBinUsage_accepted_bound m header reservation
    (symbolsCharged period : Z) w (newUsage : Z) (st1 : S) :
  let usageLimit := GetReservationBinLimit m reservation in
  UpdateReservationBin (PaymentMetadata.AccountID header) period symbolsCharged (store w)
    = (Ok newUsage, st1) ->
  0 <= symbolsCharged <= newUsage -> newUsage < modulus -> 2 * usageLimit < modulus ->
  fst (IncrementBinUsage m header reservation symbolsCharged period w) = Ok tt ->
  newUsage <= 2 * usageLimit
  /\ (newUsage <= usageLimit \/ newUsage - symbolsCharged < usageLimit).
Proof.
  intros usageLimit Hup Hs Hu Hl.
  rewrite (IncrementBinUsage_after_update m header reservation symbolsCharged period w
             newUsage st1 Hup).
  fold usageLimit.
  assert (HL : 0 <= usageLimit < modulus) by apply wrap64_range.
  rewrite (wrap64_small (newUsage - symbolsCharged)) by lia.
  rewrite (wrap64_small (2 * usageLimit)) by lia.
  rewrite Z.geb_leb.
  destruct (Z.leb_spec newUsage usageLimit); [intros _; lia |].
  destruct (Z.leb_spec usageLimit (newUsage - symbolsCharged)); [discriminate |].
  destruct (Z.leb_spec newUsage (2 * usageLimit)); cbn [andb]; [intros _; lia |].
  discriminate.
Qed.

End CoordinatorErrors.

(** Scenario 1: the reservation request of 7 symbols is charged 9 because the
    reservation of the account was found and its meter accepted. *)
Lemma MeterRequest_outcomes_witness :
  let w := Scenario.world Scenario.empty in
  let wr := {| store := store w;
               calls := calls w ++ [CallGetReservedPaymentByAccount "acct"] |} in
  0 < 3 < modulus
  /\ fst (MeterRequest Scenario.address Scenario.active Scenario.meterer
            (Scenario.request 0) 7 [0] 30 w) = Ok 9
  /\ exists reservation,
       GetReservedPaymentByAccount Scenario.chain "acct" = Ok reservation
       /\ fst (ServeReservationRequest Scenario.active Scenario.meterer (Scenario.request 0)
                 reservation 9 [0] 30 wr) = Ok tt.
Proof.
  intros w wr.
  assert (Hmin : 0 < GetMinNumSymbols (ChainPaymentState Scenario.meterer) < modulus)
    by closed_arith.
  assert (Hok : fst (MeterRequest Scenario.address Scenario.active Scenario.meterer
                       (Scenario.request 0) 7 [0] 30 w) = Ok 9)
    by (vm_compute; reflexivity).
  split; [exact Hmin | split; [exact Hok |]].
  destruct (MeterRequest_outcomes Scenario.address Scenario.active Scenario.meterer
              (Scenario.request 0) 7 [0] 30 w Hmin) as (_ & _ & _ & _ & Hsucc).
  destruct (Hsucc 9 Hok) as [(_ & reservation & Hfound & Hserved) | (Hnz & _)].
  - exists reservation. split; [exact Hfound | exact Hserved].
  - exfalso. apply Hnz. reflexivity.
Defined.

(** Scenario 2: the accepted request leaves 316 in a bin of limit 300. *)
Lemma IncrementBinUsage_accepted_bound_witness :
  UpdateReservationBin "acct" 0 21 Scenario.bin295
    = (Ok 316, snd (UpdateReservationBin "acct" 0 21 Scenario.bin295))
  /\ (0 <= 21 <= 316 /\ 316 < modulus /\ 2 * 300 < modulus)
  /\ fst (IncrementBinUsage Scenario.meterer (Scenario.request 0) Scenario.reservation
            21 0 (Scenario.world Scenario.bin295)) = Ok tt
  /\ 316 <= 2 * GetReservationBinLimit Scenario.meterer Scenario.reservation.
Proof.
  assert (Hup : UpdateReservationBin (PaymentMetadata.AccountID (Scenario.request 0)) 0 21
                  (store (Scenario.world Scenario.bin295))
                = (Ok 316, snd (UpdateReservationBin "acct" 0 21 Scenario.bin295)))
    by (vm_compute; reflexivity).
  assert (Hacc : fst (IncrementBinUsage Scenario.meterer (Scenario.request 0)
                        Scenario.reservation 21 0 (Scenario.world Scenario.bin295))
                 = Ok tt) by (vm_compute; reflexivity).
  split; [exact Hup |]. split; [closed_arith |]. split; [exact Hacc |].
  exact (proj1 (IncrementBinUsage_accepted_bound Scenario.meterer (Scenario.request 0)
                  Scenario.reservation 21 0 (Scenario.world Scenario.bin295) 316 _ Hup
                  ltac:(closed_arith) ltac:(closed_arith) ltac:(closed_arith) Hacc)).
Defined.

(** ** The order of the on-demand ledger *)

Section LedgerOrder.

Context {Address : Type}.

Implicit Types (m : Meterer Address) (header : PaymentMetadata.t)
  (onDemandPayment : OnDemandPayment.t) (w : World Address MemStore.t)
  (l : gmap (string * Z) Z).

(** [prev_record] finds the largest payment of the account below [payment]. *)
Lemma prev_record_spec (account : string) (payment : Z) l :
  match MemStore.prev_record account payment l with
  | Some x =>
      x < payment /\ is_Some (l !! (account, x))
      /\ forall y, is_Some (l !! (account, y)) -> y < payment -> y <= x
  | None => forall y, is_Some (l !! (account, y)) -> ~ y < payment
  end.
Proof.
  unfold MemStore.prev_record.
  apply (map_fold_weak_ind
           (fun r (l : gmap (string * Z) Z) =>
              match r with
              | Some x =>
                  x < payment /\ is_Some (l !! (account, x))
                  /\ forall y, is_Some (l !! (account, y)) -> y < payment -> y <= x
              | None => forall y, is_Some (l !! (account, y)) -> ~ y < payment
              end)).
  - intros y Hy. rewrite lookup_empty in Hy. destruct Hy; discriminate.
  - intros [ka kp] v l' r Hfresh IH. cbn [fst snd].
    destruct (bool_decide_reflect (ka = account)) as [-> | Hacc]; cbn [andb].
    + destruct (Z.ltb_spec kp payment) as [Hlt | Hge].
      * destruct r as [b |].
        -- destruct IH as (Hb & Hin & Hmax).
           split; [lia |]. split.
           ++ apply lookup_insert_is_Some'.
              destruct (Z.max_spec b kp) as [[_ ->] | [_ ->]]; [left; reflexivity | now right].
           ++ intros y Hy Hyp. apply lookup_insert_is_Some' in Hy as [Heq | Hy].
              ** inversion Heq; subst. lia.
              ** specialize (Hmax y Hy Hyp). lia.
        -- split; [exact Hlt |]. split.
           ++ apply lookup_insert_is_Some'. now left.
           ++ intros y Hy Hyp. apply lookup_insert_is_Some' in Hy as [Heq | Hy].
              ** inversion Heq; subst. lia.
              ** exfalso. exact (IH y Hy Hyp).
      * destruct r as [b |].
        -- destruct IH as (Hb & Hin & Hmax). split; [exact Hb |]. split.
           ++ apply lookup_insert_is_Some'. now right.
           ++ intros y Hy Hyp. apply lookup_insert_is_Some' in Hy as [Heq | Hy].
              ** inversion Heq; subst. lia.
              ** exact (Hmax y Hy Hyp).
        -- intros y Hy Hyp. apply lookup_insert_is_Some' in Hy as [Heq | Hy].
           ++ inversion Heq; subst. lia.
           ++ exact (IH y Hy Hyp).
    + assert (Hother : forall y, is_Some (<[(ka, kp) := v]> l' !! (account, y))
                                 -> is_Some (l' !! (account, y))).
      { intros y Hy. apply lookup_insert_is_Some' in Hy as [Heq | Hy]; [| exact Hy].
        inversion Heq; subst. contradiction. }
      destruct r as [b |].
      * destruct IH as (Hb & Hin & Hmax). split; [exact Hb |]. split.
        -- apply lookup_insert_is_Some'. now right.
        -- intros y Hy. apply Hmax. now apply Hother.
      * intros y Hy. apply IH. now apply Hother.
Qed.

(** [next_record] finds the smallest payment of the account above [payment],
    with its symbols. *)
Lemma next_record_spec (account : string) (payment : Z) l :
  match MemStore.next_record account payment l with
  | Some (x, v) =>
      payment < x /\ l !! (account, x) = Some v
      /\ forall y, is_Some (l !! (account, y)) -> payment < y -> x <= y
  | None => forall y, is_Some (l !! (account, y)) -> ~ payment < y
  end.
Proof.
  unfold MemStore.next_record.
  apply (map_fold_weak_ind
           (fun r (l : gmap (string * Z) Z) =>
              match r with
              | Some (x, v) =>
                  payment < x /\ l !! (account, x) = Some v
                  /\ forall y, is_Some (l !! (account, y)) -> payment < y -> x <= y
              | None => forall y, is_Some (l !! (account, y)) -> ~ payment < y
              end)).
  - intros y Hy. rewrite lookup_empty in Hy. destruct Hy; discriminate.
  - intros [ka kp] v l' r Hfresh IH. cbn [fst snd].
    destruct (bool_decide_reflect (ka = account)) as [-> | Hacc]; cbn [andb].
    + destruct (Z.ltb_spec payment kp) as [Hlt | Hge].
      * destruct r as [[b bv] |].
        -- destruct IH as (Hb & Hin & Hmin).
           assert (Hbk : b <> kp) by (intros ->; rewrite Hfresh in Hin; discriminate).
           destruct (Z.ltb_spec kp b) as [Hkb | Hkb].
           ++ split; [exact Hlt |]. split; [apply lookup_insert_eq |].
              intros y Hy Hyp. apply lookup_insert_is_Some' in Hy as [Heq | Hy].
              ** inversion Heq; subst. lia.
              ** specialize (Hmin y Hy Hyp). lia.
           ++ split; [exact Hb |]. split.
              ** rewrite lookup_insert_ne by congruence. exact Hin.
              ** intros y Hy Hyp. apply lookup_insert_is_Some' in Hy as [Heq | Hy].
                 --- inversion Heq; subst. lia.
                 --- exact (Hmin y Hy Hyp).
        -- split; [exact Hlt |]. split; [apply lookup_insert_eq |].
           intros y Hy Hyp. apply lookup_insert_is_Some' in Hy as [Heq | Hy].
           ++ inversion Heq; subst. lia.
           ++ exfalso. exact (IH y Hy Hyp).
      * destruct r as [[b bv] |].
        -- destruct IH as (Hb & Hin & Hmin). split; [exact Hb |]. split.
           ++ rewrite lookup_insert_ne by (intros Heq; inversion Heq; lia). exact Hin.
           ++ intros y Hy Hyp. apply lookup_insert_is_Some' in Hy as [Heq | Hy].
              ** inversion Heq; subst. lia.
              ** exact (Hmin y Hy Hyp).
        -- intros y Hy Hyp. apply lookup_insert_is_Some' in Hy as [Heq | Hy].
           ++ inversion Heq; subst. lia.
           ++ exact (IH y Hy Hyp).
    + assert (Hother : forall y, is_Some (<[(ka, kp) := v]> l' !! (account, y))
                                 -> is_Some (l' !! (account, y))).
      { intros y Hy. apply lookup_insert_is_Some' in Hy as [Heq | Hy]; [| exact Hy].
        inversion Heq; subst. contradiction. }
      destruct r as [[b bv] |].
      * destruct IH as (Hb & Hin & Hmin). split; [exact Hb |]. split.
        -- rewrite lookup_insert_ne by (intros Heq; inversion Heq; subst; contradiction).
           exact Hin.
        -- intros y Hy. apply Hmin. now apply Hother.
      * intros y Hy. apply IH. now apply Hother.
Qed.

(** An accepted on-demand request has passed [ValidatePayment]. *)
Lemma ServeOnDemandRequest_accepted_validated m header onDemandPayment
    (symbolsCharged : Z) (headerQuorums : list Z) (receivedAt : Z) w :
  fst (ServeOnDemandRequest m header onDemandPayment symbolsCharged headerQuorums
         receivedAt w) = Ok tt ->
  fst (ValidatePayment m header onDemandPayment symbolsCharged
         {| store := store w; calls := calls w ++ [CallGetOnDemandQuorumNumbers] |})
  = Ok tt.
Proof.
  rewrite ServeOnDemandRequest_steps. cbv zeta.
  destruct (GetOnDemandQuorumNumbers _) as [allowed | e]; [| discriminate].
  destruct (ValidateQuorum _ _ _) as [[] | e]; [| discriminate].
  destruct (ValidatePayment _ _ _ _ _) as [[[] | e] w1]; [reflexivity | discriminate].
Qed.

(** X17: accepted on-demand requests keep the ledger of every account in
    order: if, before the request, every payment of an account was positive,
    covered the price of its own symbols, and covered each earlier payment
    plus the price of its own symbols, then the same holds after the
    request, with the new entry included. *)
Theorem ServeOnDemandRequest_keeps_ledger_order m header onDemandPayment
    (symbolsCharged : Z) (headerQuorums : list Z) (receivedAt : Z) w :
  let chain := ChainPaymentState m in
  let out := ServeOnDemandRequest m header onDemandPayment symbolsCharged headerQuorums
               receivedAt w in
  0 < GetMinNumSymbols chain < modulus ->
  0 < GetPricePerSymbol chain < 2 ^ 63 ->
  0 <= symbolsCharged < modulus ->
  fst out = Ok tt ->
  forall account,
    ledger_invariant m account (MemStore.ledger (store w)) ->
    ledger_invariant m account (MemStore.ledger (store (snd out))).
Proof.
  intros chain out Hmin Hprice Hsize Hacc account [Hpos Hpair].
  destruct (ServeOnDemandRequest_mem_accepted m header onDemandPayment symbolsCharged
              headerQuorums receivedAt w Hacc) as (Hfree & Hl & _).
  cbv zeta in Hfree, Hl. fold out in Hl. rewrite Hl. clear Hl.
  pose proof (ServeOnDemandRequest_accepted_validated m header onDemandPayment
                symbolsCharged headerQuorums receivedAt w Hacc) as Hvp.
  apply (ValidatePayment_mem m header onDemandPayment symbolsCharged) in Hvp.
  cbn [store] in Hvp. destruct Hvp as (_ & _ & Hprev & Hnext).
  set (acct := PaymentMetadata.AccountID header) in *.
  set (payment := PaymentMetadata.CumulativePayment header) in *.
  set (l := MemStore.ledger (store w)) in *.
  destruct (decide (account = acct)) as [-> | Hother].
  2: { split.
       - intros p s. rewrite lookup_insert_ne by congruence. apply Hpos.
       - intros p1 s1 p2 s2. rewrite !lookup_insert_ne by congruence. apply Hpair. }
  unfold MemStore.neighbours in Hprev, Hnext. cbn [fst snd] in Hprev, Hnext.
  pose proof (prev_record_spec acct payment l) as Hps.
  pose proof (next_record_spec acct payment l) as Hns.
  pose proof (PaymentCharged_pos m symbolsCharged Hmin Hprice) as Hcharge.
  rewrite Z.gtb_ltb in Hprev. apply Z.ltb_ge in Hprev.
  (* the predecessor reported by the store is not negative *)
  assert (Hprev0 : 0 <= default 0 (MemStore.prev_record acct payment l)).
  { destruct (MemStore.prev_record acct payment l) as [x |]; cbn; [| lia].
    destruct Hps as (_ & [v Hv] & _). destruct (Hpos x v Hv). lia. }
  assert (Hnew : 0 < payment /\ PaymentCharged m (wrap64 symbolsCharged) <= payment).
  { rewrite (wrap64_small symbolsCharged Hsize). lia. }
  (* entries below the new payment *)
  assert (Hbelow : forall p1 s1, l !! (acct, p1) = Some s1 -> p1 < payment ->
                                 p1 + PaymentCharged m symbolsCharged <= payment).
  { intros p1 s1 H1 Hlt.
    destruct (MemStore.prev_record acct payment l) as [x |]; cbn in Hprev.
    - destruct Hps as (_ & _ & Hmax). specialize (Hmax p1 (ex_intro _ s1 H1) Hlt). lia.
    - exfalso. exact (Hps p1 (ex_intro _ s1 H1) Hlt). }
  (* entries above the new payment *)
  assert (Habove : forall p2 s2, l !! (acct, p2) = Some s2 -> payment < p2 ->
                                 payment + PaymentCharged m (wrap64 s2) <= p2).
  { intros p2 s2 H2 Hlt.
    destruct (MemStore.next_record acct payment l) as [[x v] |]; cbn in Hnext.
    - destruct Hns as (Hx & Hv & Hminimal).
      destruct (Hpos x v Hv) as [Hxpos _].
      destruct (Z.eqb_spec x 0) as [-> | _]; [lia |]. cbn [negb andb] in Hnext.
      rewrite Z.gtb_ltb in Hnext. apply Z.ltb_ge in Hnext.
      specialize (Hminimal p2 (ex_intro _ s2 H2) Hlt).
      destruct (Z.eq_dec x p2) as [-> | Hne].
      + rewrite H2 in Hv. inversion Hv; subst. exact Hnext.
      + pose proof (Hpair x v p2 s2 Hv H2 ltac:(lia)). lia.
    - exfalso. exact (Hns p2 (ex_intro _ s2 H2) Hlt). }
  split.
  - intros p s Hin. apply lookup_insert_Some in Hin as [[Heq <-] | [_ Hin]].
    + inversion Heq; subst. exact Hnew.
    + exact (Hpos p s Hin).
  - intros p1 s1 p2 s2 H1 H2 Hlt.
    apply lookup_insert_Some in H1 as [[Heq1 <-] | [_ H1]];
      apply lookup_insert_Some in H2 as [[Heq2 <-] | [_ H2]].
    + inversion Heq1; inversion Heq2; subst. lia.
    + inversion Heq1; subst. exact (Habove p2 s2 H2 Hlt).
    + inversion Heq2; subst. rewrite (wrap64_small symbolsCharged Hsize).
      exact (Hbelow p1 s1 H1 Hlt).
    + exact (Hpair p1 s1 p2 s2 H1 H2 Hlt).
Qed.

End LedgerOrder.

(** Scenario 4 on the ledger of scenario 6: payment 60 for 6 symbols goes in
    below the payment of 500, and the ledger stays in order. *)
Lemma ServeOnDemandRequest_keeps_ledger_order_witness :
  let out := ServeOnDemandRequest Scenario.meterer (Scenario.request 60) Scenario.deposit
               6 [0] 30 (Scenario.world Scenario.ledger500) in
  (0 < 3 < modulus /\ 0 < 10 < 2 ^ 63 /\ 0 <= 6 < modulus)
  /\ fst out = Ok tt
  /\ ledger_invariant Scenario.meterer "acct"
       (MemStore.ledger (store (Scenario.world Scenario.ledger500)))
  /\ ledger_invariant Scenario.meterer "acct" (MemStore.ledger (store (snd out))).
Proof.
  intros out.
  assert (Hacc : fst out = Ok tt) by (vm_compute; reflexivity).
  assert (Hinv : ledger_invariant Scenario.meterer "acct"
                   (MemStore.ledger (store (Scenario.world Scenario.ledger500)))).
  { change (MemStore.ledger (store (Scenario.world Scenario.ledger500)))
      with ({[ ("acct", 500) := 6 ]} : gmap (string * Z) Z).
    split.
    - intros p s Hin. apply lookup_singleton_Some in Hin as [Hk <-].
      inversion Hk; subst. closed_arith.
    - intros p1 s1 p2 s2 H1 H2 Hlt.
      apply lookup_singleton_Some in H1 as [Hk1 _].
      apply lookup_singleton_Some in H2 as [Hk2 _].
      inversion Hk1; inversion Hk2; subst. lia. }
  split; [closed_arith |]. split; [exact Hacc |]. split; [exact Hinv |].
  exact (ServeOnDemandRequest_keeps_ledger_order Scenario.meterer (Scenario.request 60)
           Scenario.deposit 6 [0] 30 (Scenario.world Scenario.ledger500)
           ltac:(closed_arith) ltac:(closed_arith) ltac:(closed_arith) Hacc "acct" Hinv).
Defined.

(** X18: [ValidatePayment] only reads: it makes no call when the payment
    exceeds the deposit and otherwise the one neighbour query, and the bins
    and the ledger of the store are afterwards what they were. *)
Theorem ValidatePayment_read_only {Address : Type} (m : Meterer Address)
    (header : PaymentMetadata.t) (onDemandPayment : OnDemandPayment.t)
    (symbolsCharged : Z) (w : World Address MemStore.t) :
  let account := PaymentMetadata.AccountID header in
  let payment := PaymentMetadata.CumulativePayment header in
  let out := ValidatePayment m header onDemandPayment symbolsCharged w in
  (OnDemandPayment.CumulativePayment onDemandPayment < payment -> snd out = w)
  /\ (payment <= OnDemandPayment.CumulativePayment onDemandPayment ->
      calls (snd out)
      = (calls w ++ [CallGetRelevantOnDemandRecords account payment])%list)
  /\ MemStore.ledger (store (snd out)) = MemStore.ledger (store w)
  /\ MemStore.reservationBins (store (snd out)) = MemStore.reservationBins (store w)
  /\ MemStore.globalBins (store (snd out)) = MemStore.globalBins (store w).
Proof.
  intros account payment out.
  destruct (ValidatePayment_mem m header onDemandPayment symbolsCharged w) as [_ Hl].
  destruct (ValidatePayment_mem_frame m header onDemandPayment symbolsCharged w)
    as [Hb Hg].
  fold out in Hl, Hb, Hg.
  split; [| split; [| auto]].
  - intros Hover. subst out. unfold ValidatePayment, fail. fold payment.
    rewrite Z.gtb_ltb.
    destruct (Z.ltb_spec (OnDemandPayment.CumulativePayment onDemandPayment) payment);
      [reflexivity | lia].
  - intros Hwithin. subst out.
    unfold ValidatePayment, bind, wrapping, store_call, ret, fail. fold account payment.
    rewrite Z.gtb_ltb.
    destruct (Z.ltb_spec (OnDemandPayment.CumulativePayment onDemandPayment) payment);
      [lia |].
    destruct (GetRelevantOnDemandRecords account payment (store w))
      as [[[[p n] k] | e] s']; [| reflexivity].
    destruct (_ >? _); [reflexivity |].
    destruct (_ && _); reflexivity.
Qed.

(** ** The coordinator runs the meter it selects *)

Section Dispatch.

Context {Address : Type} (HexToAddress : string -> Address).
Context (IsActiveByNanosecond : ReservedPayment.t -> Z -> bool).
Context {S : Type} `{OffchainStore S}.

Implicit Types (m : Meterer Address) (header : PaymentMetadata.t)
  (reservation : ReservedPayment.t) (onDemandPayment : OnDemandPayment.t)
  (w : World Address S).

(** An accepted reservation request has written its bin, with the charged
    symbols, first. *)
Lemma ServeReservationRequest_ok_log m header reservation (symbolsCharged : Z)
    (quorumNumbers : list Z) (receivedAt : Z) w :
  fst (ServeReservationRequest IsActiveByNanosecond m header reservation symbolsCharged
         quorumNumbers receivedAt w) = Ok tt ->
  exists rest,
    calls (snd (ServeReservationRequest IsActiveByNanosecond m header reservation
                  symbolsCharged quorumNumbers receivedAt w))
    = (calls w
       ++ CallUpdateReservationBin (PaymentMetadata.AccountID header)
            (GetReservationPeriodByNanosecond (PaymentMetadata.Timestamp header)
               (GetReservationWindow (ChainPaymentState m)))
            symbolsCharged
       :: rest)%list.
Proof.
  unfold ServeReservationRequest, fail.
  destruct (negb _); [discriminate |].
  destruct (ValidateQuorum _ _ _); [| discriminate].
  destruct (negb _); [discriminate |].
  intros _. rewrite snd_bind_ret, snd_wrapping.
  destruct (IncrementBinUsage_log m header reservation symbolsCharged
              (GetReservationPeriodByNanosecond (PaymentMetadata.Timestamp header)
                 (GetReservationWindow (ChainPaymentState m))) w) as (rest & Hlog & _).
  exists rest. exact Hlog.
Qed.

(** An accepted on-demand request has made exactly four calls, the insert
    and the global-bin update with the charged symbols. *)
Lemma ServeOnDemandRequest_ok_log m header onDemandPayment (symbolsCharged : Z)
    (headerQuorums : list Z) (receivedAt : Z) w :
  fst (ServeOnDemandRequest m header onDemandPayment symbolsCharged headerQuorums
         receivedAt w) = Ok tt ->
  calls (snd (ServeOnDemandRequest m header onDemandPayment symbolsCharged headerQuorums
                receivedAt w))
  = (calls w
     ++ [CallGetOnDemandQuorumNumbers;
         CallGetRelevantOnDemandRecords (PaymentMetadata.AccountID header)
           (PaymentMetadata.CumulativePayment header);
         CallAddOnDemandPayment header symbolsCharged;
         CallUpdateGlobalBin
           (GetReservationPeriod receivedAt
              (GetGlobalRatePeriodInterval (ChainPaymentState m)))
           (wrap64 symbolsCharged)])%list.
Proof.
  rewrite ServeOnDemandRequest_steps. cbv zeta.
  destruct (GetOnDemandQuorumNumbers _) as [allowed | e]; [| discriminate].
  destruct (ValidateQuorum _ _ _) as [[] | e]; [| discriminate].
  destruct (ValidatePayment _ _ _ _ _) as [[[] | e] w1] eqn:Hvp; [| discriminate].
  apply ValidatePayment_ok_log in Hvp. cbn [calls] in Hvp.
  destruct (store_call _ _ w1) as [[[] | e] w2] eqn:Hins; [| discriminate].
  assert (Hw2 : calls w2 = (calls w1 ++ [CallAddOnDemandPayment header symbolsCharged])%list).
  { unfold store_call in Hins.
    destruct (AddOnDemandPayment header symbolsCharged (store w1)) as [r s2].
    inversion Hins; subst. reflexivity. }
  pose proof (IncrementGlobalBinUsage_one_call m (wrap64 symbolsCharged) receivedAt w2)
    as Hlog.
  destruct (IncrementGlobalBinUsage m (wrap64 symbolsCharged) receivedAt w2)
    as [[[] | err] w3].
  - intros _. cbn [snd] in *. rewrite Hlog, Hw2, Hvp, <- !app_assoc. reflexivity.
  - destruct (store_call _ _ w3) as [[[] | dbErr] w4]; discriminate.
Qed.

(** C4: a request with a non-negative cumulative payment goes down the
    reservation path exactly when the payment is zero and down the on-demand
    path exactly when it is positive, never the other one.  On the selected
    path the coordinator looks the record of the account up and runs the
    meter of that path with [SymbolsCharged numSymbols]; the meter decides the
    outcome and the store.  On success the result is
    [SymbolsCharged numSymbols], and that number is what has been written:
    to the reservation bin of the request period on the reservation path, to
    the ledger and to the global bin on the on-demand path.  The symbol
    quantum is positive, so that the rounding division is defined. *)
Theorem MeterRequest_dispatch m header (numSymbols : Z) (quorumNumbers : list Z)
    (receivedAt : Z) w :
  let chain := ChainPaymentState m in
  let payment := PaymentMetadata.CumulativePayment header in
  let account := HexToAddress (PaymentMetadata.AccountID header) in
  let size := SymbolsCharged m numSymbols in
  let wr := {| store := store w;
               calls := calls w ++ [CallGetReservedPaymentByAccount account] |} in
  let wd := {| store := store w;
               calls := calls w ++ [CallGetOnDemandPaymentByAccount account] |} in
  let out := MeterRequest HexToAddress IsActiveByNanosecond m header numSymbols
               quorumNumbers receivedAt w in
  0 <= payment ->
  0 < GetMinNumSymbols chain < modulus ->
  (took_reservation_path account size w (snd out) <-> payment = 0)
  /\ (took_ondemand_path account size w (snd out) <-> 0 < payment)
  /\ (forall charged, fst out = Ok charged -> charged = size)
  /\ (payment = 0 ->
      out = match GetReservedPaymentByAccount chain account with
            | Err e =>
                (Err (Wrapf "failed to get active reservation by account: %w" e), wr)
            | Ok reservation =>
                match ServeReservationRequest IsActiveByNanosecond m header reservation
                        size quorumNumbers receivedAt wr with
                | (Ok _, w') => (Ok size, w')
                | (Err e, w') => (Err (Wrapf "invalid reservation: %w" e), w')
                end
            end)
  /\ (0 < payment ->
      out = match GetOnDemandPaymentByAccount chain account with
            | Err e =>
                (Err (Wrapf "failed to get on-demand payment by account: %w" e), wd)
            | Ok onDemandPayment =>
                match ServeOnDemandRequest m header onDemandPayment size quorumNumbers
                        receivedAt wd with
                | (Ok _, w') => (Ok size, w')
                | (Err e, w') => (Err (Wrapf "invalid on-demand request: %w" e), w')
                end
            end)
  /\ (payment = 0 -> forall charged, fst out = Ok charged ->
      exists rest,
        calls (snd out)
        = (calls w
           ++ CallGetReservedPaymentByAccount account
           :: CallUpdateReservationBin (PaymentMetadata.AccountID header)
                (GetReservationPeriodByNanosecond (PaymentMetadata.Timestamp header)
                   (GetReservationWindow chain)) size
           :: rest)%list)
  /\ (0 < payment -> forall charged, fst out = Ok charged ->
      calls (snd out)
      = (calls w
         ++ [CallGetOnDemandPaymentByAccount account;
             CallGetOnDemandQuorumNumbers;
             CallGetRelevantOnDemandRecords (PaymentMetadata.AccountID header) payment;
             CallAddOnDemandPayment header size;
             CallUpdateGlobalBin
               (GetReservationPeriod receivedAt (GetGlobalRatePeriodInterval chain))
               size])%list).
Proof.
  intros chain payment account size wr wd out Hpay _.
  assert (Hrun : out
    = if Z.sgn payment =? 0 then
        match GetReservedPaymentByAccount chain account with
        | Err e => (Err (Wrapf "failed to get active reservation by account: %w" e), wr)
        | Ok reservation =>
            match ServeReservationRequest IsActiveByNanosecond m header reservation
                    size quorumNumbers receivedAt wr with
            | (Ok _, w') => (Ok size, w')
            | (Err e, w') => (Err (Wrapf "invalid reservation: %w" e), w')
            end
        end
      else
        match GetOnDemandPaymentByAccount chain account with
        | Err e => (Err (Wrapf "failed to get on-demand payment by account: %w" e), wd)
        | Ok onDemandPayment =>
            match ServeOnDemandRequest m header onDemandPayment size quorumNumbers
                    receivedAt wd with
            | (Ok _, w') => (Ok size, w')
            | (Err e, w') => (Err (Wrapf "invalid on-demand request: %w" e), w')
            end
        end).
  { subst out wr wd. unfold MeterRequest. fold payment account chain size.
    unfold bind, wrapping, chain_call, ret.
    destruct (Z.sgn payment =? 0).
    - destruct (GetReservedPaymentByAccount chain account) as [reservation | e];
        [| reflexivity].
      destruct (ServeReservationRequest _ _ _ _ _ _ _ _) as [[[] | e] w']; reflexivity.
    - destruct (GetOnDemandPaymentByAccount chain account) as [onDemandPayment | e];
        [| reflexivity].
      destruct (ServeOnDemandRequest _ _ _ _ _ _ _) as [[[] | e] w']; reflexivity. }
  destruct (Z.eq_dec payment 0) as [Hz | Hnz].
  - destruct (MeterRequest_reservation_branch HexToAddress IsActiveByNanosecond m header
                numSymbols quorumNumbers receivedAt w Hz) as [Hres Hok].
    fold out account size in Hres, Hok.
    assert (Hsgn : (Z.sgn payment =? 0) = true) by (rewrite Hz; reflexivity).
    rewrite Hsgn in Hrun.
    split; [split; [intros _; exact Hz | intros _; exact Hres] |].
    split; [split; [intros Hx; exfalso; exact (paths_exclusive _ _ _ _ Hres Hx) | lia] |].
    split; [exact Hok |].
    split; [intros _; exact Hrun |].
    split; [lia |].
    split; [| lia].
    intros _ charged Hcharged. rewrite Hrun in Hcharged |- *.
    destruct (GetReservedPaymentByAccount chain account) as [reservation | e];
      [| discriminate].
    pose proof (ServeReservationRequest_ok_log m header reservation size quorumNumbers
                  receivedAt wr) as Hlog.
    destruct (ServeReservationRequest _ _ _ _ _ _ _ wr) as [[[] | e] w'];
      [| discriminate].
    destruct (Hlog eq_refl) as (rest & Hrest). exists rest.
    cbn [snd] in *. rewrite Hrest. subst wr. cbn [calls].
    rewrite <- app_assoc. reflexivity.
  - destruct (MeterRequest_ondemand_branch HexToAddress IsActiveByNanosecond m header
                numSymbols quorumNumbers receivedAt w Hnz) as [Hod Hok].
    fold out account size in Hod, Hok.
    assert (Hsgn : (Z.sgn payment =? 0) = false).
    { apply Z.eqb_neq. intros Hs. apply Hnz. apply Z.sgn_null_iff. exact Hs. }
    rewrite Hsgn in Hrun.
    split; [split; [intros Hx; exfalso; exact (paths_exclusive _ _ _ _ Hx Hod) | lia] |].
    split; [split; [lia | intros _; exact Hod] |].
    split; [exact Hok |].
    split; [lia |].
    split; [intros _; exact Hrun |].
    split; [lia |].
    intros _ charged Hcharged. rewrite Hrun in Hcharged |- *.
    destruct (GetOnDemandPaymentByAccount chain account) as [onDemandPayment | e];
      [| discriminate].
    pose proof (ServeOnDemandRequest_ok_log m header onDemandPayment size quorumNumbers
                  receivedAt wd) as Hlog.
    destruct (ServeOnDemandRequest _ _ _ _ _ _ wd) as [[[] | e] w'];
      [| discriminate].
    specialize (Hlog eq_refl). cbn [snd] in *. rewrite Hlog.
    subst wd. cbn [calls]. fold payment chain.
    rewrite (wrap64_small size (SymbolsCharged_range m numSymbols)).
    rewrite <- app_assoc. reflexivity.
Qed.

End Dispatch.

(** Scenario 1: a request with a zero cumulative payment goes down the
    reservation path, is charged 9 symbols and has written them to bin 0. *)
Lemma MeterRequest_dispatch_witness :
  let out := MeterRequest Scenario.address Scenario.active Scenario.meterer
               (Scenario.request 0) 7 [0] 30 (Scenario.world Scenario.empty) in
  0 <= 0
  /\ 0 < 3 < modulus
  /\ took_reservation_path (Scenario.address "acct") (SymbolsCharged Scenario.meterer 7)
       (Scenario.world Scenario.empty) (snd out)
  /\ fst out = Ok 9
  /\ exists rest,
       calls (snd out)
       = CallGetReservedPaymentByAccount "acct"
         :: CallUpdateReservationBin "acct" 0 9 :: rest.
Proof.
  intros out.
  assert (Hpay : 0 <= PaymentMetadata.CumulativePayment (Scenario.request 0))
    by closed_arith.
  assert (Hmin : 0 < GetMinNumSymbols (ChainPaymentState Scenario.meterer) < modulus)
    by closed_arith.
  assert (Hok : fst out = Ok 9) by (vm_compute; reflexivity).
  split; [exact Hpay | split; [exact Hmin |]].
  destruct (MeterRequest_dispatch Scenario.address Scenario.active Scenario.meterer
              (Scenario.request 0) 7 [0] 30 (Scenario.world Scenario.empty) Hpay Hmin)
    as (Hres & _ & _ & _ & _ & Hlog & _).
  split; [apply Hres; reflexivity |].
  split; [exact Hok |].
  destruct (Hlog eq_refl 9 Hok) as (rest & Hrest).
  exists rest. exact Hrest.
Defined.
